(** * benchforge: statistics, adaptive sampling, GC traces and matrix checks

    A shallow embedding of the parts of benchforge that its specification
    makes claims about:

    - [StatisticalUtils.ts]: percentiles, spread measures, Tukey outliers and
      the bootstrap comparison of two sample arrays;
    - [BasicRunner] (the collector): [collectSamples], [computeStats] and its
      interpolating [percentile];
    - [AdaptiveWrapper.ts]: [checkConvergence], [shouldStop], the adaptive
      loop and [computeTimeStats];
    - [GcStats.ts]: [parseGcLine] and [aggregateGcStats];
    - [BenchMatrix.ts]: [runMatrix] and its configuration checks.

    Numbers.  A JavaScript number is modelled by the type [num]: an exact
    rational, or one of the three special values NaN, +Infinity, -Infinity.
    Arithmetic on rationals is exact, with results kept in lowest terms: the
    rounding of binary64, its overflow to an infinity and the sign of zero
    are not modelled; a statement that depends on the magnitudes staying in
    binary64's range names that range as a hypothesis.  Everything
    that the code decides with a comparison, a division by zero or a NaN is
    modelled as JavaScript does it.  Where rounding itself decides a
    statement (the order of the collector's interpolated percentiles), the
    code is also written over binary64, on Rocq's primitive floats
    ([CollectorBinary64]). *)

From Stdlib Require Import QArith Qround Qabs ZArith List Bool Lia Lqa.
From Stdlib Require Import String Ascii.
From Stdlib Require Import Floats Uint63.
From Stdlib Require Import Sorting.Permutation Sorting.Sorted.
Import ListNotations.

Set Implicit Arguments.

(* ================================================================== *)
(** ** JavaScript numbers *)
(* ================================================================== *)

Module JS.

Inductive num : Type :=
| Num (q : Q)
| PosInf
| NegInf
| NaN.

(** [undefined] is the only non-number the modelled code can produce (an
    array read out of range); a possibly undefined number is an [option]. *)
Definition value := option num.
Definition undefined : value := None.

(** ToNumber, applied by every arithmetic operator and comparison. *)
Definition toNumber (v : value) : num :=
  match v with Some x => x | None => NaN end.

Definition zero : num := Num 0.
Definition one : num := Num 1.
Definition of_Z (z : Z) : num := Num (inject_Z z).
Definition of_nat (n : nat) : num := of_Z (Z.of_nat n).

Definition Qltb (a b : Q) : bool :=
  match a ?= b with Lt => true | _ => false end.

Definition neg (a : num) : num :=
  match a with
  | Num q => Num (- q)
  | PosInf => NegInf
  | NegInf => PosInf
  | NaN => NaN
  end.

Definition add (a b : num) : num :=
  match a, b with
  | NaN, _ | _, NaN => NaN
  | Num x, Num y => Num (Qred (x + y))
  | PosInf, NegInf | NegInf, PosInf => NaN
  | PosInf, _ | _, PosInf => PosInf
  | NegInf, _ | _, NegInf => NegInf
  end.

Definition sub (a b : num) : num := add a (neg b).

(** Sign of a rational: -1, 0 or 1. *)
Definition Qsign (q : Q) : Z := Z.sgn (Qnum q).

Definition signed_inf (s : Z) : num :=
  match s with
  | Z0 => NaN
  | Zpos _ => PosInf
  | Zneg _ => NegInf
  end.

Definition sign_of (a : num) : Z :=
  match a with
  | Num q => Qsign q
  | PosInf => 1
  | NegInf => -1
  | NaN => 0
  end.

Definition mul (a b : num) : num :=
  match a, b with
  | NaN, _ | _, NaN => NaN
  | Num x, Num y => Num (Qred (x * y))
  | _, _ => signed_inf (sign_of a * sign_of b)
  end.

(** Division: a finite number over zero is an infinity of the sign of the
    numerator, and 0/0 is NaN. *)
Definition div (a b : num) : num :=
  match a, b with
  | NaN, _ | _, NaN => NaN
  | Num x, Num y =>
      if Qeq_bool y 0 then signed_inf (Qsign x) else Num (Qred (x / y))
  | Num _, _ => zero
  | _, Num y => signed_inf (sign_of a * (if Qltb y 0 then -1 else 1))
  | _, _ => NaN
  end.

(** The comparison operators [<], [<=], [>], [>=] and [===]. *)
Definition ltb (a b : num) : bool :=
  match a, b with
  | NaN, _ | _, NaN => false
  | Num x, Num y => Qltb x y
  | NegInf, NegInf => false
  | NegInf, _ => true
  | _, PosInf => match a with PosInf => false | _ => true end
  | _, _ => false
  end.

Definition leb (a b : num) : bool :=
  match a, b with
  | NaN, _ | _, NaN => false
  | Num x, Num y => Qle_bool x y
  | NegInf, _ => true
  | _, PosInf => true
  | _, _ => false
  end.

Definition gtb (a b : num) : bool := ltb b a.
Definition geb (a b : num) : bool := leb b a.

Definition eqb (a b : num) : bool :=
  match a, b with
  | Num x, Num y => Qeq_bool x y
  | PosInf, PosInf => true
  | NegInf, NegInf => true
  | _, _ => false
  end.

Definition isNaN (a : num) : bool :=
  match a with NaN => true | _ => false end.

(** ToBoolean on a number: 0 and NaN are falsy. *)
Definition truthy (a : num) : bool :=
  match a with
  | Num q => negb (Qeq_bool q 0)
  | NaN => false
  | _ => true
  end.

Definition abs (a : num) : num :=
  match a with
  | Num q => Num (Qabs q)
  | NaN => NaN
  | _ => PosInf
  end.

(** [Math.min] and [Math.max] of two arguments: NaN if either is NaN. *)
Definition min2 (a b : num) : num :=
  match a, b with
  | NaN, _ | _, NaN => NaN
  | _, _ => if ltb b a then b else a
  end.

Definition max2 (a b : num) : num :=
  match a, b with
  | NaN, _ | _, NaN => NaN
  | _, _ => if ltb a b then b else a
  end.

Definition floor (a : num) : num :=
  match a with Num q => of_Z (Qfloor q) | _ => a end.

Definition ceil (a : num) : num :=
  match a with Num q => of_Z (Qceiling q) | _ => a end.

(** Truncation towards zero, used by the remainder. *)
Definition Qtrunc (q : Q) : Z :=
  if Qltb q 0 then Qceiling q else Qfloor q.

(** [a % 1]: the remainder has the sign of the dividend. *)
Definition rem1 (a : num) : num :=
  match a with
  | Num q => Num (Qred (q - inject_Z (Qtrunc q)))
  | _ => NaN
  end.

(** [Math.sqrt].  Irrational roots have no rational value: the root of a
    non-negative rational [n/d] is taken as [isqrt (n * d * 4^52) / (d * 2^52)],
    which is exact on zero and never negative.  Negative arguments give NaN. *)
Definition sqrt_scale : Z := 2 ^ 52.

Definition Qsqrt (q : Q) : Q :=
  Qmake (Z.sqrt (Qnum q * Zpos (Qden q) * (sqrt_scale * sqrt_scale)))
        (Qden q * Z.to_pos sqrt_scale).

Definition sqrt (a : num) : num :=
  match a with
  | Num q => if Qltb q 0 then NaN else Num (Qred (Qsqrt q))
  | PosInf => PosInf
  | _ => NaN
  end.

(** [arr[i]] for a number [i]: an element when [i] is an integer within the
    array, [undefined] otherwise. *)
Definition index {A : Type} (arr : list A) (i : num) : option A :=
  match i with
  | Num q =>
      if Qeq_bool q (inject_Z (Qfloor q)) && (0 <=? Qfloor q)%Z
      then nth_error arr (Z.to_nat (Qfloor q))
      else None
  | _ => None
  end.

(** [Array.prototype.sort(cmp)].  The sort is stable, and the comparator's
    result is read as: positive, the first argument goes after the second;
    anything else (negative, zero, NaN), it stays before.  For a consistent
    comparator every stable sort gives this result; it is written here as an
    insertion sort. *)
Fixpoint insert_by {A : Type} (cmp : A -> A -> num) (x : A) (l : list A)
  : list A :=
  match l with
  | [] => [x]
  | y :: t => if gtb (cmp x y) zero then y :: insert_by cmp x t else x :: l
  end.

Definition sort_by {A : Type} (cmp : A -> A -> num) (l : list A) : list A :=
  fold_right (insert_by cmp) [] l.

(** [arr.reduce((a, b) => a + b, 0)]. *)
Definition sum (l : list num) : num := fold_left add l zero.

Definition length_num {A : Type} (l : list A) : num := of_nat (List.length l).

End JS.

Import JS.

(* ================================================================== *)
(** ** Math.random and the code that draws from it *)
(* ================================================================== *)

(** [Math.random()] is an oracle: the [k]-th call of a run returns [rng k],
    a number in [[0, 1)].  A computation that draws random numbers reads the
    oracle and threads the count of calls made so far. *)
Definition Rand (A : Type) : Type := (nat -> Q) -> nat -> A * nat.

Definition ret {A : Type} (a : A) : Rand A := fun _ k => (a, k).

Definition bind {A B : Type} (m : Rand A) (f : A -> Rand B) : Rand B :=
  fun rng k => let (a, k') := m rng k in f a rng k'.

Notation "x <- m ;; f" := (bind m (fun x => f))
  (at level 61, m at next level, right associativity).

Definition random : Rand num := fun rng k => (Num (rng k), S k).

(** The contract of [Math.random]. *)
Definition unit_stream (rng : nat -> Q) : Prop :=
  forall k, 0 <= rng k /\ rng k < 1.

(** [Array.from({ length: n }, f)]: [n] calls of [f], in order. *)
Fixpoint array_from {A : Type} (n : nat) (f : Rand A) : Rand (list A) :=
  match n with
  | O => ret []
  | S m => x <- f ;; xs <- array_from m f ;; ret (x :: xs)
  end.

(* ================================================================== *)
(** ** StatisticalUtils.ts *)
(* ================================================================== *)

Module StatisticalUtils.

Definition outlierMultiplier : num := Num (3 # 2).
Definition bootstrapSamples : nat := 100 * 100.
Definition confidence : num := Num (95 # 100).

Record BootstrapOptions : Type := mkBootstrapOptions {
  opt_resamples : option nat;
  opt_confidence : option num
}.

Definition defaultOptions : BootstrapOptions := mkBootstrapOptions None None.

(** [average]: sum over length (NaN on the empty array, 0/0). *)
Definition average (values : list num) : num :=
  div (sum values) (length_num values).

(** [standardDeviation], with Bessel's correction. *)
Definition standardDeviation (samples : list num) : num :=
  if (List.length samples <=? 1)%nat then zero
  else
    let mean := average samples in
    let variance :=
      div (fold_left (fun s x => add s (mul (sub x mean) (sub x mean)))
                     samples zero)
          (sub (length_num samples) one) in
    sqrt variance.

(** [percentile]: sort a copy, then read the nearest rank. *)
Definition percentile (values : list num) (p : num) : value :=
  let sorted := sort_by sub values in
  let idx := sub (ceil (mul (length_num sorted) p)) one in
  index sorted (max2 zero idx).

Definition coefficientOfVariation (samples : list num) : num :=
  let mean := average samples in
  if eqb mean zero then zero
  else
    let stdDev := standardDeviation samples in
    div stdDev mean.

Definition medianAbsoluteDeviation (samples : list num) : value :=
  let median := percentile samples (Num (1 # 2)) in
  let deviations := map (fun x => abs (sub x (toNumber median))) samples in
  percentile deviations (Num (1 # 2)).

Record Outliers : Type := mkOutliers {
  rate : num;
  indices : list nat
}.

(** [samples.map((v, i) => cond(v) ? i : -1).filter(i => i >= 0)]: the
    positions, from [i] on, of the elements that satisfy [cond]. *)
Fixpoint positions (cond : num -> bool) (i : nat) (l : list num) : list nat :=
  match l with
  | [] => []
  | v :: t =>
      if cond v then i :: positions cond (S i) t else positions cond (S i) t
  end.

Definition findOutliers (samples : list num) : Outliers :=
  let q1 := toNumber (percentile samples (Num (1 # 4))) in
  let q3 := toNumber (percentile samples (Num (3 # 4))) in
  let iqr := sub q3 q1 in
  let lowerBound := sub q1 (mul outlierMultiplier iqr) in
  let upperBound := add q3 (mul outlierMultiplier iqr) in
  let indices :=
    positions (fun v => ltb v lowerBound || gtb v upperBound) 0 samples in
  mkOutliers (div (length_num indices) (length_num samples)) indices.

(** [createResample]: [n] draws with replacement.  For a draw in [[0, 1)] the
    read [samples[floor(r * n)]] is within the array; the NaN of the
    fallback stands for the [undefined] of a read that cannot happen. *)
Definition createResample (samples : list num) : Rand (list num) :=
  let n := length_num samples in
  let rand := r <- random ;; ret (toNumber (index samples (floor (mul r n)))) in
  array_from (List.length samples) rand.

Definition computeInterval (medians : list num) (conf : num)
  : value * value :=
  let alpha := div (sub one conf) (Num 2) in
  let lower := percentile medians alpha in
  let upper := percentile medians (sub one alpha) in
  (lower, upper).

Inductive CIDirection : Type := faster | slower | uncertain.

Record HistogramBin : Type := mkBin {
  bin_x : value;
  bin_count : nat
}.

Record DifferenceCI : Type := mkDifferenceCI {
  percent : num;
  ci : value * value;
  direction : CIDirection;
  histogram : list HistogramBin
}.

(** [===] on possibly undefined numbers. *)
Definition value_eqb (a b : value) : bool :=
  match a, b with
  | Some x, Some y => eqb x y
  | None, None => true
  | _, _ => false
  end.

(** [counts[bin]++]: a bin that is not an index of the array sets a property
    that the histogram never reads. *)
Fixpoint bump (counts : list nat) (i : nat) : list nat :=
  match counts, i with
  | [], _ => []
  | c :: t, O => S c :: t
  | c :: t, S j => c :: bump t j
  end.

Definition bump_at (counts : list nat) (bin : num) : list nat :=
  match bin with
  | Num q =>
      if Qeq_bool q (inject_Z (Qfloor q)) && (0 <=? Qfloor q)%Z
      then bump counts (Z.to_nat (Qfloor q))
      else counts
  | _ => counts
  end.

Fixpoint bins_from (lo step : num) (i : nat) (counts : list nat)
  : list HistogramBin :=
  match counts with
  | [] => []
  | c :: t =>
      mkBin (Some (add lo (mul (add (of_nat i) (Num (1 # 2))) step))) c
      :: bins_from lo step (S i) t
  end.

Definition binValues (values : list num) (binCount : nat)
  : list HistogramBin :=
  let sorted := sort_by sub values in
  let min := nth_error sorted 0 in
  let max := nth_error sorted (List.length sorted - 1) in
  if value_eqb min max then [mkBin min (List.length values)]
  else
    let lo := toNumber min in
    let step := div (sub (toNumber max) lo) (of_nat binCount) in
    let counts :=
      fold_left
        (fun counts v =>
           bump_at counts
             (min2 (floor (div (sub v lo) step))
                   (sub (of_nat binCount) one)))
        values (repeat 0%nat binCount) in
    bins_from lo step 0 counts.

(** The body of the resampling loop of [bootstrapDifferenceCI], run
    [resamples] times: each round pushes one percentage onto [diffs]. *)
Fixpoint resample_diffs (baseline current : list num) (resamples : nat)
    (diffs : list num) : Rand (list num) :=
  match resamples with
  | O => ret diffs
  | S m =>
      resB <- createResample baseline ;;
      resC <- createResample current ;;
      let medB := toNumber (percentile resB (Num (1 # 2))) in
      let medC := toNumber (percentile resC (Num (1 # 2))) in
      resample_diffs baseline current m
        (diffs ++ [mul (div (sub medC medB) medB) (Num 100)])
  end.

Definition bootstrapDifferenceCI (baseline current : list num)
    (options : BootstrapOptions) : Rand DifferenceCI :=
  let resamples :=
    match opt_resamples options with Some r => r | None => bootstrapSamples end in
  let conf :=
    match opt_confidence options with Some c => c | None => confidence end in
  let baselineMedian := toNumber (percentile baseline (Num (1 # 2))) in
  let currentMedian := toNumber (percentile current (Num (1 # 2))) in
  let observedPercent :=
    mul (div (sub currentMedian baselineMedian) baselineMedian) (Num 100) in
  diffs <- resample_diffs baseline current resamples [] ;;
  let ci := computeInterval diffs conf in
  let excludesZero :=
    gtb (toNumber (fst ci)) zero || ltb (toNumber (snd ci)) zero in
  let direction :=
    if excludesZero
    then (if ltb observedPercent zero then faster else slower)
    else uncertain in
  let histogram := binValues diffs 30 in
  ret (mkDifferenceCI observedPercent ci direction histogram).

(** *** The bootstrap of the median *)

Record BootstrapResult : Type := mkBootstrapResult {
  estimate : value;
  b_ci : value * value;
  b_samples : list value
}.

(** [generateMedians]: the median of each of [resamples] resamples.  The
    median of an empty resample is [undefined]. *)
Definition generateMedians (samples : list num) (resamples : nat)
  : Rand (list value) :=
  array_from resamples
    (resample <- createResample samples ;;
     ret (percentile resample (Num (1 # 2)))).

(** [sort] on an array that may hold [undefined]: the numbers are sorted
    with the comparator, and the undefined elements follow them. *)
Definition defined (l : list value) : list num :=
  flat_map (fun v => match v with Some x => [x] | None => [] end) l.

Definition sort_values (l : list value) : list value :=
  map Some (sort_by sub (defined l))
  ++ repeat undefined (List.length l - List.length (defined l)).

(** [percentile] and [computeInterval] on the medians, which are undefined
    when the samples are empty. *)
Definition percentile_values (values : list value) (p : num) : value :=
  let sorted := sort_values values in
  let idx := sub (ceil (mul (length_num sorted) p)) one in
  match index sorted (max2 zero idx) with
  | Some v => v
  | None => undefined
  end.

Definition computeInterval_values (medians : list value) (conf : num)
  : value * value :=
  let alpha := div (sub one conf) (Num 2) in
  let lower := percentile_values medians alpha in
  let upper := percentile_values medians (sub one alpha) in
  (lower, upper).

Definition bootstrapMedian (samples : list num) (options : BootstrapOptions)
  : Rand BootstrapResult :=
  let resamples :=
    match opt_resamples options with Some r => r | None => bootstrapSamples end in
  let conf :=
    match opt_confidence options with Some c => c | None => confidence end in
  medians <- generateMedians samples resamples ;;
  let ci := computeInterval_values medians conf in
  ret (mkBootstrapResult (percentile samples (Num (1 # 2))) ci medians).

End StatisticalUtils.

(* ================================================================== *)
(** ** PermutationTest.ts *)
(* ================================================================== *)

Module PermutationTest.

Import StatisticalUtils.

Definition significanceThreshold : num := Num (5 # 100).
Definition strongSignificance : num := Num (1 # 1000).
Definition goodSignificance : num := Num (1 # 100).
Definition defaultBootstrapSamples : nat := 100 * 100.

Inductive Significance : Type := strong | good | weak | none.

Record ChangeStats : Type := mkChangeStats {
  absolute : num;
  percent : num;
  pValue : num;
  significant : bool;
  significance : Significance
}.

Record ComparisonResult : Type := mkComparisonResult {
  baselineMedian : value;
  currentMedian : value;
  baselineMean : num;
  currentMean : num;
  medianChange : ChangeStats;
  meanChange : ChangeStats
}.

Definition getSignificance (pValue : num) : Significance :=
  if ltb pValue strongSignificance then strong
  else if ltb pValue goodSignificance then good
  else if ltb pValue significanceThreshold then weak
  else none.

Definition changeStats (current base pValue : num) : ChangeStats :=
  mkChangeStats
    (sub current base)
    (mul (div (sub current base) base) (Num 100))
    pValue
    (ltb pValue significanceThreshold)
    (getSignificance pValue).

(** [a[i] = x] on an index of the array. *)
Fixpoint assign {A : Type} (a : list A) (i : nat) (x : A) : list A :=
  match a, i with
  | [], _ => []
  | _ :: t, O => x :: t
  | y :: t, S k => y :: assign t k x
  end.

(** The position that a number names, when it is a non-negative integer. *)
Definition position_of (j : num) : option nat :=
  match j with
  | Num q =>
      if Qeq_bool q (inject_Z (Qfloor q)) && (0 <=? Qfloor q)%Z
      then Some (Z.to_nat (Qfloor q))
      else None
  | _ => None
  end.

(** [[a[i], a[j]] = [a[j], a[i]]].  In the shuffle [i] is an index of the
    array and, for a draw in [[0, 1)], [j] is one of [0..i]; the array is
    left as it is in the cases that cannot happen. *)
Definition swap (a : list num) (i : nat) (j : num) : list num :=
  match position_of j with
  | Some k =>
      match nth_error a i, nth_error a k with
      | Some x, Some y => assign (assign a i y) k x
      | _, _ => a
      end
  | None => a
  end.

(** The loop of the Fisher-Yates shuffle, from position [i] down to 1. *)
Fixpoint shuffle_from (i : nat) (shuffled : list num) : Rand (list num) :=
  match i with
  | O => ret shuffled
  | S i' =>
      r <- random ;;
      let j := floor (mul r (of_nat (i + 1))) in
      shuffle_from i' (swap shuffled i j)
  end.

Record Split : Type := mkSplit {
  resample1 : list num;
  resample2 : list num
}.

Definition shuffleAndSplit (combined : list num) (n1 : nat) : Rand Split :=
  shuffled <- shuffle_from (List.length combined - 1) combined ;;
  ret (mkSplit (firstn n1 shuffled) (skipn n1 shuffled)).

(** The loop of [bootstrapDifferenceTest]: [rounds] shuffles, counting the
    differences at least as extreme as the observed one. *)
Fixpoint count_more_extreme (rounds : nat) (combined : list num) (n1 : nat)
    (statistic : list num -> num) (observedDiff : num) (moreExtreme : nat)
  : Rand nat :=
  match rounds with
  | O => ret moreExtreme
  | S m =>
      s <- shuffleAndSplit combined n1 ;;
      let diff := sub (statistic (resample2 s)) (statistic (resample1 s)) in
      count_more_extreme m combined n1 statistic observedDiff
        (if geb (abs diff) (abs observedDiff)
         then S moreExtreme else moreExtreme)
  end.

Definition bootstrapDifferenceTest (sample1 sample2 : list num)
    (statistic : list num -> num) : Rand num :=
  let observedDiff := sub (statistic sample2) (statistic sample1) in
  let combined := sample1 ++ sample2 in
  let n1 := List.length sample1 in
  moreExtreme <-
    count_more_extreme defaultBootstrapSamples combined n1 statistic
      observedDiff 0 ;;
  ret (div (of_nat moreExtreme) (of_nat defaultBootstrapSamples)).

Definition compareWithBaseline (baseline current : list num)
  : Rand ComparisonResult :=
  let baselineMedian := percentile baseline (Num (1 # 2)) in
  let currentMedian := percentile current (Num (1 # 2)) in
  let baselineMean := average baseline in
  let currentMean := average current in
  let median := fun s => toNumber (percentile s (Num (1 # 2))) in
  medianPValue <- bootstrapDifferenceTest baseline current median ;;
  meanPValue <- bootstrapDifferenceTest baseline current average ;;
  ret (mkComparisonResult baselineMedian currentMedian
         baselineMean currentMean
         (changeStats (toNumber currentMedian) (toNumber baselineMedian)
            medianPValue)
         (changeStats currentMean baselineMean meanPValue)).

End PermutationTest.

(* ================================================================== *)
(** ** The collector's statistics (BasicRunner) *)
(* ================================================================== *)

Module BasicRunnerStats.

Record SampleTimeStats : Type := mkSampleTimeStats {
  min : value;
  max : value;
  avg : num;
  p50 : value;
  p75 : value;
  p99 : value;
  p999 : value
}.

(** The collector's own [percentile], on an array that is already sorted:
    linear interpolation between the two closest ranks. *)
Definition percentile (sortedArray : list num) (p : num) : value :=
  let idx := mul (sub (length_num sortedArray) one) p in
  let lower := floor idx in
  let upper := ceil idx in
  let weight := rem1 idx in
  if geb upper (length_num sortedArray)
  then index sortedArray (sub (length_num sortedArray) one)
  else
    Some (add (mul (toNumber (index sortedArray lower)) (sub one weight))
              (mul (toNumber (index sortedArray upper)) weight)).

Definition computeStats (samples : list num) : SampleTimeStats :=
  let sorted := sort_by sub samples in
  let avg := div (fold_left add samples zero) (length_num samples) in
  mkSampleTimeStats
    (index sorted zero)
    (index sorted (sub (length_num sorted) one))
    avg
    (percentile sorted (Num (1 # 2)))
    (percentile sorted (Num (3 # 4)))
    (percentile sorted (Num (99 # 100)))
    (percentile sorted (Num (999 # 1000))).

End BasicRunnerStats.

(* ================================================================== *)
(** ** Text helpers *)
(* ================================================================== *)

Module Text.

Definition digit_char (d : nat) : ascii :=
  ascii_of_nat (48 + d).

(** Decimal digits of a natural number, as template literals print an
    integer.  [fuel] bounds the number of digits. *)
Fixpoint digits_of (fuel n : nat) (acc : string) : string :=
  match fuel with
  | O => acc
  | S f =>
      let acc' := String (digit_char (n mod 10)) acc in
      if (n / 10 =? 0)%nat then acc' else digits_of f (n / 10) acc'
  end.

Definition string_of_nat (n : nat) : string := digits_of (S n) n EmptyString.

(** [x.toFixed(1)] for a number below 1e21: one decimal, the nearest (the
    larger on a tie), computed on the absolute value. *)
Definition toFixed1 (x : num) : string :=
  match x with
  | NaN => "NaN"
  | PosInf => "Infinity"
  | NegInf => "-Infinity"
  | Num q =>
      let n := Z.to_nat (Qfloor (Qabs q * 10 + (1 # 2))) in
      ((if Qltb q 0 then "-" else "")
         ++ string_of_nat (n / 10) ++ "." ++ string_of_nat (n mod 10))%string
  end.

Fixpoint prefix_of (p s : string) : bool :=
  match p, s with
  | EmptyString, _ => true
  | String a p', String b s' => Ascii.eqb a b && prefix_of p' s'
  | _, _ => false
  end.

(** [s.includes(p)]. *)
Fixpoint includes (s p : string) : bool :=
  prefix_of p s
  || match s with
     | EmptyString => false
     | String _ s' => includes s' p
     end.


(** [s.split(sep)] for a separator of one character: the pieces between
    the separators; there is always one. *)
Fixpoint split (sep : ascii) (s : string) : list string :=
  match s with
  | EmptyString => [EmptyString]
  | String c t =>
      if Ascii.eqb c sep then EmptyString :: split sep t
      else
        match split sep t with
        | h :: r => String c h :: r
        | [] => [String c EmptyString]
        end
  end.

(** [s.toLowerCase()] on characters with codes below 256: the ASCII capitals
    and the capitals of Latin-1 (192 to 222, but for the multiplication sign
    215) are 32 below their small letters. *)
Definition lower_char (c : ascii) : ascii :=
  let n := nat_of_ascii c in
  if ((65 <=? n) && (n <=? 90))%nat
     || ((192 <=? n) && (n <=? 222) && negb (n =? 215))%nat
  then ascii_of_nat (n + 32)
  else c.

Fixpoint toLowerCase (s : string) : string :=
  match s with
  | EmptyString => EmptyString
  | String c t => String (lower_char c) (toLowerCase t)
  end.

End Text.

(* ================================================================== *)
(** ** AdaptiveWrapper.ts: statistics and convergence *)
(* ================================================================== *)

Module AdaptiveStats.

Import StatisticalUtils.

(** Modelled from the spec: [msToNs] of [RunnerUtils.ts], which is not among
    the sources.  Samples are in milliseconds and the convergence check
    takes them in nanoseconds, so the factor is 1e6. *)
Definition msToNs : num := Num 1000000.

Definition windowSize : nat := 50.
Definition stability : num := Num (5 # 100).

Record Metrics : Type := mkMetrics {
  medianDrift : num;
  impactDrift : num;
  medianStable : bool;
  impactStable : bool
}.

Record ConvergenceResult : Type := mkConvergence {
  converged : bool;
  confidence : num;
  reason : string
}.

Record TimeStats : Type := mkTimeStats {
  t_min : num;
  t_max : num;
  t_avg : num;
  t_p25 : num;
  t_p50 : num;
  t_p75 : num;
  t_p95 : num;
  t_p99 : num;
  t_p999 : num;
  t_cv : num;
  t_mad : value;
  t_outlierRate : num
}.

(** [arr.slice(-n)]: the last [n] elements. *)
Definition lastn {A : Type} (n : nat) (l : list A) : list A :=
  skipn (List.length l - n) l.

(** [arr.slice(-2 * n, -n)]: the [n] elements before the last [n]. *)
Definition before_lastn {A : Type} (n : nat) (l : list A) : list A :=
  firstn (List.length l - n - (List.length l - 2 * n))
         (skipn (List.length l - 2 * n) l).

Definition getMinMaxSum (samples : list num) : num * num * num :=
  (fold_left min2 samples PosInf,
   fold_left max2 samples NegInf,
   fold_left add samples zero).

Definition getPercentiles (samples : list num)
  : num * num * num * num * num * num :=
  (div (toNumber (percentile samples (Num (1 # 4)))) msToNs,
   div (toNumber (percentile samples (Num (1 # 2)))) msToNs,
   div (toNumber (percentile samples (Num (3 # 4)))) msToNs,
   div (toNumber (percentile samples (Num (95 # 100)))) msToNs,
   div (toNumber (percentile samples (Num (99 # 100)))) msToNs,
   div (toNumber (percentile samples (Num (999 # 1000)))) msToNs).

(** [getOutlierImpact]: the share of the total time spent above the fence,
    and the number of samples above it. *)
Definition getOutlierImpact (samples : list num) : num * nat :=
  match samples with
  | [] => (zero, 0%nat)
  | _ =>
      let median := toNumber (percentile samples (Num (1 # 2))) in
      let q75 := toNumber (percentile samples (Num (3 # 4))) in
      let threshold := add median (mul (Num (3 # 2)) (sub q75 median)) in
      let '(excessTime, count) :=
        fold_left
          (fun acc sample =>
             if gtb sample threshold
             then (add (fst acc) (sub sample median), S (snd acc))
             else acc)
          samples (zero, 0%nat) in
      let totalTime := fold_left add samples zero in
      (if gtb totalTime zero then div excessTime totalTime else zero, count)
  end.

Definition getRobustMetrics (samplesMs : list num) : num * value * num :=
  let impact := getOutlierImpact samplesMs in
  (coefficientOfVariation samplesMs,
   medianAbsoluteDeviation samplesMs,
   fst impact).

Definition computeTimeStats (samplesNs : list num) : TimeStats :=
  let samplesMs := map (fun s => div s msToNs) samplesNs in
  let '(min, max, sum) := getMinMaxSum samplesNs in
  let '(p25, p50, p75, p95, p99, p999) := getPercentiles samplesNs in
  let '(cv, mad, outlierRate) := getRobustMetrics samplesMs in
  mkTimeStats
    (div min msToNs)
    (div max msToNs)
    (div (div sum (length_num samplesNs)) msToNs)
    p25 p50 p75 p95 p99 p999
    cv mad outlierRate.

Definition getWindowSize (samples : list num) : nat :=
  if (List.length samples <? 20)%nat then windowSize
  else
    let recentMs := map (fun s => div s msToNs) (lastn 20 samples) in
    let recentMedian := toNumber (percentile recentMs (Num (1 # 2))) in
    if ltb recentMedian (Num (1 # 100)) then 200%nat
    else if ltb recentMedian (Num (1 # 10)) then 100%nat
    else if ltb recentMedian (Num 1) then 50%nat
    else if ltb recentMedian (Num 10) then 30%nat
    else 20%nat.

Definition buildProgressResult (currentSamples minSamples : nat)
  : ConvergenceResult :=
  mkConvergence false
    (mul (div (of_nat currentSamples) (of_nat minSamples)) (Num 100))
    ("Collecting samples: " ++ Text.string_of_nat currentSamples
       ++ "/" ++ Text.string_of_nat minSamples)%string.

Definition getStability (samples : list num) (windowSize : nat) : Metrics :=
  let recent := lastn windowSize samples in
  let previous := before_lastn windowSize samples in
  let recentMs := map (fun s => div s msToNs) recent in
  let previousMs := map (fun s => div s msToNs) previous in
  let medianRecent := toNumber (percentile recentMs (Num (1 # 2))) in
  let medianPrevious := toNumber (percentile previousMs (Num (1 # 2))) in
  let medianDrift :=
    div (abs (sub medianRecent medianPrevious)) medianPrevious in
  let impactRecent := getOutlierImpact recentMs in
  let impactPrevious := getOutlierImpact previousMs in
  let impactDrift := abs (sub (fst impactRecent) (fst impactPrevious)) in
  mkMetrics medianDrift impactDrift
    (ltb medianDrift stability) (ltb impactDrift stability).

Definition buildConvergence (metrics : Metrics) : ConvergenceResult :=
  if medianStable metrics && impactStable metrics
  then mkConvergence true (Num 100) "Stable performance pattern"
  else
    let confidence :=
      min2 (Num 100)
        (add (mul (sub one (div (medianDrift metrics) stability)) (Num 50))
             (mul (sub one (div (impactDrift metrics) stability)) (Num 50))) in
    let reason :=
      if gtb (medianDrift metrics) (impactDrift metrics)
      then ("Median drifting: "
              ++ Text.toFixed1 (mul (medianDrift metrics) (Num 100)) ++ "%")%string
      else ("Outlier impact changing: "
              ++ Text.toFixed1 (mul (impactDrift metrics) (Num 100)) ++ "%")%string in
    mkConvergence false (max2 zero confidence) reason.

Definition checkConvergence (samples : list num) : ConvergenceResult :=
  let windowSize := getWindowSize samples in
  let minSamples := (windowSize * 2)%nat in
  if (List.length samples <? minSamples)%nat
  then buildProgressResult (List.length samples) minSamples
  else buildConvergence (getStability samples windowSize).

Definition fallbackThreshold : num := Num 80.

Definition shouldStop (convergence : ConvergenceResult)
    (targetConfidence elapsedTime minTime : num) : bool :=
  if converged convergence && geb (confidence convergence) targetConfidence
  then true
  else
    let threshold := max2 targetConfidence fallbackThreshold in
    geb elapsedTime minTime && geb (confidence convergence) threshold.

End AdaptiveStats.

(* ================================================================== *)
(** ** GcStats.ts *)
(* ================================================================== *)

(** A line is a string of characters with codes below 256. *)
Module GcStats.

Local Open Scope string_scope.

Inductive GcType : Type := scavenge | mark_compact | minor_ms | unknown.

(** A GC event; [allocated], [promoted] and [survived] are optional (the
    browser does not provide them). *)
Record GcEvent : Type := mkGcEvent {
  type : GcType;
  pauseMs : num;
  allocated : option num;
  collected : num;
  promoted : option num;
  survived : option num
}.

Record GcStats : Type := mkGcStats {
  scavenges : nat;
  markCompacts : nat;
  totalCollected : num;
  gcPauseTime : num;
  totalAllocated : option num;
  totalPromoted : option num;
  totalSurvived : option num
}.

(** *** Character classes of the regular expression *)

Definition in_range (lo hi : nat) (c : ascii) : bool :=
  (lo <=? nat_of_ascii c)%nat && (nat_of_ascii c <=? hi)%nat.

Definition is_digit (c : ascii) : bool := in_range 48 57 c.

(** [\w]: ASCII letters, digits and underscore. *)
Definition is_word (c : ascii) : bool :=
  in_range 97 122 c || in_range 65 90 c || is_digit c
  || (nat_of_ascii c =? 95)%nat.

(** [\s], among the characters below 256: tab, line feed, vertical tab, form
    feed, carriage return, space and no-break space. *)
Definition is_space (c : ascii) : bool :=
  in_range 9 13 c || (nat_of_ascii c =? 32)%nat || (nat_of_ascii c =? 160)%nat.

(** [[^\s,]]. *)
Definition is_value_char (c : ascii) : bool :=
  negb (is_space c) && negb (nat_of_ascii c =? 44)%nat.

(** The longest prefix of [s] made of characters in [f], and the rest: a
    greedy [f+] (or [f*]). *)
Fixpoint span (f : ascii -> bool) (s : string) : string * string :=
  match s with
  | EmptyString => (EmptyString, EmptyString)
  | String c t =>
      if f c then let (p, r) := span f t in (String c p, r)
      else (EmptyString, s)
  end.

(** A match of [(\w+)=([^\s,]+)] that starts at the head of [s]: key, value
    and the text after the match.  Both groups are greedy; a shorter key can
    never be followed by [=], so there is nothing to backtrack to. *)
Definition match_here (s : string) : option (string * string * string) :=
  let (key, r1) := span is_word s in
  match key, r1 with
  | String _ _, String "="%char r2 =>
      let (val, r3) := span is_value_char r2 in
      match val with
      | String _ _ => Some (key, val, r3)
      | EmptyString => None
      end
  | _, _ => None
  end.

(** [line.matchAll(/(\w+)=([^\s,]+)/g)]: the leftmost match, then the
    matches of the text after it.  Each step consumes a character, so a fuel
    of the length of the line is enough. *)
Fixpoint matchAll_fuel (fuel : nat) (s : string) : list (string * string) :=
  match fuel with
  | O => []
  | S f =>
      match match_here s with
      | Some (key, val, rest) => (key, val) :: matchAll_fuel f rest
      | None =>
          match s with
          | EmptyString => []
          | String _ t => matchAll_fuel f t
          end
      end
  end.

Definition matchAll (s : string) : list (string * string) :=
  matchAll_fuel (S (String.length s)) s.

(** The object [fields]: the assignments [fields[key] = value] in order,
    the last one at the head. *)
Definition Fields : Type := list (string * string).

Fixpoint lookup (fields : Fields) (k : string) : option string :=
  match fields with
  | [] => None
  | (k', v) :: t => if String.eqb k' k then Some v else lookup t k
  end.

Definition parseNvpFields (line : string) : Fields :=
  fold_left (fun fields kv => kv :: fields) (matchAll line) [].

(** [fields[k] || dflt]: a missing or empty field gives the default. *)
Definition field_or (fields : Fields) (k dflt : string) : string :=
  match lookup fields k with
  | Some (String c t) => String c t
  | _ => dflt
  end.

(** *** Number.parseInt(s, 10) and Number.parseFloat(s) *)

(** Both are kept exact: the model holds the decimal that was read, where
    the code holds its rounding to binary64, an infinity when the decimal is
    beyond binary64's range. *)

Definition digit_value (c : ascii) : Z := Z.of_nat (nat_of_ascii c - 48).

Fixpoint decimal (s : string) (acc : Z) : Z :=
  match s with
  | EmptyString => acc
  | String c t => decimal t (10 * acc + digit_value c)
  end.

(** An optional sign: 1 or -1, and the rest. *)
Definition read_sign (s : string) : Z * string :=
  match s with
  | String "-"%char t => ((-1)%Z, t)
  | String "+"%char t => (1%Z, t)
  | _ => (1%Z, s)
  end.

Definition parseInt10 (s : string) : num :=
  let (_, s1) := span is_space s in
  let (sign, s2) := read_sign s1 in
  let (ds, _) := span is_digit s2 in
  match ds with
  | EmptyString => NaN
  | _ => of_Z (sign * decimal ds 0)
  end.

(** The exponent part [e] or [E], optional sign, digits: its value and
    nothing else, or 0 when the part is absent or incomplete. *)
Definition read_exponent (s : string) : Z :=
  match s with
  | String c t =>
      if Ascii.eqb c "e" || Ascii.eqb c "E"
      then
        let (sign, t1) := read_sign t in
        let (ds, _) := span is_digit t1 in
        match ds with
        | EmptyString => 0%Z
        | _ => (sign * decimal ds 0)%Z
        end
      else 0%Z
  | EmptyString => 0%Z
  end.

Definition pow10 (e : Z) : Q :=
  match e with
  | Zneg p => 1 # (10 ^ p)
  | _ => inject_Z (10 ^ e)
  end.

(** [parseFloat]: the longest prefix that is a decimal literal, after
    leading white space; NaN when there is none. *)
Definition parseFloat (s : string) : num :=
  let (_, s1) := span is_space s in
  let (sign, s2) := read_sign s1 in
  if Text.prefix_of "Infinity" s2
  then (if (sign <? 0)%Z then NegInf else PosInf)
  else
    let (ints, s3) := span is_digit s2 in
    let '(fracs, s4, has_dot) :=
      match s3 with
      | String "."%char t => let (f, r) := span is_digit t in (f, r, true)
      | _ => (EmptyString, s3, false)
      end in
    match ints, fracs with
    | EmptyString, EmptyString => NaN
    | _, _ =>
        let mantissa :=
          inject_Z (decimal ints 0)
          + inject_Z (decimal fracs 0) * pow10 (- Z.of_nat (String.length fracs)) in
        Num (Qred (inject_Z sign * mantissa * pow10 (read_exponent s4)))
    end.

(** *** The parser *)

Definition parseGcType (gcField : string) : GcType :=
  if String.eqb gcField "s" || String.eqb gcField "scavenge" then scavenge
  else if String.eqb gcField "mc" || String.eqb gcField "ms"
          || String.eqb gcField "mark-compact" then mark_compact
  else if String.eqb gcField "mmc" || String.eqb gcField "minor-mc"
          || String.eqb gcField "minor-ms" then minor_ms
  else unknown.

Definition parseGcLine (line : string) : option GcEvent :=
  if negb (Text.includes line "pause=") then None
  else
    let fields := parseNvpFields line in
    match lookup fields "gc" with
    | None | Some EmptyString => None
    | Some gc =>
        let int := fun k => parseInt10 (field_or fields k "0") in
        let type := parseGcType gc in
        let pauseMs := parseFloat (field_or fields "pause" "0") in
        let allocated := int "allocated" in
        let promoted := int "promoted" in
        let survived :=
          if truthy (int "new_space_survived")
          then int "new_space_survived" else int "survived" in
        let startSize := int "start_object_size" in
        let endSize := int "end_object_size" in
        let collected :=
          if gtb startSize endSize then sub startSize endSize else zero in
        if isNaN pauseMs then None
        else Some (mkGcEvent type pauseMs (Some allocated) collected
                             (Some promoted) (Some survived))
    end.

(** *** The aggregation *)

(** The variables of the loop of [aggregateGcStats]. *)
Record Acc : Type := mkAcc {
  a_scavenges : nat;
  a_markCompacts : nat;
  a_gcPauseTime : num;
  a_totalCollected : num;
  a_hasNodeFields : bool;
  a_totalAllocated : num;
  a_totalPromoted : num;
  a_totalSurvived : num
}.

Definition or_zero (v : option num) : num :=
  match v with Some x => x | None => zero end.

(** One round of the loop. *)
Definition step (a : Acc) (e : GcEvent) : Acc :=
  let scav :=
    match type e with
    | scavenge | minor_ms => S (a_scavenges a)
    | _ => a_scavenges a
    end in
  let mc :=
    match type e with
    | mark_compact => S (a_markCompacts a)
    | _ => a_markCompacts a
    end in
  let pause := add (a_gcPauseTime a) (pauseMs e) in
  let coll := add (a_totalCollected a) (collected e) in
  match allocated e with
  | Some al =>
      mkAcc scav mc pause coll true
            (add (a_totalAllocated a) al)
            (add (a_totalPromoted a) (or_zero (promoted e)))
            (add (a_totalSurvived a) (or_zero (survived e)))
  | None =>
      mkAcc scav mc pause coll (a_hasNodeFields a)
            (a_totalAllocated a) (a_totalPromoted a) (a_totalSurvived a)
  end.

Definition initial : Acc :=
  mkAcc 0 0 zero zero false zero zero zero.

Definition aggregateGcStats (events : list GcEvent) : GcStats :=
  let a := fold_left step events initial in
  mkGcStats (a_scavenges a) (a_markCompacts a)
            (a_totalCollected a) (a_gcPauseTime a)
            (if a_hasNodeFields a then Some (a_totalAllocated a) else None)
            (if a_hasNodeFields a then Some (a_totalPromoted a) else None)
            (if a_hasNodeFields a then Some (a_totalSurvived a) else None).

Definition emptyGcStats : GcStats :=
  mkGcStats 0 0 zero zero None None None.

End GcStats.

(* ================================================================== *)
(** ** RunnerOrchestrator.ts: the capture of the GC trace *)
(* ================================================================== *)

(** The worker's standard output arrives in chunks; a chunk is the text that
    [data.toString()] gives.  The handler that [setupGcCapture] installs
    keeps the unfinished last line in [buffer], parses every finished line
    and forwards to the console the lines that are neither GC events nor
    blank. *)
Module RunnerOrchestrator.

Local Open Scope string_scope.






End RunnerOrchestrator.

(* ================================================================== *)
(** ** Effects: clock and other readings, thrown errors, observable work *)
(* ================================================================== *)

(** The effectful code is written in a monad over a [World].  What the
    program reads from outside (the clock, the heap size, what a runner or a
    loader returns) comes from oracles: the [k]-th reading of a run is the
    oracle's value at [k], and the world counts the readings.  What the
    program does to the outside (running a benchmark, sleeping, spawning a
    worker) is appended to the world's trace.  A computation returns, throws
    (a JavaScript [Error] with its message), or runs out of the fuel that
    bounds its loops. *)
Module Effects.

Section WithEvents.

Variable Event : Type.

Record World : Type := mkWorld {
  reads : nat;
  trace : list Event
}.

Inductive Outcome (A : Type) : Type :=
| Returned (a : A)
| Thrown (message : string)
| OutOfFuel.

Definition IO (A : Type) : Type := World -> Outcome A * World.

Definition pure {A : Type} (a : A) : IO A := fun w => (Returned a, w).

Definition throw {A : Type} (message : string) : IO A :=
  fun w => (Thrown A message, w).

Definition out_of_fuel {A : Type} : IO A := fun w => (OutOfFuel A, w).

Definition andThen {A B : Type} (m : IO A) (f : A -> IO B) : IO B :=
  fun w =>
    match m w with
    | (Returned a, w') => f a w'
    | (Thrown _ msg, w') => (Thrown B msg, w')
    | (OutOfFuel _, w') => (OutOfFuel B, w')
    end.

Definition emit (e : Event) : IO unit :=
  fun w => (Returned tt, mkWorld (reads w) (trace w ++ [e])).

Definition read {X : Type} (oracle : nat -> X) : IO X :=
  fun w => (Returned (oracle (reads w)), mkWorld (S (reads w)) (trace w)).

End WithEvents.

Arguments Returned {A} a.
Arguments Thrown {A} message.
Arguments OutOfFuel {A}.
Arguments pure {Event A} a.
Arguments throw {Event A} message.
Arguments out_of_fuel {Event A}.
Arguments emit {Event} e.
Arguments read {Event X} oracle.

End Effects.

Import Effects.

Notation "x <~ m ;; f" := (andThen m (fun x => f))
  (at level 61, m at next level, right associativity).
Notation "m ;;; f" := (andThen m (fun _ => f))
  (at level 61, right associativity).

(** ToBoolean on a possibly undefined number, and on an optional string. *)
Definition truthy_value (v : value) : bool :=
  match v with Some x => truthy x | None => false end.

Definition truthy_string (s : option string) : bool :=
  match s with
  | Some (String _ _) => true
  | _ => false
  end.

(** The options that the runners read.  [maxTime] and [maxIterations] record
    whether the key is present: an object spread copies a key that is present
    with the value [undefined], and such a key overrides a default.  For the
    other options an explicit [undefined] is not told apart from an absent
    key. *)
Record RunnerOptions : Type := mkRunnerOptions {
  o_maxTime : option value;
  o_maxIterations : option value;
  o_minTime : option num;
  o_targetConfidence : option num;
  o_warmup : option nat;
  o_skipWarmup : option bool;
  o_noSettle : option bool;
  o_pauseFirst : option Z;
  o_pauseInterval : option Z;
  o_pauseDuration : option num
}.

Definition set_maxTime (v : value) (o : RunnerOptions) : RunnerOptions :=
  mkRunnerOptions (Some v) (o_maxIterations o) (o_minTime o)
    (o_targetConfidence o) (o_warmup o) (o_skipWarmup o) (o_noSettle o)
    (o_pauseFirst o) (o_pauseInterval o) (o_pauseDuration o).

Definition set_maxIterations (v : value) (o : RunnerOptions) : RunnerOptions :=
  mkRunnerOptions (o_maxTime o) (Some v) (o_minTime o)
    (o_targetConfidence o) (o_warmup o) (o_skipWarmup o) (o_noSettle o)
    (o_pauseFirst o) (o_pauseInterval o) (o_pauseDuration o).

Definition set_skipWarmup (b : bool) (o : RunnerOptions) : RunnerOptions :=
  mkRunnerOptions (o_maxTime o) (o_maxIterations o) (o_minTime o)
    (o_targetConfidence o) (o_warmup o) (Some b) (o_noSettle o)
    (o_pauseFirst o) (o_pauseInterval o) (o_pauseDuration o).

(* ================================================================== *)
(** ** The collector (BasicRunner): collectSamples *)
(* ================================================================== *)

(** The per-sample instrumentation (time stamps, heap sizes, optimization
    status) is not modelled: no statement reads it. *)
Module BasicRunner.

Inductive Event : Type :=
| Exec            (* one call of the benchmark function *)
| Gc              (* a call of the runtime's gc() *)
| Sleep (ms : num).

Definition gcSettleTime : num := Num 1000.

Record PausePoint : Type := mkPausePoint {
  sampleIndex : nat;
  durationMs : num
}.

Record CollectParams : Type := mkCollectParams {
  name : string;
  maxTime : value;
  maxIterations : value;
  warmup : nat;
  skipWarmup : bool;
  noSettle : bool;
  pauseFirst : option Z;
  pauseInterval : option Z;
  pauseDuration : option num
}.

Record CollectResult : Type := mkCollectResult {
  samples : list num;
  warmupSamples : list num;
  heapGrowth : num;
  pausePoints : list PausePoint
}.

Record MeasuredResults : Type := mkMeasuredResults {
  m_name : string;
  m_samples : list num;
  m_warmupSamples : list num;
  m_time : BasicRunnerStats.SampleTimeStats;
  m_heapSize : num * num * num;   (* avg, min, max *)
  m_pausePoints : list PausePoint
}.

Section Collector.

(** [performance.now()] and [process.memoryUsage().heapUsed]. *)
Variable clock : nat -> num.
Variable heapUsed : nat -> num.

Definition now : IO Event num := read clock.

(** One timed call of the benchmark. *)
Definition timed_call : IO Event num :=
  start <~ now ;;
  emit Exec ;;;
  finish <~ now ;;
  pure (sub finish start).

Fixpoint warmup_loop (n : nat) (acc : list num) : IO Event (list num) :=
  match n with
  | O => pure acc
  | S m => s <~ timed_call ;; warmup_loop m (acc ++ [s])
  end.

Definition runWarmup (p : CollectParams) : IO Event (list num) :=
  samples <~ warmup_loop (warmup p) [] ;;
  emit Gc ;;;
  (if noSettle p then pure tt
   else emit (Sleep gcSettleTime) ;;; emit Gc) ;;;
  pure samples.

Definition estimateSampleCount (maxTime maxIterations : value) : num :=
  if truthy_value maxIterations then toNumber maxIterations
  else ceil (div (toNumber maxTime) (Num (1 # 10))).

(** [new Array(n)] throws a RangeError unless [n] is an integer between 0
    and 2^32 - 1. *)
Definition valid_array_length (n : num) : bool :=
  match n with
  | Num q =>
      Qeq_bool q (inject_Z (Qfloor q))
      && (0 <=? Qfloor q)%Z && (Qfloor q <=? 4294967295)%Z
  | _ => false
  end.

Definition shouldPause (iter : Z) (first : option Z) (interval : Z) : bool :=
  match first with
  | Some f =>
      if (iter =? f)%Z then true
      else if (interval <=? 0)%Z then false
      else (Z.rem (iter - f) interval =? 0)%Z
  | None =>
      if (interval <=? 0)%Z then false
      else (Z.rem iter interval =? 0)%Z
  end.

(** The measurement loop; [fuel] bounds the number of rounds. *)
Fixpoint sample_loop (fuel : nat) (p : CollectParams) (loopStart : num)
    (count : nat) (elapsed totalPauseTime : num)
    (samples : list num) (pausePoints : list PausePoint)
  : IO Event (list num * list PausePoint) :=
  if (negb (truthy_value (maxIterations p))
      || ltb (of_nat count) (toNumber (maxIterations p)))
     && (negb (truthy_value (maxTime p))
         || ltb elapsed (toNumber (maxTime p)))
  then
    match fuel with
    | O => out_of_fuel
    | S f =>
        s <~ timed_call ;;
        let samples' := samples ++ [s] in
        let count' := S count in
        let pauseInterval :=
          match pauseInterval p with Some i => i | None => 0%Z end in
        let pauseDuration :=
          match pauseDuration p with Some d => d | None => Num 100 end in
        paused <~
          (if shouldPause (Z.of_nat count') (pauseFirst p) pauseInterval
           then
             pauseStart <~ now ;;
             emit (Sleep pauseDuration) ;;;
             pauseEnd <~ now ;;
             pure (pausePoints ++ [mkPausePoint (count' - 1) pauseDuration],
                   add totalPauseTime (sub pauseEnd pauseStart))
           else pure (pausePoints, totalPauseTime)) ;;
        t <~ now ;;
        sample_loop f p loopStart count'
          (sub (sub t loopStart) (snd paused)) (snd paused)
          samples' (fst paused)
    end
  else pure (samples, pausePoints).

Definition runSampleLoop (fuel : nat) (p : CollectParams)
  : IO Event (list num * list PausePoint) :=
  let estimated := estimateSampleCount (maxTime p) (maxIterations p) in
  if negb (valid_array_length estimated)
  then throw "Invalid array length"%string
  else
    loopStart <~ now ;;
    sample_loop fuel p loopStart 0 zero zero [] [].

Definition collectSamples (fuel : nat) (p : CollectParams)
  : IO Event CollectResult :=
  if negb (truthy_value (maxIterations p)) && negb (truthy_value (maxTime p))
  then throw "At least one of maxIterations or maxTime must be set"%string
  else
    warmupSamples <~ (if skipWarmup p then pure [] else runWarmup p) ;;
    heapBefore <~ read heapUsed ;;
    r <~ runSampleLoop fuel p ;;
    heapAfter <~ read heapUsed ;;
    let samples := fst r in
    let heapGrowth :=
      div (div (max2 zero (sub heapAfter heapBefore)) (Num 1024))
          (length_num samples) in
    match samples with
    | [] => throw ("No samples collected for benchmark: " ++ name p)%string
    | _ => pure (mkCollectResult samples warmupSamples heapGrowth (snd r))
    end.

Definition buildMeasuredResults (name : string) (c : CollectResult)
  : MeasuredResults :=
  mkMeasuredResults name (samples c) (warmupSamples c)
    (BasicRunnerStats.computeStats (samples c))
    (heapGrowth c, heapGrowth c, heapGrowth c)
    (pausePoints c).

(** [{ ...defaultCollectOptions, ...options }]. *)
Definition mergeDefaults (name : string) (options : RunnerOptions)
  : CollectParams :=
  mkCollectParams name
    (match o_maxTime options with Some v => v | None => Some (Num 5000) end)
    (match o_maxIterations options with
     | Some v => v | None => Some (Num 1000000) end)
    (match o_warmup options with Some n => n | None => 0%nat end)
    (match o_skipWarmup options with Some b => b | None => false end)
    (match o_noSettle options with Some b => b | None => false end)
    (o_pauseFirst options) (o_pauseInterval options)
    (o_pauseDuration options).

Definition runBench (fuel : nat) (name : string) (options : RunnerOptions)
  : IO Event (list MeasuredResults) :=
  collected <~ collectSamples fuel (mergeDefaults name options) ;;
  pure [buildMeasuredResults name collected].

End Collector.

End BasicRunner.

(* ================================================================== *)
(** ** RunBenchCLI.ts: mergeResults *)
(* ================================================================== *)

Module RunBenchCLI.

Section Merge.

(** The fields of a result that [mergeResults] does not read (heap sizes,
    GC statistics, convergence and so on). *)
Variable Other : Type.

(** A result: the fields that [mergeResults] reads, and the others when the
    object has any. *)
Record MeasuredResults : Type := mkMeasuredResults {
  name : string;
  samples : list num;
  warmupSamples : option (list num);
  time : BasicRunnerStats.SampleTimeStats;
  totalTime : option num;
  pausePoints : option (list BasicRunner.PausePoint);
  other : option Other
}.

(** The [flatMap] over the pause points, with the running [offset]. *)
Fixpoint shift_pause_points (results : list MeasuredResults) (offset : nat)
  : list BasicRunner.PausePoint :=
  match results with
  | [] => []
  | r :: t =>
      map (fun p =>
             BasicRunner.mkPausePoint (BasicRunner.sampleIndex p + offset)
               (BasicRunner.durationMs p))
          (match pausePoints r with Some pts => pts | None => [] end)
      ++ shift_pause_points t (offset + List.length (samples r))
  end.

Definition mergeResults (results : list MeasuredResults)
  : Outcome MeasuredResults :=
  match results with
  | [] => Thrown "Cannot merge empty results array"
  | [r] => Returned r
  | first :: _ =>
      let allSamples := flat_map samples results in
      let allWarmup :=
        flat_map (fun r => match warmupSamples r with
                           | Some ws => ws
                           | None => []
                           end) results in
      let time := BasicRunnerStats.computeStats allSamples in
      let allPausePoints := shift_pause_points results 0 in
      Returned
        (mkMeasuredResults (name first) allSamples
           (match allWarmup with [] => None | _ => Some allWarmup end)
           time
           (Some (fold_left
                    (fun sum r =>
                       add sum (match totalTime r with
                                | Some t => if truthy t then t else zero
                                | None => zero
                                end))
                    results zero))
           (match allPausePoints with
            | [] => None
            | _ => Some allPausePoints
            end)
           None)
  end.

End Merge.

End RunBenchCLI.

(* ================================================================== *)
(** ** AdaptiveWrapper.ts: the adaptive loop *)
(* ================================================================== *)

Module AdaptiveWrapper.

Import AdaptiveStats.

Definition minTime : num := Num 1000.
Definition maxTime : num := Num 10000.
Definition targetConfidence : num := Num 95.
Definition initialBatch : num := Num 100.
Definition continueBatch : num := Num 100.
Definition continueIterations : num := Num 10.

Inductive Event : Type :=
| RunBench (opts : RunnerOptions)   (* a call of the base runner *)
| StderrWrite.                      (* a progress line, or its erasure *)

(** What the wrapper reads of a result of the base runner. *)
Record BaseResult : Type := mkBaseResult {
  r_samples : option (list num);
  r_warmupSamples : option (list num)
}.

(** The options given to [createAdaptiveWrapper]. *)
Record AdaptiveOptions : Type := mkAdaptiveOptions {
  a_minTime : option num;
  a_maxTime : option num;
  a_convergence : option num
}.

Record Limits : Type := mkLimits {
  l_minTime : num;
  l_maxTime : num;
  l_targetConfidence : num;
  l_startTime : num
}.

Record MeasuredResults : Type := mkMeasuredResults {
  m_name : string;
  m_samples : list num;
  m_warmupSamples : option (list num);
  m_time : TimeStats;
  m_totalTime : num;
  m_convergence : ConvergenceResult
}.

(** The options of the first batch and of a continuation batch. *)
Definition initialOptions (runnerOptions : RunnerOptions) : RunnerOptions :=
  set_maxIterations undefined (set_maxTime (Some initialBatch) runnerOptions).

Definition continueOptions (runnerOptions : RunnerOptions) : RunnerOptions :=
  set_skipWarmup true
    (set_maxIterations (Some continueIterations)
       (set_maxTime (Some continueBatch) runnerOptions)).

(** How a round of the loop ends. *)
Inductive Round : Type :=
| Break
| Continue (allSamples : list num) (lastLog : num).

Section Wrapper.

(** [performance.now()], and what the base runner returns on a call. *)
Variable clock : nat -> num.
Variable baseRunner : nat -> RunnerOptions -> list BaseResult.

Definition now : IO Event num := read clock.

Definition runBase (opts : RunnerOptions) : IO Event (list BaseResult) :=
  emit (RunBench opts) ;;;
  answer <~ read baseRunner ;;
  pure (answer opts).

(** [appendSamples(results[0], samples)]; reading [samples] of a missing
    first result throws a TypeError. *)
Definition appendSamples (result : option BaseResult) (samples : list num)
  : IO Event (list num) :=
  match result with
  | None => throw "Cannot read properties of undefined (reading 'samples')"
  | Some r =>
      match r_samples r with
      | None | Some [] => pure samples
      | Some batch => pure (samples ++ batch)
      end
  end.

Definition collectInitial (runnerOptions : RunnerOptions)
    (allSamples : list num)
  : IO Event (list num * option (list num)) :=
  results <~ runBase (initialOptions runnerOptions) ;;
  allSamples' <~ appendSamples (nth_error results 0) allSamples ;;
  match nth_error results 0 with
  | Some r => pure (allSamples', r_warmupSamples r)
  | None => throw "Cannot read properties of undefined (reading 'warmupSamples')"
  end.

(** The body of the loop of [collectAdaptive], entered when the time limit
    is not reached. *)
Definition round (runnerOptions : RunnerOptions) (limits : Limits)
    (allSamples : list num) (lastLog : num) : IO Event Round :=
  let samplesNs := map (fun s => mul s msToNs) allSamples in
  let convergence := checkConvergence samplesNs in
  t <~ now ;;
  let elapsed := sub t (l_startTime limits) in
  lastLog' <~
    (if gtb (sub elapsed lastLog) (Num 1000)
     then emit StderrWrite ;;; pure elapsed
     else pure lastLog) ;;
  if shouldStop convergence (l_targetConfidence limits) elapsed
       (l_minTime limits)
  then pure Break
  else
    batchResults <~ runBase (continueOptions runnerOptions) ;;
    allSamples' <~ appendSamples (nth_error batchResults 0) allSamples ;;
    pure (Continue allSamples' lastLog').

Fixpoint adaptive_loop (fuel : nat) (runnerOptions : RunnerOptions)
    (limits : Limits) (allSamples : list num) (lastLog : num)
  : IO Event (list num) :=
  t <~ now ;;
  if ltb (sub t (l_startTime limits)) (l_maxTime limits)
  then
    match fuel with
    | O => out_of_fuel
    | S f =>
        r <~ round runnerOptions limits allSamples lastLog ;;
        match r with
        | Break => pure allSamples
        | Continue allSamples' lastLog' =>
            adaptive_loop f runnerOptions limits allSamples' lastLog'
        end
    end
  else pure allSamples.

Definition collectAdaptive (fuel : nat) (runnerOptions : RunnerOptions)
    (limits : Limits) (allSamples : list num) : IO Event (list num) :=
  samples <~ adaptive_loop fuel runnerOptions limits allSamples zero ;;
  emit StderrWrite ;;;
  pure samples.

Definition buildResults (samplesMs : list num) (startTime : num)
    (convergence : ConvergenceResult) (name : string)
    (warmupSamples : option (list num)) : IO Event (list MeasuredResults) :=
  t <~ now ;;
  let totalTime := div (sub t startTime) (Num 1000) in
  let samplesNs := map (fun s => mul s msToNs) samplesMs in
  let timeStats := computeTimeStats samplesNs in
  pure [mkMeasuredResults name samplesMs warmupSamples timeStats totalTime
          convergence].

Definition or_default (v : option num) (dflt : num) : num :=
  match v with Some x => x | None => dflt end.

Definition runAdaptiveBench (fuel : nat) (name : string)
    (runnerOptions : RunnerOptions) (options : AdaptiveOptions)
  : IO Event (list MeasuredResults) :=
  let min := or_default (o_minTime runnerOptions)
               (or_default (a_minTime options) minTime) in
  let max :=
    match o_maxTime runnerOptions with
    | Some (Some x) => x
    | _ => or_default (a_maxTime options) maxTime
    end in
  let target := or_default (o_targetConfidence runnerOptions)
                  (or_default (a_convergence options) targetConfidence) in
  initial <~ collectInitial runnerOptions [] ;;
  startTime <~ now ;;
  let limits := mkLimits min max target startTime in
  allSamples <~ collectAdaptive fuel runnerOptions limits (fst initial) ;;
  let convergence :=
    checkConvergence (map (fun s => mul s msToNs) allSamples) in
  buildResults allSamples startTime convergence name (snd initial).

End Wrapper.

End AdaptiveWrapper.

(* ================================================================== *)
(** ** BenchMatrix.ts: runMatrix *)
(* ================================================================== *)

Module BenchMatrix.

Inductive AnyVariant : Type :=
| VariantFn          (* a plain function of the case data *)
| StatefulVariant.   (* a setup and run pair *)

Record MatrixDefaults : Type := mkMatrixDefaults {
  d_warmup : option num;
  d_maxTime : option num;
  d_iterations : option num
}.

Record Matrix : Type := mkMatrix {
  name : string;
  variantDir : option string;
  variants : option (list (string * AnyVariant));
  cases : option (list string);
  casesModule : option string;
  baselineDir : option string;
  baselineVariant : option string;
  defaults : option MatrixDefaults
}.

(** The options of [runMatrix] that its control flow reads; the others are
    passed through to the runner unchanged. *)
Record RunMatrixOptions : Type := mkRunMatrixOptions {
  iterations : option num;
  maxTime : option num;
  warmup : option num;
  filteredCases : option (list string);
  filteredVariants : option (list string)
}.

(** What the matrix reads of a measurement: its samples. *)
Definition Measured : Type := list num.

Record CaseResult : Type := mkCaseResult {
  caseId : string;
  measured : Measured;
  baseline : option Measured;
  deltaPercent : option num
}.

Record VariantResult : Type := mkVariantResult {
  id : string;
  v_cases : list CaseResult
}.

Record MatrixResults : Type := mkMatrixResults {
  r_name : string;
  r_variants : list VariantResult
}.

(** The work that a matrix run performs. *)
Inductive Event : Type :=
| DiscoverVariants (dir : string)
| LoadCasesModule (path : string)
| LoadCaseData (caseId : string)
| Setup (variantId caseId : string)
| RunInline (variantId caseId : string) (maxTime : num)
| RunWorker (dir variantId caseId : string) (maxTime : num).

Section Runner.

(** What the loaders and the runners return when they return: the variants
    found in a directory, the [cases] export of a cases module ([None] when
    the module exports no such array) and the measurement of a benchmark
    run.  A loader, a setup or a run that fails ends the matrix run with its
    error; the oracles do not describe those runs, so what is stated about a
    matrix run is stated about the runs that return. *)
Variable discovered : nat -> string -> list string.
Variable casesOfModule : nat -> string -> option (list string).
Variable measurement : nat -> Measured.

Definition discoverVariants (dir : string) : IO Event (list string) :=
  emit (DiscoverVariants dir) ;;;
  answer <~ read discovered ;;
  pure (answer dir).

(** [loadCasesModule]: a module without a [cases] array is an error. *)
Definition loadCasesModule (moduleUrl : string) : IO Event (list string) :=
  emit (LoadCasesModule moduleUrl) ;;;
  answer <~ read casesOfModule ;;
  match answer moduleUrl with
  | Some ids => pure ids
  | None =>
      throw ("Cases module at " ++ moduleUrl ++ " must export 'cases' array")
  end.

(** [validateBaseline]. *)
Definition validateBaseline (matrix : Matrix) : IO Event unit :=
  if truthy_string (baselineDir matrix)
     && truthy_string (baselineVariant matrix)
  then throw "BenchMatrix cannot have both 'baselineDir' and 'baselineVariant'"
  else pure tt.

(** [{ ...matrix.defaults, ...options }]. *)
Definition first_some {A : Type} (a b : option A) : option A :=
  match a with Some _ => a | None => b end.

Definition effectiveOptions (matrix : Matrix) (options : RunMatrixOptions)
  : RunMatrixOptions :=
  match defaults matrix with
  | None => options
  | Some d =>
      mkRunMatrixOptions
        (first_some (iterations options) (d_iterations d))
        (first_some (maxTime options) (d_maxTime d))
        (first_some (warmup options) (d_warmup d))
        (filteredCases options) (filteredVariants options)
  end.

(** The time limit that [buildRunnerOptions] passes on. *)
Definition runnerMaxTime (options : RunMatrixOptions) : num :=
  match maxTime options with Some t => t | None => Num 1000 end.

Definition resolveCases (matrix : Matrix) (options : RunMatrixOptions)
  : IO Event (list string) :=
  moduleCases <~
    (if truthy_string (casesModule matrix)
     then
       match casesModule matrix with
       | Some path => ids <~ loadCasesModule path ;; pure (Some ids)
       | None => pure None
       end
     else pure None) ;;
  let allCaseIds :=
    match moduleCases, cases matrix with
    | Some ids, _ => ids
    | None, Some ids => ids
    | None, None => ["default"%string]
    end in
  pure (match filteredCases options with
        | Some ids => ids
        | None => allCaseIds
        end).

Definition computeDeltaPercent (baseline current : Measured) : num :=
  let baseAvg := StatisticalUtils.average baseline in
  if eqb baseAvg zero then zero
  else mul (div (sub (StatisticalUtils.average current) baseAvg) baseAvg)
           (Num 100).

(** [runVariant]: a stateful variant is set up first. *)
Definition runVariant (variant : AnyVariant) (variantId caseId : string)
    (options : RunMatrixOptions) : IO Event Measured :=
  (match variant with
   | StatefulVariant => emit (Setup variantId caseId)
   | VariantFn => pure tt
   end) ;;;
  emit (RunInline variantId caseId (runnerMaxTime options)) ;;;
  read measurement.

Fixpoint for_each {A B : Type} (f : A -> IO Event B) (l : list A)
  : IO Event (list B) :=
  match l with
  | [] => pure []
  | a :: t => b <~ f a ;; bs <~ for_each f t ;; pure (b :: bs)
  end.

(** [applyBaselineVariant]: the cases of the baseline variant become the
    baselines of the same cases of the other variants. *)
Definition find_case (cs : list CaseResult) (c : string)
  : option CaseResult :=
  find (fun r => String.eqb (caseId r) c) (rev cs).

Definition applyBaselineVariant (variants : list VariantResult)
    (baselineVariantId : string) : list VariantResult :=
  match find (fun v => String.eqb (id v) baselineVariantId) variants with
  | None => variants
  | Some baselineV =>
      map (fun v =>
             if String.eqb (id v) baselineVariantId then v
             else
               mkVariantResult (id v)
                 (map (fun c =>
                         match find_case (v_cases baselineV) (caseId c) with
                         | Some b =>
                             mkCaseResult (caseId c) (measured c)
                               (Some (measured b))
                               (Some (computeDeltaPercent (measured b)
                                        (measured c)))
                         | None => c
                         end)
                      (v_cases v)))
          variants
  end.

Definition withBaselineVariant (matrix : Matrix)
    (variants : list VariantResult) : list VariantResult :=
  match baselineVariant matrix with
  | Some (String c t) => applyBaselineVariant variants (String c t)
  | _ => variants
  end.

(** [runMatrixInline]. *)
Definition runMatrixInline (matrix : Matrix) (options : RunMatrixOptions)
  : IO Event MatrixResults :=
  if truthy_string (baselineDir matrix)
  then throw "BenchMatrix with inline 'variants' cannot use 'baselineDir'. Use 'variantDir' instead."
  else
    caseIds <~ resolveCases matrix options ;;
    let all := match variants matrix with Some vs => vs | None => [] end in
    let variantEntries :=
      match filteredVariants options with
      | Some ids =>
          filter (fun e => existsb (String.eqb (fst e)) ids) all
      | None => all
      end in
    results <~
      for_each
        (fun e =>
           cs <~ for_each
                   (fun c =>
                      emit (LoadCaseData c) ;;;
                      m <~ runVariant (snd e) (fst e) c options ;;
                      pure (mkCaseResult c m None None))
                   caseIds ;;
           pure (mkVariantResult (fst e) cs))
        variantEntries ;;
    pure (mkMatrixResults (name matrix) (withBaselineVariant matrix results)).

(** [runMatrixWithDir]: every pair runs in a worker, and so does the
    baseline of a variant that the baseline directory also holds. *)
Definition runMatrixWithDir (dir : string) (matrix : Matrix)
    (options : RunMatrixOptions) : IO Event MatrixResults :=
  allVariantIds <~ discoverVariants dir ;;
  match allVariantIds with
  | [] => throw ("No variants found in " ++ dir)
  | _ =>
      let variantIds :=
        match filteredVariants options with
        | Some ids => ids
        | None => allVariantIds
        end in
      baselineIds <~
        (match baselineDir matrix with
         | Some (String c t) => discoverVariants (String c t)
         | _ => pure []
         end) ;;
      caseIds <~ resolveCases matrix options ;;
      results <~
        for_each
          (fun v =>
             cs <~ for_each
                     (fun c =>
                        emit (RunWorker dir v c (runnerMaxTime options)) ;;;
                        m <~ read measurement ;;
                        emit (LoadCaseData c) ;;;
                        b <~
                          (match baselineDir matrix with
                           | Some (String ch t) =>
                               if existsb (String.eqb v) baselineIds
                               then
                                 emit (RunWorker (String ch t) v c
                                         (runnerMaxTime options)) ;;;
                                 bm <~ read measurement ;;
                                 pure (Some bm)
                               else pure None
                           | _ => pure None
                           end) ;;
                        pure (mkCaseResult c m b
                                (match b with
                                 | Some bm => Some (computeDeltaPercent bm m)
                                 | None => None
                                 end)))
                     caseIds ;;
             pure (mkVariantResult v cs))
          variantIds ;;
      pure (mkMatrixResults (name matrix)
              (withBaselineVariant matrix results))
  end.

(** [runMatrix]. *)
Definition runMatrix (matrix : Matrix) (options : RunMatrixOptions)
  : IO Event MatrixResults :=
  validateBaseline matrix ;;;
  let effective := effectiveOptions matrix options in
  match variantDir matrix with
  | Some (String c t) => runMatrixWithDir (String c t) matrix effective
  | _ =>
      match variants matrix with
      | Some _ => runMatrixInline matrix effective
      | None => throw "BenchMatrix requires either 'variants' or 'variantDir'"
      end
  end.

End Runner.

End BenchMatrix.

(* ================================================================== *)
(** ** MatrixFilter.ts *)
(* ================================================================== *)

Module MatrixFilter.

Local Open Scope string_scope.

Record MatrixFilter : Type := mkMatrixFilter {
  f_case : option string;
  f_variant : option string
}.

(** [s || undefined]. *)
Definition or_undefined (s : string) : option string :=
  match s with
  | EmptyString => None
  | _ => Some s
  end.

Definition parseMatrixFilter (filter : string) : MatrixFilter :=
  if Text.includes filter "/"
  then
    let parts := firstn 2 (Text.split "/" filter) in
    mkMatrixFilter
      (match nth_error parts 0 with Some s => or_undefined s | None => None end)
      (match nth_error parts 1 with Some s => or_undefined s | None => None end)
  else mkMatrixFilter (Some filter) None.

(** A matrix with the case and variant lists of earlier filters. *)
Record FilteredMatrix : Type := mkFilteredMatrix {
  matrix : BenchMatrix.Matrix;
  filteredCases : option (list string);
  filteredVariants : option (list string)
}.

Definition matchPattern (id pattern : string) : bool :=
  Text.includes (Text.toLowerCase id) (Text.toLowerCase pattern).

(** The double quote of the error messages. *)
Definition quote : string := String "034"%char EmptyString.

Definition or_empty (s : option string) : string :=
  match s with Some x => x | None => EmptyString end.

Section Filter.

(** What the loaders return, as for [runMatrix]. *)
Variable discovered : nat -> string -> list string.
Variable casesOfModule : nat -> string -> option (list string).

Definition getFilteredCases (m : BenchMatrix.Matrix)
    (casePattern : option string)
  : IO BenchMatrix.Event (option (list string)) :=
  if negb (truthy_string casePattern) then pure None
  else
    caseIds <~
      (match BenchMatrix.casesModule m with
       | Some (String c t) =>
           ids <~ BenchMatrix.loadCasesModule casesOfModule (String c t) ;;
           pure (Some ids)
       | _ => pure (BenchMatrix.cases m)
       end) ;;
    match caseIds with
    | None => pure (Some ["default"])
    | Some ids =>
        match filter (fun id => matchPattern id (or_empty casePattern)) ids with
        | [] =>
            throw ("No cases match filter: " ++ quote
                     ++ or_empty casePattern ++ quote)
        | filtered => pure (Some filtered)
        end
    end.

Definition getFilteredVariants (m : BenchMatrix.Matrix)
    (variantPattern : option string)
  : IO BenchMatrix.Event (option (list string)) :=
  if negb (truthy_string variantPattern) then pure None
  else
    match BenchMatrix.variants m with
    | Some vs =>
        match filter (fun id => matchPattern id (or_empty variantPattern))
                (map fst vs) with
        | [] =>
            throw ("No variants match filter: " ++ quote
                     ++ or_empty variantPattern ++ quote)
        | ids => pure (Some ids)
        end
    | None =>
        match BenchMatrix.variantDir m with
        | Some (String c t) =>
            allIds <~ BenchMatrix.discoverVariants discovered (String c t) ;;
            match filter (fun id => matchPattern id (or_empty variantPattern))
                    allIds with
            | [] =>
                throw ("No variants match filter: " ++ quote
                         ++ or_empty variantPattern ++ quote)
            | filtered => pure (Some filtered)
            end
        | _ => throw "BenchMatrix requires 'variants' or 'variantDir'"
        end
    end.

(** The intersection with the list of an earlier filter. *)
Definition intersect (found earlier : option (list string))
  : option (list string) :=
  match found, earlier with
  | Some l, Some e => Some (filter (fun x => existsb (String.eqb x) e) l)
  | Some l, None => Some l
  | None, _ => earlier
  end.

Definition filterMatrix (m : FilteredMatrix) (filter : option MatrixFilter)
  : IO BenchMatrix.Event FilteredMatrix :=
  match filter with
  | None => pure m
  | Some f =>
      if negb (truthy_string (f_case f)) && negb (truthy_string (f_variant f))
      then pure m
      else
        caseList <~ getFilteredCases (matrix m) (f_case f) ;;
        variantList <~ getFilteredVariants (matrix m) (f_variant f) ;;
        pure (mkFilteredMatrix (matrix m)
                (intersect caseList (filteredCases m))
                (intersect variantList (filteredVariants m)))
  end.

End Filter.

End MatrixFilter.

(* ================================================================== *)
(** ** The collector's statistics in binary64 *)
(* ================================================================== *)

(** Where the rounding of JavaScript's arithmetic decides a statement, the
    collector's [computeStats] is evaluated on binary64 itself: Rocq's
    primitive floats, whose operations are those of IEEE 754 with rounding to
    nearest even, as JavaScript's are. *)
Module CollectorBinary64.

Local Open Scope float_scope.

Definition two52 : float := 4503599627370496.

(** [Math.floor], [Math.ceil] and [x % 1] on the range where the collector
    uses them, [0 <= x < 2^51]: adding and subtracting [2^52] rounds [x] to
    the nearest integer. *)
Definition nearest_integer (x : float) : float := (x + two52) - two52.

Definition floor (x : float) : float :=
  let r := nearest_integer x in if x <? r then r - 1 else r.

Definition ceil (x : float) : float :=
  let r := nearest_integer x in if r <? x then r + 1 else r.

Definition rem1 (x : float) : float := x - floor x.

Definition of_nat (n : nat) : float :=
  PrimFloat.of_uint63 (Uint63.of_Z (Z.of_nat n)).

(** [arr[i]]: the element whose position equals [i], or [undefined]. *)
Fixpoint index_from (k : nat) (arr : list float) (i : float) : option float :=
  match arr with
  | [] => None
  | x :: t => if of_nat k =? i then Some x else index_from (S k) t i
  end.

Definition index (arr : list float) (i : float) : option float :=
  index_from 0 arr i.

Definition toNumber (v : option float) : float :=
  match v with Some x => x | None => nan end.

(** [[...samples].sort((a, b) => a - b)], as [JS.sort_by]. *)
Fixpoint insert (x : float) (l : list float) : list float :=
  match l with
  | [] => [x]
  | y :: t => if 0 <? x - y then y :: insert x t else x :: l
  end.

Definition sort (l : list float) : list float := fold_right insert [] l.

Definition percentile (sortedArray : list float) (p : float) : option float :=
  let len := of_nat (List.length sortedArray) in
  let idx := (len - 1) * p in
  let lower := floor idx in
  let upper := ceil idx in
  let weight := rem1 idx in
  if len <=? upper then index sortedArray (len - 1)
  else
    Some (toNumber (index sortedArray lower) * (1 - weight)
          + toNumber (index sortedArray upper) * weight).

Record SampleTimeStats : Type := mkSampleTimeStats {
  min : option float;
  max : option float;
  avg : float;
  p50 : option float;
  p75 : option float;
  p99 : option float;
  p999 : option float
}.

#[warnings="-inexact-float"]
Definition computeStats (samples : list float) : SampleTimeStats :=
  let sorted := sort samples in
  let avg :=
    fold_left PrimFloat.add samples 0 / of_nat (List.length samples) in
  mkSampleTimeStats
    (index sorted 0)
    (index sorted (of_nat (List.length sorted) - 1))
    avg
    (percentile sorted 0.5)
    (percentile sorted 0.75)
    (percentile sorted 0.99)
    (percentile sorted 0.999).

End CollectorBinary64.

(* ================================================================== *)
(** ** Vocabulary of the statements *)
(* ================================================================== *)

(** An array of finite numbers. *)
Definition nums (l : list Q) : list num := map Num l.

(** The nearest rank of [p] among [n] sorted values: [max(0, ceil(n p) - 1)]. *)
Definition nearest_rank (n : nat) (p : Q) : nat :=
  Z.to_nat (Z.max 0 (Qceiling (inject_Z (Z.of_nat n) * p) - 1)).

(** The position [(n - 1) p] at which the collector interpolates, and the
    weight of the upper neighbour there. *)
Definition position (n : nat) (p : Q) : Q :=
  (inject_Z (Z.of_nat n) + - (1)) * p.

Definition weight (n : nat) (p : Q) : Q :=
  position n p - inject_Z (Qfloor (position n p)).

(** [v] is the linear interpolation of the sorted array [s] at [p]. *)
Definition interpolates (s : list Q) (p v : Q) : Prop :=
  exists lo hi,
    nth_error s (Z.to_nat (Qfloor (position (List.length s) p))) = Some lo
    /\ nth_error s (Z.to_nat (Qceiling (position (List.length s) p))) = Some hi
    /\ v == lo * (1 - weight (List.length s) p)
            + hi * weight (List.length s) p.

(** A stream of draws that are all at least 1/2, for the examples. *)
Definition draws_high (k : nat) : Q :=
  if Nat.even k then 3 # 4 else 1 # 2.

(** The rule that decides the direction from the interval and the observed
    percentage. *)
Definition excludes_zero (c : value * value) : bool :=
  gtb (toNumber (fst c)) zero || ltb (toNumber (snd c)) zero.

(** 580 samples of 50 ms followed by 20 samples of 52.5 ms, in nanoseconds. *)
Definition late_shift_samples : list Q :=
  repeat 50000000 580 ++ repeat 52500000 20.

(** Forty samples of 50 ms, and three samples, in nanoseconds. *)
Definition steady_samples : list Q := repeat 50000000 40.

Definition few_samples : list Q := [1000000; 2000000; 3000000].





(** Classification of GC events, for the statements on the aggregation. *)
Definition is_scavenge (e : GcStats.GcEvent) : bool :=
  match GcStats.type e with
  | GcStats.scavenge | GcStats.minor_ms => true
  | _ => false
  end.

Definition is_mark_compact (e : GcStats.GcEvent) : bool :=
  match GcStats.type e with
  | GcStats.mark_compact => true
  | _ => false
  end.

Definition carries_allocated (e : GcStats.GcEvent) : bool :=
  match GcStats.allocated e with Some _ => true | None => false end.

(** Events for the examples: a scavenge as Node reports it, and an event of
    unknown type as a browser trace gives it (no [allocated] field). *)
Definition scavenge_event : GcStats.GcEvent :=
  GcStats.mkGcEvent GcStats.scavenge (Num (1 # 2)) (Some (Num 1000))
    (Num 500) (Some (Num 100)) (Some (Num 400)).

Definition unknown_event : GcStats.GcEvent :=
  GcStats.mkGcEvent GcStats.unknown (Num 3) None (Num 70) None None.

(** A matrix for the examples: two inline variants and a baseline
    directory. *)
Definition inline_matrix_with_baselineDir : BenchMatrix.Matrix :=
  BenchMatrix.mkMatrix "Test" None
    (Some [("fast"%string, BenchMatrix.VariantFn);
           ("slow"%string, BenchMatrix.StatefulVariant)])
    None None (Some "baselines"%string) None None.

Definition matrix_with_both_baselines : BenchMatrix.Matrix :=
  BenchMatrix.mkMatrix "Test" (Some "variants"%string) None
    None None (Some "baselines"%string) (Some "fast"%string) None.

Definition no_matrix_options : BenchMatrix.RunMatrixOptions :=
  BenchMatrix.mkRunMatrixOptions None None None None None.

Definition zero_limits_params : BasicRunner.CollectParams :=
  BasicRunner.mkCollectParams "bench" (Some (Num 0)) (Some (Num 0)) 3
    false false None None None.

(** [a <= b] on numbers, as the operator [<=] decides it. *)
Definition le (a b : num) : Prop := leb a b = true.

(** [a <= b] on possibly undefined numbers. *)
Definition vle (a b : value) : Prop := leb (toNumber a) (toNumber b) = true.

(** The number of resamples and the confidence level that the bootstrap
    functions take from their options. *)
Definition resamples_of (options : StatisticalUtils.BootstrapOptions) : nat :=
  match StatisticalUtils.opt_resamples options with
  | Some r => r
  | None => StatisticalUtils.bootstrapSamples
  end.

Definition confidence_of (options : StatisticalUtils.BootstrapOptions) : num :=
  match StatisticalUtils.opt_confidence options with
  | Some c => c
  | None => StatisticalUtils.confidence
  end.

(** Five resamples at the default confidence, for the examples. *)
Definition five_resamples : StatisticalUtils.BootstrapOptions :=
  StatisticalUtils.mkBootstrapOptions (Some 5%nat) None.

(** The sum of a list of rationals. *)
Definition Qsum (l : list Q) : Q := fold_right Qplus 0 l.

(** The calls of the base runner among the events of the adaptive wrapper. *)
Definition is_run (e : AdaptiveWrapper.Event) : bool :=
  match e with
  | AdaptiveWrapper.RunBench _ => true
  | AdaptiveWrapper.StderrWrite => false
  end.

(** An event of the adaptive loop that continues with [runnerOptions]: a
    progress line, or a call of the base runner with the continuation
    options. *)
Definition continuation_event (runnerOptions : RunnerOptions)
    (e : AdaptiveWrapper.Event) : Prop :=
  e = AdaptiveWrapper.StderrWrite
  \/ e = AdaptiveWrapper.RunBench (AdaptiveWrapper.continueOptions runnerOptions).

(** The samples of a batch, none when the result has no sample array. *)
Definition batch_samples (r : AdaptiveWrapper.BaseResult) : list num :=
  match AdaptiveWrapper.r_samples r with
  | Some batch => batch
  | None => []
  end.

(** Samples in milliseconds, as nanoseconds. *)
Definition to_ns (samplesMs : list num) : list num :=
  map (fun s => mul s AdaptiveStats.msToNs) samplesMs.

(** The collector's pause settings with their defaults, and the sample
    indices after which it pauses. *)
Definition pause_interval (p : BasicRunner.CollectParams) : Z :=
  match BasicRunner.pauseInterval p with Some i => i | None => 0%Z end.

Definition pause_duration (p : BasicRunner.CollectParams) : num :=
  match BasicRunner.pauseDuration p with Some d => d | None => Num 100 end.

Definition pauses_after (p : BasicRunner.CollectParams) (i : nat) : bool :=
  BasicRunner.shouldPause (Z.of_nat (S i)) (BasicRunner.pauseFirst p)
    (pause_interval p).

Definition pause_points (p : BasicRunner.CollectParams) (from n : nat)
  : list BasicRunner.PausePoint :=
  map (fun i => BasicRunner.mkPausePoint i (pause_duration p))
      (filter (pauses_after p) (seq from n)).

(** What the collector does for the sample of index [i]: one call of the
    benchmark, and a sleep when it pauses after it. *)
Definition sample_events (p : BasicRunner.CollectParams) (i : nat)
  : list BasicRunner.Event :=
  BasicRunner.Exec
  :: (if pauses_after p i then [BasicRunner.Sleep (pause_duration p)] else []).

(** What the collector does before sampling: the warm-up calls, a collection
    and, unless [noSettle] is set, the settle time and a second collection. *)
Definition warmup_events (p : BasicRunner.CollectParams)
  : list BasicRunner.Event :=
  if BasicRunner.skipWarmup p then []
  else
    repeat BasicRunner.Exec (BasicRunner.warmup p)
    ++ BasicRunner.Gc
       :: (if BasicRunner.noSettle p then []
           else [BasicRunner.Sleep BasicRunner.gcSettleTime; BasicRunner.Gc]).

(** The condition of the measurement loop. *)
Definition continues (p : BasicRunner.CollectParams) (count : nat)
    (elapsed : num) : bool :=
  (negb (truthy_value (BasicRunner.maxIterations p))
   || ltb (of_nat count) (toNumber (BasicRunner.maxIterations p)))
  && (negb (truthy_value (BasicRunner.maxTime p))
      || ltb elapsed (toNumber (BasicRunner.maxTime p))).

(** A run of at most five iterations with two warm-up calls, pausing after
    the second sample, for the examples. *)
Definition five_iterations : BasicRunner.CollectParams :=
  BasicRunner.mkCollectParams "bench" None (Some (of_nat 5)) 2
    false false (Some 2%Z) None None.

(** A run limited only by an infinite time, for the examples. *)
Definition unlimited_time : BasicRunner.CollectParams :=
  BasicRunner.mkCollectParams "bench" (Some PosInf) None 1
    false true None None None.

(** Every character of a string satisfies [f]. *)
Fixpoint all_chars (f : ascii -> bool) (s : string) : bool :=
  match s with
  | EmptyString => true
  | String c t => f c && all_chars f t
  end.

(** The events that the lines of a trace give. *)
Definition parse_lines (lines : list string) : list GcStats.GcEvent :=
  flat_map (fun line =>
              match GcStats.parseGcLine line with
              | Some e => [e]
              | None => []
              end) lines.



(** The average of a non-empty list of rationals. *)
Definition Qaverage (l : list Q) : Q :=
  Qsum l / inject_Z (Z.of_nat (List.length l)).

(** A matrix that names neither inline variants nor a variant directory,
    and one whose variant directory is "variants", for the examples. *)
Definition matrix_without_variants : BenchMatrix.Matrix :=
  BenchMatrix.mkMatrix "Test" None None None None None None None.

Definition matrix_with_dir : BenchMatrix.Matrix :=
  BenchMatrix.mkMatrix "Test" (Some "variants"%string) None None None None
    None None.

(** The inline variants that a run selects, and what the inline runner does
    for one variant and one case: it loads the case, sets up a stateful
    variant and runs the benchmark in this process. *)
Definition selected_variants (matrix : BenchMatrix.Matrix)
    (options : BenchMatrix.RunMatrixOptions)
  : list (string * BenchMatrix.AnyVariant) :=
  let all :=
    match BenchMatrix.variants matrix with Some vs => vs | None => [] end in
  match BenchMatrix.filteredVariants options with
  | Some ids => filter (fun e => existsb (String.eqb (fst e)) ids) all
  | None => all
  end.

Definition inline_case_events (options : BenchMatrix.RunMatrixOptions)
    (e : string * BenchMatrix.AnyVariant) (c : string)
  : list BenchMatrix.Event :=
  BenchMatrix.LoadCaseData c
  :: match snd e with
     | BenchMatrix.StatefulVariant => [BenchMatrix.Setup (fst e) c]
     | BenchMatrix.VariantFn => []
     end
  ++ [BenchMatrix.RunInline (fst e) c (BenchMatrix.runnerMaxTime options)].

(** An inline matrix of two variants and two cases, for the examples. *)
Definition two_by_two : BenchMatrix.Matrix :=
  BenchMatrix.mkMatrix "Test" None
    (Some [("fast"%string, BenchMatrix.VariantFn);
           ("slow"%string, BenchMatrix.StatefulVariant)])
    (Some ["small"%string; "large"%string]) None None None None.





(** A string without a slash. *)
Definition no_slash (s : string) : Prop :=
  all_chars (fun c => negb (Ascii.eqb c "/")) s = true.

(** A filtered inline matrix whose earlier filter kept the cases "small"
    and "large", for the examples. *)
Definition filtered_two_by_two : MatrixFilter.FilteredMatrix :=
  MatrixFilter.mkFilteredMatrix two_by_two
    (Some ["small"%string; "large"%string]) None.

(** ** The range of binary64 *)

(** The numbers of the model are exact, those of the code are binary64: a
    sum, a difference or a quotient that leaves binary64's range is an
    infinity (or 0) in the code, and a NaN can follow from it.  The
    statements that this would make false are made for the inputs described
    here, on which the code's arithmetic stays in range. *)

(** 2^1023, half of the bound of binary64's finite numbers.  Numbers that
    are not negative and add up to no more than this have a finite sum in
    binary64, whatever the rounding of the partial sums of an array. *)
Definition sum_limit : Q := inject_Z (2 ^ 1023).

(** 2^-1074, the smallest positive number of binary64. *)
Definition smallest_positive : Q := 1 # (2 ^ 1074).

(** Values that [binValues] can sort into [binCount] bins of a positive,
    finite width: two different values are at least [binCount] times the
    smallest positive number apart, and at most [sum_limit]. *)
Definition binnable (values : list Q) (binCount : nat) : Prop :=
  forall x y, In x values -> In y values -> x < y ->
    inject_Z (Z.of_nat binCount) * smallest_positive <= y - x
    /\ y - x <= sum_limit.

(** Durations between 10^-100 and 10^100: the averages of such numbers,
    their differences and their quotients stay within binary64's range. *)
Definition moderate (values : list Q) : Prop :=
  forall x, In x values -> 1 # (10 ^ 100) <= x /\ x <= inject_Z (10 ^ 100).

(* ================================================================== *)
(** * Proofs *)
(* ================================================================== *)

(** ** Rational comparisons *)

Lemma Qltb_lt (a b : Q) : Qltb a b = true <-> a < b.
Proof.
  unfold Qltb. rewrite Qlt_alt. destruct (a ?= b); intuition congruence.
Qed.

Lemma Qltb_ge (a b : Q) : Qltb a b = false <-> b <= a.
Proof.
  rewrite <- not_true_iff_false, Qltb_lt. split.
  - apply Qnot_lt_le.
  - apply Qle_not_lt.
Qed.

Lemma Qle_bool_true (a b : Q) : Qle_bool a b = true <-> a <= b.
Proof. apply Qle_bool_iff. Qed.

Lemma Qeq_bool_true (a b : Q) : Qeq_bool a b = true <-> a == b.
Proof. apply Qeq_bool_iff. Qed.

Lemma Qeq_bool_false (a b : Q) : Qeq_bool a b = false <-> ~ a == b.
Proof.
  rewrite <- not_true_iff_false, Qeq_bool_true. tauto.
Qed.

Lemma leb_Num (a b : Q) : leb (Num a) (Num b) = true <-> a <= b.
Proof. apply Qle_bool_iff. Qed.

Lemma ltb_Num (a b : Q) : ltb (Num a) (Num b) = true <-> a < b.
Proof. apply Qltb_lt. Qed.

(** ** Arithmetic on finite numbers computes on the rationals *)

Lemma add_Num (a b : Q) : add (Num a) (Num b) = Num (Qred (a + b)).
Proof. reflexivity. Qed.

Lemma sub_Num (a b : Q) : sub (Num a) (Num b) = Num (Qred (a + - b)).
Proof. reflexivity. Qed.

Lemma mul_Num (a b : Q) : mul (Num a) (Num b) = Num (Qred (a * b)).
Proof. reflexivity. Qed.

Lemma floor_Num (a : Q) : floor (Num a) = Num (inject_Z (Qfloor a)).
Proof. reflexivity. Qed.

Lemma ceil_Num (a : Q) : ceil (Num a) = Num (inject_Z (Qceiling a)).
Proof. reflexivity. Qed.

Lemma abs_Num (a : Q) : abs (Num a) = Num (Qabs a).
Proof. reflexivity. Qed.

Lemma rem1_Num (a : Q) :
  rem1 (Num a) = Num (Qred (a - inject_Z (Qtrunc a))).
Proof. reflexivity. Qed.

Lemma div_Num (a b : Q) :
  ~ b == 0 -> div (Num a) (Num b) = Num (Qred (a / b)).
Proof.
  intros H. unfold div. apply Qeq_bool_false in H. now rewrite H.
Qed.

Lemma of_nat_Num (n : nat) : of_nat n = Num (inject_Z (Z.of_nat n)).
Proof. reflexivity. Qed.

Lemma length_num_Num {A : Type} (l : list A) :
  length_num l = Num (inject_Z (Z.of_nat (List.length l))).
Proof. reflexivity. Qed.

Lemma toNumber_Some (x : num) : toNumber (Some x) = x.
Proof. reflexivity. Qed.

Create Rewrite HintDb num_simpl.
#[local] Hint Rewrite @length_num_Num of_nat_Num add_Num sub_Num mul_Num
  floor_Num ceil_Num abs_Num rem1_Num toNumber_Some : num_simpl.

Ltac num_simpl := unfold one, zero; autorewrite with num_simpl.

(** ** Sorting an array of finite numbers *)

Lemma gtb_sub_Num (x y : Q) :
  gtb (sub (Num x) (Num y)) zero = Qltb y x.
Proof.
  unfold gtb. rewrite sub_Num. unfold zero.
  change (Qltb 0 (Qred (x + - y)) = Qltb y x).
  destruct (Qltb y x) eqn:E.
  - apply Qltb_lt in E. apply Qltb_lt. rewrite Qred_correct. lra.
  - apply Qltb_ge in E. apply Qltb_ge. rewrite Qred_correct. lra.
Qed.

Lemma insert_nums (x : Q) (l : list Q) :
  StronglySorted Qle l ->
  exists l', insert_by sub (Num x) (nums l) = nums l'
             /\ Permutation (x :: l) l' /\ StronglySorted Qle l'.
Proof.
  induction l as [|y t IH]; intros Hs.
  - exists [x]. simpl. repeat split; auto. constructor; constructor.
  - inversion Hs as [|? ? Ht Hy]; subst.
    cbn [nums map insert_by]. rewrite gtb_sub_Num.
    destruct (Qltb y x) eqn:E.
    + apply Qltb_lt in E.
      destruct (IH Ht) as (l' & Heq & Hp & Hs').
      exists (y :: l'). unfold nums in *. cbn [map]. rewrite Heq.
      repeat split.
      * rewrite perm_swap. now apply perm_skip.
      * constructor; auto.
        rewrite Forall_forall in *. intros z Hz.
        apply (Permutation_in _ (Permutation_sym Hp)) in Hz.
        destruct Hz as [<-|Hz]; [lra | auto].
    + apply Qltb_ge in E.
      exists (x :: y :: t). repeat split; auto.
      constructor; auto. constructor; auto.
      rewrite Forall_forall in *. intros z Hz.
      specialize (Hy z Hz). lra.
Qed.

Lemma sort_nums (l : list Q) :
  exists l', sort_by sub (nums l) = nums l'
             /\ Permutation l l' /\ StronglySorted Qle l'.
Proof.
  induction l as [|x t (l0 & Heq & Hp & Hs)].
  - exists []. repeat split; constructor.
  - destruct (insert_nums x Hs) as (l' & Heq' & Hp' & Hs').
    exists l'. unfold sort_by in *. simpl. rewrite Heq, Heq'.
    repeat split; auto.
    transitivity (x :: l0); auto.
Qed.

Lemma sorted_nth_le (l : list Q) (i j : nat) (a b : Q) :
  StronglySorted Qle l -> (i <= j)%nat ->
  nth_error l i = Some a -> nth_error l j = Some b -> a <= b.
Proof.
  intros Hs. revert i j a b.
  induction Hs as [|x t Ht IH Hx]; intros i j a b Hij Hi Hj.
  - destruct i; discriminate.
  - destruct i, j; simpl in *; try lia.
    + injection Hi as <-. injection Hj as <-. apply Qle_refl.
    + injection Hi as <-. rewrite Forall_forall in Hx.
      apply Hx. eapply nth_error_In; eauto.
    + apply (IH i j); auto. lia.
Qed.

(** ** Reading an array at a computed index *)

Lemma index_Z {A : Type} (arr : list A) (q : Q) (z : Z) :
  q == inject_Z z -> (0 <= z)%Z ->
  index arr (Num q) = nth_error arr (Z.to_nat z).
Proof.
  intros Hq Hz. unfold index.
  assert (Hf : Qfloor q = z) by (rewrite Hq; apply Qfloor_Z).
  rewrite Hf.
  assert (E1 : Qeq_bool q (inject_Z z) = true) by (now apply Qeq_bool_true).
  assert (E2 : (0 <=? z)%Z = true) by (now apply Z.leb_le).
  now rewrite E1, E2.
Qed.

Lemma nth_error_nums (l : list Q) (i : nat) :
  nth_error (nums l) i = option_map Num (nth_error l i).
Proof. unfold nums. apply nth_error_map. Qed.

Lemma nums_inj (l l' : list Q) : nums l = nums l' -> l = l'.
Proof.
  revert l'. induction l as [|a l IH]; intros [|b l']; simpl;
    try discriminate; auto.
  intros H. injection H as -> H. f_equal. auto.
Qed.

Lemma length_nums (l : list Q) : List.length (nums l) = List.length l.
Proof. unfold nums. apply length_map. Qed.

Lemma nearest_rank_lt (n : nat) (p : Q) :
  (0 < n)%nat -> p <= 1 -> (nearest_rank n p < n)%nat.
Proof.
  intros Hn Hp. unfold nearest_rank.
  assert (Hc : (Qceiling (inject_Z (Z.of_nat n) * p) <= Z.of_nat n)%Z).
  { rewrite <- (Qceiling_Z (Z.of_nat n)) at 2.
    apply Qceiling_resp_le.
    assert (0 <= inject_Z (Z.of_nat n)).
    { change 0 with (inject_Z 0). rewrite <- Zle_Qle. lia. }
    nra. }
  lia.
Qed.

Lemma nearest_rank_mono (n : nat) (p p' : Q) :
  p <= p' -> (nearest_rank n p <= nearest_rank n p')%nat.
Proof.
  intros Hp. unfold nearest_rank.
  assert (Hc : (Qceiling (inject_Z (Z.of_nat n) * p)
                <= Qceiling (inject_Z (Z.of_nat n) * p'))%Z).
  { apply Qceiling_resp_le.
    assert (0 <= inject_Z (Z.of_nat n)).
    { change 0 with (inject_Z 0). rewrite <- Zle_Qle. lia. }
    nra. }
  lia.
Qed.

(** The nearest-rank [percentile] of an array of finite numbers reads a
    sorted permutation of the array at the nearest rank. *)
Lemma percentile_nums (l : list Q) (p : Q) :
  exists sorted,
    Permutation l sorted /\ StronglySorted Qle sorted
    /\ sort_by sub (nums l) = nums sorted
    /\ StatisticalUtils.percentile (nums l) (Num p)
       = option_map Num (nth_error sorted (nearest_rank (List.length l) p)).
Proof.
  destruct (sort_nums l) as (sorted & Heq & Hp & Hs).
  exists sorted. repeat split; auto.
  unfold StatisticalUtils.percentile. rewrite Heq.
  num_simpl. rewrite length_nums, <- (Permutation_length Hp).
  unfold nearest_rank.
  assert (Ec : Qceiling (Qred (inject_Z (Z.of_nat (List.length l)) * p))
               = Qceiling (inject_Z (Z.of_nat (List.length l)) * p))
    by (rewrite Qred_correct; reflexivity).
  rewrite Ec. clear Ec.
  set (c := Qceiling (inject_Z (Z.of_nat (List.length l)) * p)).
  set (q := Qred (inject_Z c + - (1))).
  assert (Hq : q == inject_Z (c - 1)).
  { unfold q. rewrite Qred_correct. unfold Z.sub. rewrite inject_Z_plus.
    reflexivity. }
  unfold max2.
  destruct (ltb (Num 0) (Num q)) eqn:E.
  - apply ltb_Num in E.
    assert (Hc : (0 < c - 1)%Z) by (rewrite Zlt_Qlt, <- Hq; exact E).
    rewrite (@index_Z _ _ _ (c - 1)%Z); [|exact Hq|lia].
    rewrite Z.max_r by lia. apply nth_error_nums.
  - apply Qltb_ge in E.
    assert (Hc : (c - 1 <= 0)%Z) by (rewrite Zle_Qle, <- Hq; exact E).
    rewrite (@index_Z _ _ _ 0%Z); [|reflexivity|lia].
    rewrite Z.max_l by lia. apply nth_error_nums.
Qed.

(** ** The collector's interpolating percentile *)

Lemma nth_error_some_lt {A : Type} (l : list A) (i : nat) :
  (i < List.length l)%nat -> exists x, nth_error l i = Some x.
Proof.
  intros H. destruct (nth_error l i) eqn:E; eauto.
  apply nth_error_None in E. lia.
Qed.

Lemma inject_Z_nat_nonneg (n : nat) : 0 <= inject_Z (Z.of_nat n).
Proof. change 0 with (inject_Z 0). rewrite <- Zle_Qle. lia. Qed.

Lemma inject_Z_nat_pos (n : nat) : (0 < n)%nat -> 1 <= inject_Z (Z.of_nat n).
Proof. intros H. change 1 with (inject_Z 1). rewrite <- Zle_Qle. lia. Qed.

(** The position [(n - 1) p] that the collector interpolates at. *)
Lemma position_bounds (n : nat) (p : Q) :
  (0 < n)%nat -> 0 <= p -> p <= 1 ->
  let t := position n p in
  0 <= t /\ (0 <= Qfloor t)%Z /\ (Qfloor t <= Qceiling t)%Z
  /\ (Qceiling t <= Z.of_nat n - 1)%Z.
Proof.
  intros Hn H0 H1 t.
  pose proof (inject_Z_nat_pos Hn) as Hn'.
  assert (Ht0 : 0 <= t) by (unfold t, position; nra).
  assert (Ht1 : t <= inject_Z (Z.of_nat n - 1)).
  { unfold Z.sub. rewrite inject_Z_plus. change (inject_Z (- (1))) with (- (1)).
    unfold t, position. nra. }
  repeat split; auto.
  - rewrite <- (Qfloor_Z 0). now apply Qfloor_resp_le.
  - rewrite Zle_Qle. apply Qle_floor_ceiling.
  - rewrite <- (Qceiling_Z (Z.of_nat n - 1)). now apply Qceiling_resp_le.
Qed.

Lemma Qtrunc_nonneg (q : Q) : 0 <= q -> Qtrunc q = Qfloor q.
Proof.
  intros H. unfold Qtrunc.
  apply Qltb_ge in H. now rewrite H.
Qed.

(** On a non-empty array of finite numbers and for [p] in [[0, 1]], the
    collector's percentile is the interpolation between the elements at the
    floor and at the ceiling of the position. *)
Lemma collector_percentile_nums (s : list Q) (p : Q) :
  s <> [] -> 0 <= p -> p <= 1 ->
  let t := position (List.length s) p in
  let w := weight (List.length s) p in
  exists lo hi v,
    nth_error s (Z.to_nat (Qfloor t)) = Some lo
    /\ nth_error s (Z.to_nat (Qceiling t)) = Some hi
    /\ v == lo * (1 - w) + hi * w
    /\ BasicRunnerStats.percentile (nums s) (Num p) = Some (Num v).
Proof.
  intros Hne H0 H1 t w.
  assert (Hn : (0 < List.length s)%nat) by (destruct s; simpl; [congruence|lia]).
  destruct (position_bounds Hn H0 H1) as (Ht0 & Hf0 & Hfc & Hc).
  fold t in Ht0, Hf0, Hfc, Hc.
  destruct (@nth_error_some_lt _ s (Z.to_nat (Qfloor t))) as [lo Hlo]; [lia|].
  destruct (@nth_error_some_lt _ s (Z.to_nat (Qceiling t))) as [hi Hhi]; [lia|].
  set (t' := Qred (Qred (inject_Z (Z.of_nat (List.length s)) + - (1)) * p)).
  assert (Ht' : t' == t).
  { unfold t', t, position. rewrite !Qred_correct. reflexivity. }
  assert (Ef : Qfloor t' = Qfloor t) by (rewrite Ht'; reflexivity).
  assert (Ec : Qceiling t' = Qceiling t) by (rewrite Ht'; reflexivity).
  assert (Et : Qtrunc t' = Qfloor t).
  { rewrite Qtrunc_nonneg, Ef; [reflexivity|]. rewrite Ht'. exact Ht0. }
  assert (Eg : geb (Num (inject_Z (Qceiling t)))
                   (Num (inject_Z (Z.of_nat (List.length s)))) = false).
  { unfold geb. apply not_true_iff_false. rewrite leb_Num, <- Zle_Qle. lia. }
  assert (Hperc : exists v,
             BasicRunnerStats.percentile (nums s) (Num p) = Some (Num v)
             /\ v == lo * (1 - w) + hi * w).
  { unfold BasicRunnerStats.percentile. num_simpl. rewrite length_nums.
    fold t'. rewrite Ef, Ec, Et, Eg.
    rewrite (@index_Z _ _ _ (Qfloor t)) by (reflexivity || lia).
    rewrite (@index_Z _ _ _ (Qceiling t)) by (reflexivity || lia).
    rewrite !nth_error_nums, Hlo, Hhi.
    cbn [option_map]. num_simpl.
    eexists. split; [reflexivity|].
    rewrite !Qred_correct, Ht'. unfold w, weight. fold t. ring. }
  destruct Hperc as (v & Hv & Hvw).
  exists lo, hi, v. auto.
Qed.

(* ================================================================== *)
(** * C3: the two percentile computations *)
(* ================================================================== *)




(* ================================================================== *)
(** * C4: the reported time statistics are ordered *)
(* ================================================================== *)

Lemma Qceiling_le_floor_succ (t : Q) : (Qceiling t <= Qfloor t + 1)%Z.
Proof.
  rewrite <- (Qceiling_Z (Qfloor t + 1)).
  apply Qceiling_resp_le. apply Qlt_le_weak, Qlt_floor.
Qed.

Lemma weight_bounds (n : nat) (p : Q) :
  0 <= weight n p /\ weight n p < 1.
Proof.
  unfold weight. set (t := position n p).
  pose proof (Qfloor_le t) as Hf. pose proof (Qlt_floor t) as Hl.
  rewrite inject_Z_plus in Hl. change (inject_Z 1) with 1 in Hl.
  split; lra.
Qed.

(** An interpolated value lies between its two neighbours. *)
Lemma interp_between (lo hi w v : Q) :
  lo <= hi -> 0 <= w -> w <= 1 -> v == lo * (1 - w) + hi * w ->
  lo <= v /\ v <= hi.
Proof. intros Hlh H0 H1 Hv. rewrite Hv. split; nra. Qed.

Section Interpolation.

Variable s : list Q.
Hypothesis Hsorted : StronglySorted Qle s.

Let n := List.length s.

Lemma position_mono (p p' : Q) :
  (0 < n)%nat -> p <= p' -> position n p <= position n p'.
Proof.
  intros Hn Hp. unfold position.
  pose proof (inject_Z_nat_pos Hn). nra.
Qed.

Lemma interpolates_mono (p p' v v' : Q) :
  (0 < n)%nat -> 0 <= p -> p <= p' -> p' <= 1 ->
  interpolates s p v -> interpolates s p' v' -> v <= v'.
Proof.
  intros Hn H0 Hpp H1 (lo & hi & Hlo & Hhi & Hv) (lo' & hi' & Hlo' & Hhi' & Hv').
  assert (H0' : 0 <= p') by lra.
  assert (H1' : p <= 1) by lra.
  destruct (position_bounds Hn H0 H1') as (Ht0 & Hf0 & Hfc & Hc).
  destruct (position_bounds Hn H0' H1) as (Ht0' & Hf0' & Hfc' & Hc').
  fold n in Hlo, Hhi, Hlo', Hhi', Hv, Hv'.
  set (t := position n p) in *. set (t' := position n p') in *.
  assert (Htt : t <= t') by (now apply position_mono).
  assert (Hff : (Qfloor t <= Qfloor t')%Z) by (now apply Qfloor_resp_le).
  assert (Hcc : (Qceiling t <= Qceiling t')%Z) by (now apply Qceiling_resp_le).
  pose proof (weight_bounds n p) as [Hw0 Hw1].
  pose proof (weight_bounds n p') as [Hw0' Hw1'].
  assert (Hlh : lo <= hi).
  { apply (sorted_nth_le Hsorted (i := Z.to_nat (Qfloor t))
             (j := Z.to_nat (Qceiling t))); auto. lia. }
  assert (Hlh' : lo' <= hi').
  { apply (sorted_nth_le Hsorted (i := Z.to_nat (Qfloor t'))
             (j := Z.to_nat (Qceiling t'))); auto. lia. }
  destruct (interp_between Hlh Hw0 (Qlt_le_weak _ _ Hw1) Hv) as [Hb1 Hb2].
  destruct (interp_between Hlh' Hw0' (Qlt_le_weak _ _ Hw1') Hv') as [Hb1' Hb2'].
  destruct (Z.eq_dec (Qfloor t) (Qfloor t')) as [Ef|Nf].
  - (* same floor *)
    rewrite <- Ef in Hlo'. rewrite Hlo in Hlo'. injection Hlo' as <-.
    destruct (Z.eq_dec (Qceiling t) (Qceiling t')) as [Ec|Nc].
    + rewrite <- Ec in Hhi'. rewrite Hhi in Hhi'. injection Hhi' as <-.
      assert (Hww : weight n p <= weight n p').
      { unfold weight. fold t t'. rewrite Ef. lra. }
      rewrite Hv, Hv'. nra.
    + (* [t] is an integer: its weight is 0 *)
      pose proof (Qceiling_le_floor_succ t').
      assert (Ec : Qceiling t = Qfloor t) by lia.
      assert (Hw : weight n p == 0).
      { unfold weight. fold t.
        pose proof (Qfloor_le t) as Hf. pose proof (Qle_ceiling t) as Hcl.
        rewrite Ec in Hcl. lra. }
      assert (v == lo) by (rewrite Hv, Hw; ring).
      lra.
  - (* the floor moved up: a whole rank lies between the two *)
    pose proof (Qceiling_le_floor_succ t).
    assert (hi <= lo').
    { apply (sorted_nth_le Hsorted (i := Z.to_nat (Qceiling t))
               (j := Z.to_nat (Qfloor t'))); auto. lia. }
    lra.
Qed.

End Interpolation.

Lemma collector_percentile_interpolates (s : list Q) (p : Q) :
  s <> [] -> 0 <= p -> p <= 1 ->
  exists v, interpolates s p v
            /\ BasicRunnerStats.percentile (nums s) (Num p) = Some (Num v).
Proof.
  intros Hne H0 H1.
  destruct (collector_percentile_nums Hne H0 H1)
    as (lo & hi & v & Hlo & Hhi & Hv & Hp).
  exists v. split; auto. exists lo, hi. auto.
Qed.

Lemma interpolates_ge_first (s : list Q) (p v a : Q) :
  StronglySorted Qle s -> s <> [] -> 0 <= p -> p <= 1 ->
  interpolates s p v -> nth_error s 0 = Some a -> a <= v.
Proof.
  intros Hs Hne H0 H1 (lo & hi & Hlo & Hhi & Hv) Ha.
  assert (Hn : (0 < List.length s)%nat) by (destruct s; simpl; [congruence|lia]).
  destruct (position_bounds Hn H0 H1) as (Ht0 & Hf0 & Hfc & Hc).
  pose proof (weight_bounds (List.length s) p) as [Hw0 Hw1].
  assert (Hlh : lo <= hi).
  { eapply (sorted_nth_le Hs); [|exact Hlo|exact Hhi]. lia. }
  destruct (interp_between Hlh Hw0 (Qlt_le_weak _ _ Hw1) Hv) as [Hb1 Hb2].
  assert (a <= lo).
  { eapply (sorted_nth_le Hs); [|exact Ha|exact Hlo]. lia. }
  lra.
Qed.

Lemma interpolates_le_last (s : list Q) (p v b : Q) :
  StronglySorted Qle s -> s <> [] -> 0 <= p -> p <= 1 ->
  interpolates s p v -> nth_error s (List.length s - 1) = Some b -> v <= b.
Proof.
  intros Hs Hne H0 H1 (lo & hi & Hlo & Hhi & Hv) Hb.
  assert (Hn : (0 < List.length s)%nat) by (destruct s; simpl; [congruence|lia]).
  destruct (position_bounds Hn H0 H1) as (Ht0 & Hf0 & Hfc & Hc).
  pose proof (weight_bounds (List.length s) p) as [Hw0 Hw1].
  assert (Hlh : lo <= hi).
  { eapply (sorted_nth_le Hs); [|exact Hlo|exact Hhi]. lia. }
  destruct (interp_between Hlh Hw0 (Qlt_le_weak _ _ Hw1) Hv) as [Hb1 Hb2].
  assert (hi <= b).
  { eapply (sorted_nth_le Hs); [|exact Hhi|exact Hb]. lia. }
  lra.
Qed.

(** The basic collector: [computeStats]. *)
Lemma computeStats_monotonic (samples : list Q) :
  samples <> [] ->
  let t := BasicRunnerStats.computeStats (nums samples) in
  vle (BasicRunnerStats.min t) (BasicRunnerStats.p50 t)
  /\ vle (BasicRunnerStats.p50 t) (BasicRunnerStats.p75 t)
  /\ vle (BasicRunnerStats.p75 t) (BasicRunnerStats.p99 t)
  /\ vle (BasicRunnerStats.p99 t) (BasicRunnerStats.p999 t)
  /\ vle (BasicRunnerStats.p999 t) (BasicRunnerStats.max t).
Proof.
  intros Hne.
  destruct (sort_nums samples) as (s & Hsort & Hp & Hs).
  assert (Hne' : s <> []).
  { intros ->. apply Permutation_sym, Permutation_nil in Hp. contradiction. }
  assert (Hn : (0 < List.length s)%nat) by (destruct s; simpl; [congruence|lia]).
  unfold BasicRunnerStats.computeStats. cbn zeta. rewrite Hsort.
  cbn [BasicRunnerStats.min BasicRunnerStats.max BasicRunnerStats.p50
       BasicRunnerStats.p75 BasicRunnerStats.p99 BasicRunnerStats.p999].
  destruct (@collector_percentile_interpolates s (1 # 2) Hne')
    as (v50 & I50 & E50); [lra|lra|].
  destruct (@collector_percentile_interpolates s (3 # 4) Hne')
    as (v75 & I75 & E75); [lra|lra|].
  destruct (@collector_percentile_interpolates s (99 # 100) Hne')
    as (v99 & I99 & E99); [lra|lra|].
  destruct (@collector_percentile_interpolates s (999 # 1000) Hne')
    as (v999 & I999 & E999); [lra|lra|].
  rewrite E50, E75, E99, E999.
  destruct (@nth_error_some_lt _ s 0%nat Hn) as [a Ha].
  destruct (@nth_error_some_lt _ s (List.length s - 1)%nat) as [b Hb]; [lia|].
  assert (Emin : index (nums s) zero = Some (Num a)).
  { unfold zero. rewrite (@index_Z _ _ _ 0%Z); [|reflexivity|lia].
    simpl Z.to_nat. now rewrite nth_error_nums, Ha. }
  assert (Emax : index (nums s) (sub (length_num (nums s)) one) = Some (Num b)).
  { num_simpl. rewrite length_nums.
    rewrite (@index_Z _ _ _ (Z.of_nat (List.length s) - 1)%Z).
    - replace (Z.to_nat (Z.of_nat (List.length s) - 1))
        with (List.length s - 1)%nat by lia.
      now rewrite nth_error_nums, Hb.
    - rewrite Qred_correct. unfold Z.sub. rewrite inject_Z_plus. reflexivity.
    - lia. }
  rewrite Emin, Emax. unfold vle. cbn [toNumber]. rewrite !leb_Num.
  repeat split.
  - apply (interpolates_ge_first (p := 1 # 2) Hs Hne'); auto; lra.
  - apply (interpolates_mono Hs (p := 1 # 2) (p' := 3 # 4)); auto; lra.
  - apply (interpolates_mono Hs (p := 3 # 4) (p' := 99 # 100)); auto; lra.
  - apply (interpolates_mono Hs (p := 99 # 100) (p' := 999 # 1000));
      auto; lra.
  - apply (interpolates_le_last (p := 999 # 1000) Hs Hne'); auto; lra.
Qed.

(** The adaptive wrapper: [computeTimeStats]. *)

Lemma min2_Num (a b : Q) :
  exists m, min2 (Num a) (Num b) = Num m /\ m <= a /\ m <= b.
Proof.
  unfold min2. destruct (ltb (Num b) (Num a)) eqn:E.
  - apply ltb_Num in E. exists b. repeat split; lra.
  - apply Qltb_ge in E. exists a. repeat split; lra.
Qed.

Lemma max2_Num (a b : Q) :
  exists m, max2 (Num a) (Num b) = Num m /\ a <= m /\ b <= m.
Proof.
  unfold max2. destruct (ltb (Num a) (Num b)) eqn:E.
  - apply ltb_Num in E. exists b. repeat split; lra.
  - apply Qltb_ge in E. exists a. repeat split; lra.
Qed.

Lemma fold_min2_Num (l : list Q) (a : Q) :
  exists m, fold_left min2 (nums l) (Num a) = Num m
            /\ m <= a /\ forall x, In x l -> m <= x.
Proof.
  revert a. induction l as [|y t IH]; intros a.
  - exists a. repeat split; [lra | intros x []].
  - destruct (min2_Num a y) as (m0 & E0 & Ha & Hy).
    destruct (IH m0) as (m & Em & Hm & Hall).
    exists m. cbn [nums map fold_left]. rewrite E0. fold (nums t).
    repeat split; auto; [lra|].
    intros x [<-|Hx]; [lra | auto].
Qed.

Lemma fold_max2_Num (l : list Q) (a : Q) :
  exists m, fold_left max2 (nums l) (Num a) = Num m
            /\ a <= m /\ forall x, In x l -> x <= m.
Proof.
  revert a. induction l as [|y t IH]; intros a.
  - exists a. repeat split; [lra | intros x []].
  - destruct (max2_Num a y) as (m0 & E0 & Ha & Hy).
    destruct (IH m0) as (m & Em & Hm & Hall).
    exists m. cbn [nums map fold_left]. rewrite E0. fold (nums t).
    repeat split; auto; [lra|].
    intros x [<-|Hx]; [lra | auto].
Qed.

Lemma fold_min2_nums (l : list Q) :
  l <> [] ->
  exists m, fold_left min2 (nums l) PosInf = Num m /\ forall x, In x l -> m <= x.
Proof.
  destruct l as [|y t]; [congruence|]. intros _.
  destruct (fold_min2_Num t y) as (m & Em & Hm & Hall).
  exists m. split; [exact Em|].
  intros x [<-|Hx]; auto.
Qed.

Lemma fold_max2_nums (l : list Q) :
  l <> [] ->
  exists m, fold_left max2 (nums l) NegInf = Num m /\ forall x, In x l -> x <= m.
Proof.
  destruct l as [|y t]; [congruence|]. intros _.
  destruct (fold_max2_Num t y) as (m & Em & Hm & Hall).
  exists m. split; [exact Em|].
  intros x [<-|Hx]; auto.
Qed.

Lemma div_msToNs (a : Q) :
  div (Num a) AdaptiveStats.msToNs = Num (Qred (a / 1000000)).
Proof. apply div_Num. intros H. discriminate H. Qed.

Lemma le_div_msToNs (a b : Q) :
  a <= b -> le (div (Num a) AdaptiveStats.msToNs) (div (Num b) AdaptiveStats.msToNs).
Proof.
  intros H. unfold le. rewrite !div_msToNs, leb_Num, !Qred_correct.
  unfold Qdiv. apply Qmult_le_compat_r; [exact H|].
  unfold Qle; simpl; lia.
Qed.

(** The nearest-rank percentiles of one array are ordered like their
    arguments, and lie among the elements of the array. *)
Lemma percentile_nums_ordered (l : list Q) :
  l <> [] ->
  exists rank : Q -> Q,
    (forall p, p <= 1 ->
       StatisticalUtils.percentile (nums l) (Num p) = Some (Num (rank p))
       /\ In (rank p) l)
    /\ (forall p p', p <= p' -> p' <= 1 -> rank p <= rank p').
Proof.
  intros Hne.
  destruct (sort_nums l) as (s & Hsort & Hp & Hs).
  assert (Hlen : List.length s = List.length l)
    by (symmetry; now apply Permutation_length).
  assert (Hn : (0 < List.length l)%nat)
    by (destruct l; simpl; [congruence|lia]).
  exists (fun p => nth (nearest_rank (List.length l) p) s 0).
  split.
  - intros p Hp1.
    pose proof (nearest_rank_lt (p := p) Hn Hp1) as Hlt.
    destruct (percentile_nums l p) as (s' & _ & _ & Hsort' & Hperc).
    assert (s' = s).
    { rewrite Hsort in Hsort'. symmetry. now apply nums_inj. }
    subst s'. rewrite Hperc.
    rewrite (nth_error_nth' s 0) by lia.
    split; [reflexivity|].
    apply (Permutation_in _ (Permutation_sym Hp)).
    apply nth_In. lia.
  - intros p p' Hpp Hp1.
    assert (Hp1' : p <= 1) by lra.
    pose proof (nearest_rank_lt Hn Hp1) as Hlt.
    pose proof (nearest_rank_lt Hn Hp1') as Hlt'.
    apply (sorted_nth_le Hs (i := nearest_rank (List.length l) p)
             (j := nearest_rank (List.length l) p')).
    + now apply nearest_rank_mono.
    + apply nth_error_nth'. lia.
    + apply nth_error_nth'. lia.
Qed.

Lemma computeTimeStats_monotonic (samplesNs : list Q) :
  samplesNs <> [] ->
  let t := AdaptiveStats.computeTimeStats (nums samplesNs) in
  le (AdaptiveStats.t_min t) (AdaptiveStats.t_p25 t)
  /\ le (AdaptiveStats.t_p25 t) (AdaptiveStats.t_p50 t)
  /\ le (AdaptiveStats.t_p50 t) (AdaptiveStats.t_p75 t)
  /\ le (AdaptiveStats.t_p75 t) (AdaptiveStats.t_p95 t)
  /\ le (AdaptiveStats.t_p95 t) (AdaptiveStats.t_p99 t)
  /\ le (AdaptiveStats.t_p99 t) (AdaptiveStats.t_p999 t)
  /\ le (AdaptiveStats.t_p999 t) (AdaptiveStats.t_max t).
Proof.
  intros Hne.
  destruct (fold_min2_nums Hne) as (lo & Elo & Hlo).
  destruct (fold_max2_nums Hne) as (hi & Ehi & Hhi).
  destruct (percentile_nums_ordered Hne) as (rank & Hrank & Hmono).
  destruct (Hrank (1 # 4)) as [E25 I25]; [lra|].
  destruct (Hrank (1 # 2)) as [E50 I50]; [lra|].
  destruct (Hrank (3 # 4)) as [E75 I75]; [lra|].
  destruct (Hrank (95 # 100)) as [E95 I95]; [lra|].
  destruct (Hrank (99 # 100)) as [E99 I99]; [lra|].
  destruct (Hrank (999 # 1000)) as [E999 I999]; [lra|].
  unfold AdaptiveStats.computeTimeStats, AdaptiveStats.getMinMaxSum,
    AdaptiveStats.getPercentiles, AdaptiveStats.getRobustMetrics.
  cbn [AdaptiveStats.t_min AdaptiveStats.t_max AdaptiveStats.t_p25
       AdaptiveStats.t_p50 AdaptiveStats.t_p75 AdaptiveStats.t_p95
       AdaptiveStats.t_p99 AdaptiveStats.t_p999].
  rewrite Elo, Ehi, E25, E50, E75, E95, E99, E999. cbn [toNumber].
  repeat split; apply le_div_msToNs; auto; apply Hmono; lra.
Qed.

Lemma nums_scaled (samplesMs : list Q) :
  map (fun s => mul s AdaptiveStats.msToNs) (nums samplesMs)
  = nums (map (fun q => Qred (q * 1000000)) samplesMs).
Proof. unfold nums. rewrite !map_map. reflexivity. Qed.

(** In exact arithmetic, for a non-empty list of samples, the time statistics
    that the basic collector reports ([computeStats]: min, p50, p75, p99,
    p999, max) and those that the adaptive wrapper reports
    ([computeTimeStats] on the samples converted to nanoseconds, as
    [buildResults] calls it: min, p25, p50, p75, p95, p99, p999, max) are
    non-decreasing in that order. *)
Lemma time_stats_monotonic_exact (samples : list Q) :
  samples <> [] ->
  (let t := BasicRunnerStats.computeStats (nums samples) in
   vle (BasicRunnerStats.min t) (BasicRunnerStats.p50 t)
   /\ vle (BasicRunnerStats.p50 t) (BasicRunnerStats.p75 t)
   /\ vle (BasicRunnerStats.p75 t) (BasicRunnerStats.p99 t)
   /\ vle (BasicRunnerStats.p99 t) (BasicRunnerStats.p999 t)
   /\ vle (BasicRunnerStats.p999 t) (BasicRunnerStats.max t))
  /\
  (let t := AdaptiveStats.computeTimeStats
              (map (fun s => mul s AdaptiveStats.msToNs) (nums samples)) in
   le (AdaptiveStats.t_min t) (AdaptiveStats.t_p25 t)
   /\ le (AdaptiveStats.t_p25 t) (AdaptiveStats.t_p50 t)
   /\ le (AdaptiveStats.t_p50 t) (AdaptiveStats.t_p75 t)
   /\ le (AdaptiveStats.t_p75 t) (AdaptiveStats.t_p95 t)
   /\ le (AdaptiveStats.t_p95 t) (AdaptiveStats.t_p99 t)
   /\ le (AdaptiveStats.t_p99 t) (AdaptiveStats.t_p999 t)
   /\ le (AdaptiveStats.t_p999 t) (AdaptiveStats.t_max t)).
Proof.
  intros Hne. split.
  - now apply computeStats_monotonic.
  - rewrite nums_scaled. apply computeTimeStats_monotonic.
    destruct samples; [congruence | discriminate].
Qed.

(** C4.  In binary64 the interpolation [lo * (1 - w) + hi * w] of the
    collector's percentile is not monotonic: it can round below [lo] or above
    [hi] even when the two are equal.  For the two samples [1.3, 1.3],
    [computeStats] reports p75 = 1.3 and p99 = 1.2999999999999998, so that
    min <= p99 and p75 <= p99 both fail; for [1.7, 1.7] it reports
    p99 = 1.7000000000000002, above p999 and max. *)
#[warnings="-inexact-float"]
Theorem C4_collector_binary64_not_monotonic :
  let t := CollectorBinary64.computeStats [1.3; 1.3]%float in
  let u := CollectorBinary64.computeStats [1.7; 1.7]%float in
  CollectorBinary64.min t = Some 1.3%float
  /\ CollectorBinary64.p75 t = Some 1.3%float
  /\ CollectorBinary64.p99 t = Some 1.2999999999999998%float
  /\ PrimFloat.leb (CollectorBinary64.toNumber (CollectorBinary64.p75 t))
                   (CollectorBinary64.toNumber (CollectorBinary64.p99 t))
     = false
  /\ PrimFloat.leb (CollectorBinary64.toNumber (CollectorBinary64.min t))
                   (CollectorBinary64.toNumber (CollectorBinary64.p99 t))
     = false
  /\ CollectorBinary64.p99 u = Some 1.7000000000000002%float
  /\ CollectorBinary64.max u = Some 1.7%float
  /\ PrimFloat.leb (CollectorBinary64.toNumber (CollectorBinary64.p99 u))
                   (CollectorBinary64.toNumber (CollectorBinary64.max u))
     = false.
Proof. vm_compute. repeat split. Qed.

(* ================================================================== *)
(** * C8: ranges of the outlier rate, the CV and the MAD *)
(* ================================================================== *)

(** C8, as stated, fails.  On the empty array [findOutliers] returns the rate
    0/0 = NaN, [coefficientOfVariation] returns NaN and
    [medianAbsoluteDeviation] returns [undefined]; and on the array
    [-1, -3], whose mean is negative, the coefficient of variation is
    negative. *)
Lemma C8_ranges_counterexample :
  leb zero (StatisticalUtils.rate (StatisticalUtils.findOutliers (nums []))) = false
  /\ leb (StatisticalUtils.rate (StatisticalUtils.findOutliers (nums []))) one = false
  /\ leb zero (StatisticalUtils.coefficientOfVariation (nums [])) = false
  /\ StatisticalUtils.medianAbsoluteDeviation (nums []) = undefined
  /\ ltb (StatisticalUtils.coefficientOfVariation (nums [-1; -3])) zero = true.
Proof. repeat split; vm_compute; reflexivity. Qed.

Lemma positions_length (cond : num -> bool) (i : nat) (l : list num) :
  (List.length (StatisticalUtils.positions cond i l) <= List.length l)%nat.
Proof.
  revert i. induction l as [|v t IH]; intros i; simpl; [lia|].
  destruct (cond v); simpl; specialize (IH (S i)); lia.
Qed.

Lemma ratio_in_unit (k n : nat) :
  (k <= n)%nat -> (0 < n)%nat ->
  exists r, div (of_nat k) (of_nat n) = Num r /\ 0 <= r /\ r <= 1.
Proof.
  intros Hk Hn. num_simpl.
  pose proof (inject_Z_nat_pos Hn) as Hn'.
  pose proof (inject_Z_nat_nonneg k) as Hk'.
  assert (Hkn : inject_Z (Z.of_nat k) <= inject_Z (Z.of_nat n))
    by (rewrite <- Zle_Qle; lia).
  rewrite div_Num by lra.
  eexists. split; [reflexivity|]. rewrite Qred_correct. split.
  - apply Qle_shift_div_l; lra.
  - apply Qle_shift_div_r; lra.
Qed.

Lemma findOutliers_rate (samples : list Q) :
  samples <> [] ->
  le zero (StatisticalUtils.rate (StatisticalUtils.findOutliers (nums samples)))
  /\ le (StatisticalUtils.rate (StatisticalUtils.findOutliers (nums samples))) one.
Proof.
  intros Hne. unfold StatisticalUtils.findOutliers.
  cbn [StatisticalUtils.rate].
  set (cond := fun v : num => _).
  pose proof (positions_length cond 0 (nums samples)) as Hlen.
  rewrite length_nums in Hlen.
  assert (Hn : (0 < List.length samples)%nat)
    by (destruct samples; simpl; [congruence|lia]).
  unfold length_num. rewrite !length_nums.
  destruct (ratio_in_unit Hlen Hn) as (r & Er & H0 & H1).
  rewrite Er. unfold le, zero, one. rewrite !leb_Num. split; assumption.
Qed.

Lemma deviations_nums (samples : list Q) (m : Q) :
  map (fun x => abs (sub x (toNumber (Some (Num m))))) (nums samples)
  = nums (map (fun x => Qabs (Qred (x + - m))) samples).
Proof. unfold nums. rewrite !map_map. reflexivity. Qed.

Lemma medianAbsoluteDeviation_nonneg (samples : list Q) :
  samples <> [] ->
  vle (Some zero) (StatisticalUtils.medianAbsoluteDeviation (nums samples)).
Proof.
  intros Hne. unfold StatisticalUtils.medianAbsoluteDeviation.
  destruct (percentile_nums_ordered Hne) as (rank & Hrank & _).
  destruct (Hrank (1 # 2)) as [E _]; [lra|].
  rewrite E, deviations_nums.
  assert (Hne' : map (fun x => Qabs (Qred (x + - rank (1 # 2)))) samples <> []).
  { destruct samples; [congruence | discriminate]. }
  destruct (percentile_nums_ordered Hne') as (rank' & Hrank' & _).
  destruct (Hrank' (1 # 2)) as [E' I']; [lra|].
  rewrite E'. unfold vle, zero. cbn [toNumber]. rewrite leb_Num.
  apply in_map_iff in I'. destruct I' as (x & <- & _).
  apply Qabs_nonneg.
Qed.

Lemma sum_nums (l : list Q) (a : Q) :
  exists s, fold_left add (nums l) (Num a) = Num s.
Proof.
  revert a. induction l as [|x t IH]; intros a; simpl; eauto.
Qed.

Lemma Qsquare_nonneg (y : Q) : 0 <= y * y.
Proof.
  destruct (Qlt_le_dec y 0) as [H|H].
  - setoid_replace (y * y) with ((- y) * (- y)) by ring.
    apply Qmult_le_0_compat; lra.
  - now apply Qmult_le_0_compat.
Qed.

Lemma sum_squares_nums (l : list Q) (mean a : Q) :
  0 <= a ->
  exists s,
    fold_left (fun s x => add s (mul (sub x (Num mean)) (sub x (Num mean))))
              (nums l) (Num a) = Num s
    /\ 0 <= s.
Proof.
  revert a. induction l as [|x t IH]; intros a Ha.
  - simpl. eauto.
  - cbn [nums map fold_left]. fold (nums t). num_simpl. apply IH.
    rewrite !Qred_correct.
    pose proof (Qsquare_nonneg (x + - mean)). lra.
Qed.

Lemma Qsqrt_nonneg (q : Q) : 0 <= Qsqrt q.
Proof.
  unfold Qsqrt, Qle. simpl. rewrite Z.mul_1_r. apply Z.sqrt_nonneg.
Qed.

Lemma average_nums (l : list Q) :
  l <> [] -> exists m, StatisticalUtils.average (nums l) = Num m.
Proof.
  intros Hne. unfold StatisticalUtils.average, sum, zero.
  destruct (sum_nums l 0) as (s & Es). rewrite Es.
  num_simpl. rewrite length_nums.
  assert (Hn : (0 < List.length l)%nat) by (destruct l; simpl; [congruence|lia]).
  pose proof (inject_Z_nat_pos Hn).
  rewrite div_Num by lra. eauto.
Qed.

Lemma standardDeviation_nonneg (l : list Q) :
  l <> [] ->
  exists d, StatisticalUtils.standardDeviation (nums l) = Num d /\ 0 <= d.
Proof.
  intros Hne. unfold StatisticalUtils.standardDeviation.
  rewrite length_nums.
  destruct (List.length l <=? 1)%nat eqn:E.
  - exists 0. split; [reflexivity | lra].
  - apply Nat.leb_gt in E.
    destruct (average_nums Hne) as (m & Em). rewrite Em.
    destruct (@sum_squares_nums l m 0) as (ss & Ess & Hss); [lra|].
    unfold zero. rewrite Ess. num_simpl. rewrite length_nums.
    assert (Hn : 2 <= inject_Z (Z.of_nat (List.length l))).
    { change 2 with (inject_Z 2). rewrite <- Zle_Qle. lia. }
    assert (Hd : 1 <= Qred (inject_Z (Z.of_nat (List.length l)) + - (1)))
      by (rewrite Qred_correct; lra).
    rewrite div_Num by lra.
    unfold sqrt.
    set (v := Qred (ss / Qred (inject_Z (Z.of_nat (List.length l)) + - (1)))).
    assert (Hv : 0 <= v).
    { unfold v. rewrite Qred_correct. apply Qle_shift_div_l; lra. }
    apply Qltb_ge in Hv. rewrite Hv.
    eexists. split; [reflexivity|].
    rewrite Qred_correct. apply Qsqrt_nonneg.
Qed.

Lemma coefficientOfVariation_nonneg (samples : list Q) :
  samples <> [] ->
  le zero (StatisticalUtils.average (nums samples)) ->
  le zero (StatisticalUtils.coefficientOfVariation (nums samples)).
Proof.
  intros Hne. unfold StatisticalUtils.coefficientOfVariation.
  destruct (average_nums Hne) as (m & Em). rewrite Em.
  unfold le, zero. rewrite leb_Num. intros Hm.
  cbn [eqb]. destruct (Qeq_bool m 0) eqn:E.
  - rewrite leb_Num. lra.
  - apply Qeq_bool_false in E.
    destruct (standardDeviation_nonneg Hne) as (d & Ed & Hd). rewrite Ed.
    rewrite div_Num by assumption. rewrite leb_Num, Qred_correct.
    apply Qle_shift_div_l; [|lra].
    destruct (Qlt_le_dec 0 m) as [H|H]; [exact H|].
    exfalso. apply E. lra.
Qed.

(** The mean of samples that are not negative is not negative. *)
Lemma sum_nums_nonneg (l : list Q) (a : Q) :
  0 <= a -> (forall x, In x l -> 0 <= x) ->
  exists s, fold_left add (nums l) (Num a) = Num s /\ 0 <= s.
Proof.
  revert a. induction l as [|x t IH]; intros a Ha Hl.
  - exists a. split; [reflexivity|exact Ha].
  - cbn [nums map fold_left]. fold (nums t). rewrite add_Num.
    apply IH.
    + rewrite Qred_correct. assert (0 <= x) by (apply Hl; now left). lra.
    + intros y Hy. apply Hl. now right.
Qed.

Lemma average_nonneg (samples : list Q) :
  samples <> [] -> (forall x, In x samples -> 0 <= x) ->
  le zero (StatisticalUtils.average (nums samples)).
Proof.
  intros Hne Hpos. unfold StatisticalUtils.average, sum, zero.
  destruct (@sum_nums_nonneg samples 0) as (s & Es & Hs); [lra|exact Hpos|].
  rewrite Es. num_simpl. rewrite length_nums.
  assert (Hn : (0 < List.length samples)%nat)
    by (destruct samples; simpl; [congruence|lia]).
  pose proof (inject_Z_nat_pos Hn).
  rewrite div_Num by lra. unfold le. rewrite leb_Num, Qred_correct.
  apply Qle_shift_div_l; lra.
Qed.

(** C8, amended.  For every non-empty array of finite numbers, the outlier
    rate of [findOutliers] lies in [[0, 1]] and the median absolute deviation
    is at least 0; the coefficient of variation is at least 0 when no sample
    is negative and the samples add up to no more than 2^1023, so that
    their sum, and with it their mean, is finite in binary64. *)
Theorem C8_ranges_amended (samples : list Q) :
  samples <> [] ->
  le zero (StatisticalUtils.rate (StatisticalUtils.findOutliers (nums samples)))
  /\ le (StatisticalUtils.rate (StatisticalUtils.findOutliers (nums samples))) one
  /\ ((forall x, In x samples -> 0 <= x) -> Qsum samples <= sum_limit ->
      le zero (StatisticalUtils.coefficientOfVariation (nums samples)))
  /\ vle (Some zero) (StatisticalUtils.medianAbsoluteDeviation (nums samples)).
Proof.
  intros Hne.
  destruct (findOutliers_rate Hne) as [H0 H1].
  repeat split; auto.
  - intros Hpos _. apply coefficientOfVariation_nonneg; [exact Hne|].
    now apply average_nonneg.
  - now apply medianAbsoluteDeviation_nonneg.
Qed.

Lemma C8_ranges_amended_witness :
  [50; 51; 49; 80] <> []
  /\ (forall x, In x [50; 51; 49; 80] -> 0 <= x)
  /\ Qsum [50; 51; 49; 80] <= sum_limit
  /\ le zero (StatisticalUtils.rate
                (StatisticalUtils.findOutliers (nums [50; 51; 49; 80])))
  /\ le zero (StatisticalUtils.coefficientOfVariation (nums [50; 51; 49; 80])).
Proof.
  assert (Hne : [50; 51; 49; 80] <> @nil Q) by discriminate.
  assert (Hpos : forall x, In x [50; 51; 49; 80] -> 0 <= x).
  { intros x Hx. simpl in Hx.
    repeat (destruct Hx as [<-|Hx]; [lra|]). destruct Hx. }
  assert (Hsum : Qsum [50; 51; 49; 80] <= sum_limit).
  { apply Qle_bool_iff. vm_compute. reflexivity. }
  destruct (C8_ranges_amended Hne) as (H0 & _ & Hcv & _).
  split; [exact Hne|]. split; [exact Hpos|]. split; [exact Hsum|].
  split; [exact H0 | exact (Hcv Hpos Hsum)].
Defined.

(* ================================================================== *)
(** * C1 and C2: the direction and the percentage of the bootstrap
      comparison *)
(* ================================================================== *)

Lemma draws_high_unit : unit_stream draws_high.
Proof.
  intros k. unfold draws_high. destruct (Nat.even k); split; lra.
Qed.

(** What [bootstrapDifferenceCI] returns, in terms of the resampled
    percentages. *)
Lemma bootstrapDifferenceCI_result
    (baseline current : list num) (options : StatisticalUtils.BootstrapOptions)
    (rng : nat -> Q) (k : nat) :
  let r := fst (StatisticalUtils.bootstrapDifferenceCI
                  baseline current options rng k) in
  let m := toNumber (StatisticalUtils.percentile baseline (Num (1 # 2))) in
  let c := toNumber (StatisticalUtils.percentile current (Num (1 # 2))) in
  StatisticalUtils.percent r = mul (div (sub c m) m) (Num 100)
  /\ StatisticalUtils.direction r
     = if excludes_zero (StatisticalUtils.ci r)
       then (if ltb (StatisticalUtils.percent r) zero
             then StatisticalUtils.faster else StatisticalUtils.slower)
       else StatisticalUtils.uncertain.
Proof.
  unfold StatisticalUtils.bootstrapDifferenceCI, bind.
  destruct (StatisticalUtils.resample_diffs baseline current _ [] rng k)
    as [diffs k'].
  split; reflexivity.
Qed.

(** C1, as stated, fails: the side is chosen by the sign of the observed
    percentage, not by the side of the interval.  With baseline [1, 3],
    current [2, 2], twenty resamples and draws that are all at least 1/2,
    every resample of the baseline has median 3: the interval is
    [-100/3, -100/3], strictly below 0, while the observed percentage is
    +100, and the direction is 'slower'. *)
Lemma C1_direction_counterexample :
  let r := fst (StatisticalUtils.bootstrapDifferenceCI
                  (nums [1; 3]) (nums [2; 2])
                  (StatisticalUtils.mkBootstrapOptions (Some 20%nat) None)
                  draws_high 0%nat) in
  unit_stream draws_high
  /\ StatisticalUtils.ci r = (Some (Num (-100 # 3)), Some (Num (-100 # 3)))
  /\ ltb (toNumber (snd (StatisticalUtils.ci r))) zero = true
  /\ gtb (toNumber (fst (StatisticalUtils.ci r))) zero = false
  /\ StatisticalUtils.percent r = Num 100
  /\ StatisticalUtils.direction r = StatisticalUtils.slower
  /\ StatisticalUtils.direction r <> StatisticalUtils.faster.
Proof.
  split; [exact draws_high_unit|].
  vm_compute. repeat split; discriminate.
Qed.

(** Comparisons of three numbers, by cases. *)
Lemma inside_interval_sides (lo up pc : num) :
  leb lo pc = true -> leb pc up = true ->
  (ltb pc zero = true -> gtb lo zero = false)
  /\ (ltb up zero = true -> ltb pc zero = true)
  /\ (gtb lo zero = true -> ltb pc zero = false)
  /\ (ltb pc zero = false -> ltb up zero = false)
  /\ (gtb lo zero || ltb up zero = false
      <-> leb lo zero = true /\ leb zero up = true).
Proof.
  unfold gtb, zero.
  destruct lo as [l| | |], up as [u| | |], pc as [c| | |];
    cbn [leb ltb orb]; intros H1 H2; try discriminate;
    rewrite ?Qle_bool_true in *;
    repeat match goal with
      | |- context [Qltb ?a ?b] =>
          let E := fresh "E" in
          destruct (Qltb a b) eqn:E;
          [apply Qltb_lt in E | apply Qltb_ge in E]
      end;
    cbn [orb];
    repeat split; intros; try discriminate; try reflexivity;
    rewrite ?Qle_bool_true in *;
    repeat match goal with H : _ /\ _ |- _ => destruct H end;
    try discriminate; try lra.
Qed.

(** C1, amended.  The direction is 'uncertain' exactly when the interval
    does not exclude 0 (neither ci.lower > 0 nor ci.upper < 0); when it
    excludes 0 the direction is 'faster' exactly when the observed
    percentage is below 0, and 'slower' otherwise.  So whenever the observed
    percentage lies within the interval, the direction is 'faster' exactly
    when ci.upper < 0, 'slower' exactly when ci.lower > 0, and 'uncertain'
    exactly when the interval spans 0. *)
Theorem C1_direction_amended
    (baseline current : list num) (options : StatisticalUtils.BootstrapOptions)
    (rng : nat -> Q) (k : nat) :
  let r := fst (StatisticalUtils.bootstrapDifferenceCI
                  baseline current options rng k) in
  let lower := toNumber (fst (StatisticalUtils.ci r)) in
  let upper := toNumber (snd (StatisticalUtils.ci r)) in
  ((StatisticalUtils.direction r = StatisticalUtils.uncertain
    <-> gtb lower zero = false /\ ltb upper zero = false)
   /\ (StatisticalUtils.direction r = StatisticalUtils.faster
       <-> excludes_zero (StatisticalUtils.ci r) = true
           /\ ltb (StatisticalUtils.percent r) zero = true)
   /\ (StatisticalUtils.direction r = StatisticalUtils.slower
       <-> excludes_zero (StatisticalUtils.ci r) = true
           /\ ltb (StatisticalUtils.percent r) zero = false))
  /\ (le lower (StatisticalUtils.percent r) ->
      le (StatisticalUtils.percent r) upper ->
      (StatisticalUtils.direction r = StatisticalUtils.faster
       <-> ltb upper zero = true)
      /\ (StatisticalUtils.direction r = StatisticalUtils.slower
          <-> gtb lower zero = true)
      /\ (StatisticalUtils.direction r = StatisticalUtils.uncertain
          <-> le lower zero /\ le zero upper)).
Proof.
  intros r lower upper.
  destruct (bootstrapDifferenceCI_result baseline current options rng k)
    as [_ Hd].
  fold r in Hd. unfold excludes_zero in *. fold lower upper in Hd |- *.
  split.
  - rewrite Hd.
    destruct (gtb lower zero), (ltb upper zero),
      (ltb (StatisticalUtils.percent r) zero); cbn [orb];
      repeat split; intros; repeat match goal with H : _ /\ _ |- _ => destruct H end;
      try reflexivity; try discriminate.
  - intros H1 H2.
    destruct (inside_interval_sides _ _ _ H1 H2) as (A & B & C & D & E).
    unfold le. rewrite <- E. rewrite Hd. clear E Hd.
    destruct (gtb lower zero), (ltb upper zero),
      (ltb (StatisticalUtils.percent r) zero); cbn [orb] in *;
      repeat split; intros; try reflexivity; try discriminate;
      try (specialize (A eq_refl); discriminate);
      try (specialize (B eq_refl); discriminate);
      try (specialize (C eq_refl); discriminate);
      try (specialize (D eq_refl); discriminate).
Qed.

Lemma C1_direction_amended_witness :
  let r := fst (StatisticalUtils.bootstrapDifferenceCI
                  (nums [100]) (nums [80])
                  (StatisticalUtils.mkBootstrapOptions (Some 20%nat) None)
                  draws_high 0%nat) in
  le (toNumber (fst (StatisticalUtils.ci r))) (StatisticalUtils.percent r)
  /\ le (StatisticalUtils.percent r) (toNumber (snd (StatisticalUtils.ci r)))
  /\ (StatisticalUtils.direction r = StatisticalUtils.faster
      <-> ltb (toNumber (snd (StatisticalUtils.ci r))) zero = true).
Proof.
  intros r.
  assert (H1 : le (toNumber (fst (StatisticalUtils.ci r)))
                  (StatisticalUtils.percent r)) by (vm_compute; reflexivity).
  assert (H2 : le (StatisticalUtils.percent r)
                  (toNumber (snd (StatisticalUtils.ci r))))
    by (vm_compute; reflexivity).
  split; [exact H1|]. split; [exact H2|].
  exact (proj1 (proj2 (C1_direction_amended
                         (nums [100]) (nums [80])
                         (StatisticalUtils.mkBootstrapOptions (Some 20%nat) None)
                         draws_high 0%nat) H1 H2)).
Defined.

(** C2.  The comparator has no case for a baseline whose median is 0: the
    percentage is a division by zero.  With baseline [0] and current [1] the
    comparator returns, but with percent = +Infinity, the interval
    [+Infinity, +Infinity] and direction 'slower'; with baseline [0] and
    current [0] the percentage is NaN.  In neither case is the percentage 0. *)
Theorem C2_zero_median_baseline :
  let opts := StatisticalUtils.mkBootstrapOptions (Some 20%nat) None in
  let r1 := fst (StatisticalUtils.bootstrapDifferenceCI
                   (nums [0]) (nums [1]) opts draws_high 0%nat) in
  let r0 := fst (StatisticalUtils.bootstrapDifferenceCI
                   (nums [0]) (nums [0]) opts draws_high 0%nat) in
  StatisticalUtils.percentile (nums [0]) (Num (1 # 2)) = Some (Num 0)
  /\ StatisticalUtils.percent r1 = PosInf
  /\ StatisticalUtils.ci r1 = (Some PosInf, Some PosInf)
  /\ StatisticalUtils.direction r1 = StatisticalUtils.slower
  /\ eqb (StatisticalUtils.percent r1) zero = false
  /\ StatisticalUtils.percent r0 = NaN
  /\ eqb (StatisticalUtils.percent r0) zero = false.
Proof. vm_compute. repeat split. Qed.

Lemma Qsign_comp (a b : Q) : a == b -> Qsign a = Qsign b.
Proof.
  unfold Qeq, Qsign. intros H. apply (f_equal Z.sgn) in H.
  rewrite !Z.sgn_mul in H. simpl in H. now rewrite !Z.mul_1_r in H.
Qed.

(** The observed percentage over a baseline of median 0, for every pair of
    arrays of finite numbers: never 0, but NaN or an infinity of the sign of
    the current median. *)
Lemma zero_median_percent (baseline current : list Q)
    (options : StatisticalUtils.BootstrapOptions) (rng : nat -> Q) (k : nat)
    (m c : Q) :
  StatisticalUtils.percentile (nums baseline) (Num (1 # 2)) = Some (Num m) ->
  StatisticalUtils.percentile (nums current) (Num (1 # 2)) = Some (Num c) ->
  m == 0 ->
  let r := fst (StatisticalUtils.bootstrapDifferenceCI
                  (nums baseline) (nums current) options rng k) in
  StatisticalUtils.percent r = signed_inf (Qsign c)
  /\ eqb (StatisticalUtils.percent r) zero = false.
Proof.
  intros Hm Hc Hz r.
  destruct (bootstrapDifferenceCI_result (nums baseline) (nums current)
              options rng k) as [Hp _].
  fold r in Hp. rewrite Hm, Hc in Hp. cbn [toNumber] in Hp.
  assert (E : StatisticalUtils.percent r = signed_inf (Qsign c)).
  { rewrite Hp. num_simpl. unfold div.
    apply Qeq_bool_true in Hz. rewrite Hz.
    assert (Hs : Qsign (Qred (c + - m)) = Qsign c).
    { apply Qsign_comp. apply Qeq_bool_true in Hz.
      rewrite Qred_correct, Hz. ring. }
    rewrite Hs. destruct (Qsign c); reflexivity. }
  split; [exact E|]. rewrite E. destruct (Qsign c); reflexivity.
Qed.

(* ================================================================== *)
(** * C5: the convergence check *)
(* ================================================================== *)

(** C5, as stated, fails: convergence is decided by the drift between the
    last two windows, not by the spread of the whole list.  A list of 600
    samples whose last 20 are 5% slower than the 580 before them has a
    relative standard deviation below 1% and holds more than twice its
    window of 20 samples, yet the check does not converge: the median drift
    between the two windows is 5%, and the confidence is 50. *)
Lemma C5_convergence_counterexample :
  let samples := nums late_shift_samples in
  let W := AdaptiveStats.getWindowSize samples in
  W = 20%nat
  /\ (2 * W <=? List.length samples)%nat = true
  /\ ltb (StatisticalUtils.coefficientOfVariation samples) (Num (1 # 100)) = true
  /\ AdaptiveStats.converged (AdaptiveStats.checkConvergence samples) = false
  /\ eqb (AdaptiveStats.confidence (AdaptiveStats.checkConvergence samples))
         (Num 50) = true
  /\ AdaptiveStats.reason (AdaptiveStats.checkConvergence samples)
     = "Median drifting: 5.0%"%string.
Proof. vm_compute. repeat split. Qed.

(** C5, amended.  With [W] the window size that [getWindowSize] gives for
    the list and [n] its length: if [n >= 2 W] and, between the last [W]
    samples and the [W] samples before them, the median drift and the drift
    of the outlier impact are both below 5%, [checkConvergence] returns
    converged = true, confidence 100 and the reason "Stable performance
    pattern"; if [n < 2 W] it returns converged = false, confidence
    [(n / 2W) * 100] and a reason that begins with "Collecting samples". *)
Theorem C5_convergence_amended (samples : list num) :
  let W := AdaptiveStats.getWindowSize samples in
  let n := List.length samples in
  let metrics := AdaptiveStats.getStability samples W in
  ((2 * W <= n)%nat ->
   ltb (AdaptiveStats.medianDrift metrics) (Num (5 # 100)) = true ->
   ltb (AdaptiveStats.impactDrift metrics) (Num (5 # 100)) = true ->
   AdaptiveStats.checkConvergence samples
   = AdaptiveStats.mkConvergence true (Num 100) "Stable performance pattern")
  /\ ((n < 2 * W)%nat ->
      AdaptiveStats.converged (AdaptiveStats.checkConvergence samples) = false
      /\ AdaptiveStats.confidence (AdaptiveStats.checkConvergence samples)
         = mul (div (of_nat n) (of_nat (2 * W))) (Num 100)
      /\ Text.prefix_of "Collecting samples"
           (AdaptiveStats.reason (AdaptiveStats.checkConvergence samples))
         = true).
Proof.
  intros W n metrics. unfold AdaptiveStats.checkConvergence.
  fold W. replace (W * 2)%nat with (2 * W)%nat by lia. fold n.
  split.
  - intros Hn Hm Hi.
    assert (E : (n <? 2 * W)%nat = false) by (apply Nat.ltb_ge; exact Hn).
    rewrite E. unfold AdaptiveStats.buildConvergence. fold metrics.
    assert (Em : AdaptiveStats.medianStable metrics = true) by exact Hm.
    assert (Ei : AdaptiveStats.impactStable metrics = true) by exact Hi.
    rewrite Em, Ei. reflexivity.
  - intros Hn.
    assert (E : (n <? 2 * W)%nat = true) by (apply Nat.ltb_lt; exact Hn).
    rewrite E. unfold AdaptiveStats.buildProgressResult.
    repeat split.
Qed.

Lemma C5_convergence_amended_witness :
  ((2 * AdaptiveStats.getWindowSize (nums steady_samples)
    <= List.length (nums steady_samples))%nat
   /\ AdaptiveStats.checkConvergence (nums steady_samples)
      = AdaptiveStats.mkConvergence true (Num 100) "Stable performance pattern")
  /\ ((List.length (nums few_samples)
       < 2 * AdaptiveStats.getWindowSize (nums few_samples))%nat
      /\ AdaptiveStats.converged
           (AdaptiveStats.checkConvergence (nums few_samples)) = false).
Proof.
  assert (H1 : (2 * AdaptiveStats.getWindowSize (nums steady_samples)
                <= List.length (nums steady_samples))%nat).
  { apply Nat.leb_le. vm_compute. reflexivity. }
  assert (H2 : (List.length (nums few_samples)
                < 2 * AdaptiveStats.getWindowSize (nums few_samples))%nat).
  { apply Nat.ltb_lt. vm_compute. reflexivity. }
  split; split; [exact H1 | | exact H2 | ].
  - apply (proj1 (C5_convergence_amended (nums steady_samples)) H1);
      vm_compute; reflexivity.
  - exact (proj1 (proj2 (C5_convergence_amended (nums few_samples)) H2)).
Defined.

(* ================================================================== *)
(** * C6: the stop decision and the continuation batch *)
(* ================================================================== *)

Lemma shouldStop_iff (convergence : AdaptiveStats.ConvergenceResult)
    (target elapsed minTime : num) :
  AdaptiveStats.shouldStop convergence target elapsed minTime = true
  <-> (AdaptiveStats.converged convergence = true
       /\ geb (AdaptiveStats.confidence convergence) target = true)
      \/ (geb elapsed minTime = true
          /\ geb (AdaptiveStats.confidence convergence)
                 (max2 target (Num 80)) = true).
Proof.
  unfold AdaptiveStats.shouldStop, AdaptiveStats.fallbackThreshold.
  destruct (AdaptiveStats.converged convergence);
    destruct (geb (AdaptiveStats.confidence convergence) target);
    cbn [andb];
    destruct (geb elapsed minTime);
    destruct (geb (AdaptiveStats.confidence convergence) (max2 target (Num 80)));
    cbn [andb]; intuition congruence.
Qed.



(* ================================================================== *)
(** * C7: which lines give a GC event *)
(* ================================================================== *)

(** C7, as stated, fails: a line whose gc code is not a recognized one still
    yields an event, of type 'unknown'. *)
Lemma C7_unrecognized_gc_counterexample :
  GcStats.lookup (GcStats.parseNvpFields "gc=xyz pause=1.0") "gc" = Some "xyz"%string
  /\ GcStats.parseGcType "xyz" = GcStats.unknown
  /\ GcStats.parseGcLine "gc=xyz pause=1.0"
     = Some (GcStats.mkGcEvent GcStats.unknown (Num 1) (Some (Num 0)) (Num 0)
               (Some (Num 0)) (Some (Num 0))).
Proof. vm_compute. repeat split. Qed.

Lemma span_length (f : ascii -> bool) (s p r : string) :
  GcStats.span f s = (p, r) ->
  String.length s = (String.length p + String.length r)%nat.
Proof.
  revert p r. induction s as [|c t IH]; intros p r H; simpl in H.
  - injection H as <- <-. reflexivity.
  - destruct (f c).
    + destruct (GcStats.span f t) as [p' r'] eqn:E.
      injection H as <- <-. simpl. rewrite (IH p' r' eq_refl). reflexivity.
    + injection H as <- <-. reflexivity.
Qed.

(** A match has a non-empty key and a non-empty value, and leaves a text
    that is shorter than the text it was found in. *)
Lemma match_here_some (s key val rest : string) :
  GcStats.match_here s = Some (key, val, rest) ->
  key <> EmptyString /\ val <> EmptyString
  /\ (String.length rest < String.length s)%nat.
Proof.
  unfold GcStats.match_here.
  destruct (GcStats.span GcStats.is_word s) as [k r1] eqn:E1.
  destruct k as [|kc kt]; [discriminate|].
  destruct r1 as [|c r2]; [discriminate|].
  destruct (Ascii.eqb_spec c "="%char) as [->|Hc].
  2:{ destruct c as [[] [] [] [] [] [] [] []]; try discriminate;
      exfalso; apply Hc; reflexivity. }
  destruct (GcStats.span GcStats.is_value_char r2) as [v r3] eqn:E2.
  destruct v as [|vc vt]; [discriminate|].
  intros H. injection H as <- <- <-.
  apply span_length in E1. apply span_length in E2.
  simpl in *. repeat split; try discriminate. lia.
Qed.

(** The fuel of [matchAll] is enough: more fuel finds the same matches. *)
Lemma matchAll_fuel_enough (f1 f2 : nat) (s : string) :
  (String.length s < f1)%nat -> (String.length s < f2)%nat ->
  GcStats.matchAll_fuel f1 s = GcStats.matchAll_fuel f2 s.
Proof.
  revert f2 s. induction f1 as [|f1 IH]; intros f2 s H1 H2; [lia|].
  destruct f2 as [|f2]; [lia|]. simpl.
  destruct (GcStats.match_here s) as [[[key val] rest]|] eqn:E.
  - apply match_here_some in E. destruct E as (_ & _ & Hl).
    f_equal. apply IH; lia.
  - destruct s as [|c t]; [reflexivity|]. simpl in *. apply IH; lia.
Qed.

Lemma matchAll_values_nonempty (fuel : nat) (s key val : string) :
  In (key, val) (GcStats.matchAll_fuel fuel s) -> val <> EmptyString.
Proof.
  revert s. induction fuel as [|f IH]; intros s H; simpl in H; [contradiction|].
  destruct (GcStats.match_here s) as [[[k v] rest]|] eqn:E.
  - destruct H as [H|H].
    + injection H as <- <-. now apply match_here_some in E.
    + eauto.
  - destruct s as [|c t]; [contradiction | eauto].
Qed.

Lemma lookup_In (fields : GcStats.Fields) (k v : string) :
  GcStats.lookup fields k = Some v -> exists k', In (k', v) fields.
Proof.
  induction fields as [|[k' v'] t IH]; simpl; [discriminate|].
  destruct (String.eqb k' k).
  - intros H. injection H as <-. eauto.
  - intros H. destruct (IH H) as (k'' & Hin). eauto.
Qed.

Lemma parseNvpFields_In (line key val : string) :
  In (key, val) (GcStats.parseNvpFields line) ->
  In (key, val) (GcStats.matchAll line).
Proof.
  unfold GcStats.parseNvpFields.
  assert (G : forall l acc,
             In (key, val) (fold_left (fun fields kv => kv :: fields) l acc) ->
             In (key, val) l \/ In (key, val) acc).
  { induction l as [|x l IH]; intros acc H; simpl in *; [auto|].
    destruct (IH _ H) as [H'|[H'|H']]; auto. }
  intros H. destruct (G _ _ H) as [H'|[]]. exact H'.
Qed.

Lemma field_nonempty (line k v : string) :
  GcStats.lookup (GcStats.parseNvpFields line) k = Some v -> v <> EmptyString.
Proof.
  intros H. apply lookup_In in H. destruct H as (k' & Hin).
  apply parseNvpFields_In in Hin.
  unfold GcStats.matchAll in Hin. eapply matchAll_values_nonempty; eauto.
Qed.

Lemma parseFloat_zero : GcStats.parseFloat "0" = Num 0.
Proof. vm_compute. reflexivity. Qed.

Lemma isNaN_true (x : num) : isNaN x = true <-> x = NaN.
Proof. destruct x; simpl; split; congruence. Qed.

(** C7, amended.  [parseGcLine] yields no event exactly when the line does
    not contain "pause=", when it has no gc= field, or when its pause field
    does not parse as a number; every other line yields one event, whose type
    is the one that [parseGcType] gives for the gc code: 'unknown' for a code
    that is not recognized. *)
Theorem C7_parseGcLine_amended (line : string) :
  (GcStats.parseGcLine line = None
   <-> Text.includes line "pause=" = false
       \/ GcStats.lookup (GcStats.parseNvpFields line) "gc" = None
       \/ exists v,
            GcStats.lookup (GcStats.parseNvpFields line) "pause" = Some v
            /\ GcStats.parseFloat v = NaN)
  /\ (forall e,
        GcStats.parseGcLine line = Some e ->
        exists gc,
          GcStats.lookup (GcStats.parseNvpFields line) "gc" = Some gc
          /\ GcStats.type e = GcStats.parseGcType gc).
Proof.
  unfold GcStats.parseGcLine.
  destruct (Text.includes line "pause=") eqn:Einc; cbn [negb].
  2:{ split; [tauto | discriminate]. }
  destruct (GcStats.lookup (GcStats.parseNvpFields line) "gc") as [gc|] eqn:Egc.
  2:{ split; [tauto | discriminate]. }
  pose proof (field_nonempty _ _ Egc) as Hgc.
  destruct gc as [|c t]; [congruence|].
  set (pause := GcStats.parseFloat
                  (GcStats.field_or (GcStats.parseNvpFields line) "pause" "0")).
  assert (Hpause : pause = NaN
                   <-> exists v,
                         GcStats.lookup (GcStats.parseNvpFields line) "pause"
                         = Some v
                         /\ GcStats.parseFloat v = NaN).
  { unfold pause, GcStats.field_or.
    destruct (GcStats.lookup (GcStats.parseNvpFields line) "pause")
      as [v|] eqn:Ep.
    - pose proof (field_nonempty _ _ Ep) as Hv.
      destruct v as [|vc vt]; [congruence|].
      split.
      + intros H. eauto.
      + intros (v & Hv' & Hn). injection Hv' as <-. exact Hn.
    - split.
      + rewrite parseFloat_zero. discriminate.
      + intros (v & Hv & _). discriminate. }
  destruct (isNaN pause) eqn:Enan.
  - apply isNaN_true in Enan. split; [|discriminate].
    split; [|reflexivity]. intros _. right. right. now apply Hpause.
  - split.
    + split; [discriminate|].
      intros [H|[H|H]]; try discriminate.
      apply Hpause in H. rewrite H in Enan. discriminate.
    + intros e H. injection H as <-. eexists. split; reflexivity.
Qed.

(* ================================================================== *)
(** * C10: the aggregation of GC events *)
(* ================================================================== *)

(** The loop of [aggregateGcStats], from any state of its variables. *)
Lemma aggregate_loop (events : list GcStats.GcEvent) (a : GcStats.Acc) :
  let a' := fold_left GcStats.step events a in
  GcStats.a_scavenges a'
  = (GcStats.a_scavenges a + List.length (filter is_scavenge events))%nat
  /\ GcStats.a_markCompacts a'
     = (GcStats.a_markCompacts a
        + List.length (filter is_mark_compact events))%nat
  /\ GcStats.a_gcPauseTime a'
     = fold_left add (map GcStats.pauseMs events) (GcStats.a_gcPauseTime a)
  /\ GcStats.a_totalCollected a'
     = fold_left add (map GcStats.collected events)
         (GcStats.a_totalCollected a)
  /\ GcStats.a_hasNodeFields a'
     = GcStats.a_hasNodeFields a || existsb carries_allocated events.
Proof.
  revert a. induction events as [|e t IH]; intros a.
  - cbn. rewrite !Nat.add_0_r, orb_false_r. repeat split.
  - cbn [fold_left map filter existsb].
    destruct (IH (GcStats.step a e)) as (H1 & H2 & H3 & H4 & H5).
    cbn zeta. rewrite H1, H2, H3, H4, H5. clear.
    unfold GcStats.step, is_scavenge, is_mark_compact, carries_allocated.
    destruct (GcStats.type e), (GcStats.allocated e);
      cbn [GcStats.a_scavenges GcStats.a_markCompacts GcStats.a_gcPauseTime
           GcStats.a_totalCollected GcStats.a_hasNodeFields List.length orb];
      rewrite ?orb_true_r, ?orb_false_r;
      repeat split; try lia; try reflexivity.
Qed.

(** C10.  [aggregateGcStats] counts the events of type 'scavenge' and
    'minor-ms' in [scavenges] and those of type 'mark-compact' in
    [markCompacts], so that an 'unknown' event is counted in neither; it adds
    the pause and the collected bytes of every event, whatever its type, to
    [gcPauseTime] and [totalCollected]; and the three optional totals are
    present, together, exactly when some event carries an [allocated]
    field. *)
Theorem C10_aggregateGcStats (events : list GcStats.GcEvent) :
  let stats := GcStats.aggregateGcStats events in
  GcStats.scavenges stats = List.length (filter is_scavenge events)
  /\ GcStats.markCompacts stats = List.length (filter is_mark_compact events)
  /\ GcStats.gcPauseTime stats = sum (map GcStats.pauseMs events)
  /\ GcStats.totalCollected stats = sum (map GcStats.collected events)
  /\ ((exists e, In e events /\ GcStats.allocated e <> None)
      <-> GcStats.totalAllocated stats <> None)
  /\ (GcStats.totalAllocated stats <> None
      <-> GcStats.totalPromoted stats <> None)
  /\ (GcStats.totalAllocated stats <> None
      <-> GcStats.totalSurvived stats <> None)
  /\ (forall e,
        GcStats.type e = GcStats.unknown ->
        let stats' := GcStats.aggregateGcStats (events ++ [e]) in
        GcStats.scavenges stats' = GcStats.scavenges stats
        /\ GcStats.markCompacts stats' = GcStats.markCompacts stats
        /\ GcStats.gcPauseTime stats'
           = add (GcStats.gcPauseTime stats) (GcStats.pauseMs e)
        /\ GcStats.totalCollected stats'
           = add (GcStats.totalCollected stats) (GcStats.collected e)).
Proof.
  intros stats.
  destruct (aggregate_loop events GcStats.initial) as (H1 & H2 & H3 & H4 & H5).
  unfold stats, GcStats.aggregateGcStats.
  cbn [GcStats.scavenges GcStats.markCompacts GcStats.gcPauseTime
       GcStats.totalCollected GcStats.totalAllocated GcStats.totalPromoted
       GcStats.totalSurvived].
  rewrite H1, H2, H3, H4, H5. cbn [GcStats.initial GcStats.a_scavenges
    GcStats.a_markCompacts GcStats.a_gcPauseTime GcStats.a_totalCollected
    GcStats.a_hasNodeFields orb plus].
  repeat match goal with |- _ /\ _ => split end; try reflexivity.
  - destruct (existsb carries_allocated events) eqn:E.
    + split; [discriminate|]. intros _.
      apply existsb_exists in E. destruct E as (e & Hin & He).
      exists e. split; [exact Hin|].
      unfold carries_allocated in He.
      destruct (GcStats.allocated e); [discriminate | discriminate].
    + split; [|congruence].
      intros (e & Hin & He). exfalso.
      assert (Ex : existsb carries_allocated events = true).
      { apply existsb_exists. exists e. split; [exact Hin|].
        unfold carries_allocated. destruct (GcStats.allocated e); congruence. }
      congruence.
  - destruct (existsb carries_allocated events); split; congruence.
  - destruct (existsb carries_allocated events); split; congruence.
  - intros e He. rewrite fold_left_app.
    set (a := fold_left GcStats.step events GcStats.initial) in *.
    cbn [fold_left]. unfold GcStats.step. rewrite He.
    destruct (GcStats.allocated e);
      cbn [GcStats.a_scavenges GcStats.a_markCompacts GcStats.a_gcPauseTime
           GcStats.a_totalCollected];
      rewrite H1, H2, H3, H4; repeat split; reflexivity.
Qed.

Lemma C10_aggregateGcStats_witness :
  GcStats.type unknown_event = GcStats.unknown
  /\ GcStats.scavenges
       (GcStats.aggregateGcStats ([scavenge_event] ++ [unknown_event]))
     = GcStats.scavenges (GcStats.aggregateGcStats [scavenge_event])
  /\ GcStats.gcPauseTime
       (GcStats.aggregateGcStats ([scavenge_event] ++ [unknown_event]))
     = add (GcStats.gcPauseTime (GcStats.aggregateGcStats [scavenge_event]))
           (GcStats.pauseMs unknown_event).
Proof.
  assert (H : GcStats.type unknown_event = GcStats.unknown) by reflexivity.
  split; [exact H|].
  destruct (C10_aggregateGcStats [scavenge_event])
    as (_ & _ & _ & _ & _ & _ & _ & Hu).
  destruct (Hu unknown_event H) as (H1 & _ & H3 & _).
  split; [exact H1 | exact H3].
Defined.

(* ================================================================== *)
(** * C9: configurations that are refused before any work *)
(* ================================================================== *)

(** C9.  Each of these fails with a configuration error and leaves the world
    as it was: nothing is read, and no work is added to the trace.
    - [runMatrix] on a matrix whose [baselineDir] and [baselineVariant] are
      both set (to non-empty strings);
    - [runMatrix] on a matrix run with its inline variants ([variants] set,
      no [variantDir]) whose [baselineDir] is set;
    - [collectSamples] when neither [maxTime] nor [maxIterations] is set:
      each is undefined, 0 or NaN; in particular when both are 0. *)
Theorem C9_config_errors :
  (forall discovered casesOfModule measurement matrix options
          (w : World BenchMatrix.Event),
      truthy_string (BenchMatrix.baselineDir matrix) = true ->
      truthy_string (BenchMatrix.baselineVariant matrix) = true ->
      BenchMatrix.runMatrix discovered casesOfModule measurement matrix
        options w
      = (Thrown "BenchMatrix cannot have both 'baselineDir' and 'baselineVariant'",
         w))
  /\ (forall discovered casesOfModule measurement matrix options
             (w : World BenchMatrix.Event),
         BenchMatrix.variants matrix <> None ->
         truthy_string (BenchMatrix.variantDir matrix) = false ->
         truthy_string (BenchMatrix.baselineDir matrix) = true ->
         exists message,
           BenchMatrix.runMatrix discovered casesOfModule measurement matrix
             options w
           = (Thrown message, w))
  /\ (forall clock heapUsed fuel p (w : World BasicRunner.Event),
         truthy_value (BasicRunner.maxTime p) = false ->
         truthy_value (BasicRunner.maxIterations p) = false ->
         BasicRunner.collectSamples clock heapUsed fuel p w
         = (Thrown "At least one of maxIterations or maxTime must be set", w))
  /\ (forall clock heapUsed fuel p (w : World BasicRunner.Event),
         BasicRunner.maxTime p = Some (Num 0) ->
         BasicRunner.maxIterations p = Some (Num 0) ->
         BasicRunner.collectSamples clock heapUsed fuel p w
         = (Thrown "At least one of maxIterations or maxTime must be set", w)).
Proof.
  repeat match goal with |- _ /\ _ => split end.
  - intros discovered casesOfModule measurement matrix options w Hd Hv.
    unfold BenchMatrix.runMatrix, andThen, BenchMatrix.validateBaseline.
    rewrite Hd, Hv. reflexivity.
  - intros discovered casesOfModule measurement matrix options w Hvs Hdir Hd.
    unfold BenchMatrix.runMatrix, andThen, BenchMatrix.validateBaseline.
    rewrite Hd. cbn [andb].
    destruct (truthy_string (BenchMatrix.baselineVariant matrix)).
    + eexists. reflexivity.
    + unfold pure.
      destruct (BenchMatrix.variantDir matrix) as [[|c t]|];
        try discriminate;
        (destruct (BenchMatrix.variants matrix); [|congruence]);
        unfold BenchMatrix.runMatrixInline;
        rewrite Hd;
        eexists; reflexivity.
  - intros clock heapUsed fuel p w Ht Hi.
    unfold BasicRunner.collectSamples. rewrite Ht, Hi. reflexivity.
  - intros clock heapUsed fuel p w Ht Hi.
    unfold BasicRunner.collectSamples. rewrite Ht, Hi. reflexivity.
Qed.

Lemma C9_config_errors_witness :
  (truthy_string (BenchMatrix.baselineDir matrix_with_both_baselines) = true
   /\ truthy_string (BenchMatrix.baselineVariant matrix_with_both_baselines)
      = true
   /\ fst (BenchMatrix.runMatrix (fun _ _ => []) (fun _ _ => None)
             (fun _ => []) matrix_with_both_baselines no_matrix_options
             (mkWorld 0 []))
      = Thrown "BenchMatrix cannot have both 'baselineDir' and 'baselineVariant'")
  /\ (BenchMatrix.variants inline_matrix_with_baselineDir <> None
      /\ truthy_string (BenchMatrix.variantDir inline_matrix_with_baselineDir)
         = false
      /\ truthy_string (BenchMatrix.baselineDir inline_matrix_with_baselineDir)
         = true
      /\ exists message,
           BenchMatrix.runMatrix (fun _ _ => []) (fun _ _ => None)
             (fun _ => []) inline_matrix_with_baselineDir no_matrix_options
             (mkWorld 0 [])
           = (Thrown message, mkWorld 0 []))
  /\ (BasicRunner.maxTime zero_limits_params = Some (Num 0)
      /\ BasicRunner.maxIterations zero_limits_params = Some (Num 0)
      /\ BasicRunner.collectSamples (fun k => of_nat k) (fun _ => zero) 100
           zero_limits_params (mkWorld 0 [])
         = (Thrown "At least one of maxIterations or maxTime must be set",
            mkWorld 0 [])).
Proof.
  destruct C9_config_errors as (H1 & H2 & _ & H4).
  split; [|split].
  - assert (Hd : truthy_string
                   (BenchMatrix.baselineDir matrix_with_both_baselines) = true)
      by reflexivity.
    assert (Hv : truthy_string
                   (BenchMatrix.baselineVariant matrix_with_both_baselines)
                 = true) by reflexivity.
    split; [exact Hd|]. split; [exact Hv|].
    rewrite (H1 (fun _ _ => []) (fun _ _ => None) (fun _ => [])
               matrix_with_both_baselines no_matrix_options (mkWorld 0 [])
               Hd Hv).
    reflexivity.
  - assert (Hvs : BenchMatrix.variants inline_matrix_with_baselineDir <> None)
      by discriminate.
    assert (Hdir : truthy_string
                     (BenchMatrix.variantDir inline_matrix_with_baselineDir)
                   = false) by reflexivity.
    assert (Hd : truthy_string
                   (BenchMatrix.baselineDir inline_matrix_with_baselineDir)
                 = true) by reflexivity.
    split; [exact Hvs|]. split; [exact Hdir|]. split; [exact Hd|].
    exact (H2 (fun _ _ => []) (fun _ _ => None) (fun _ => [])
              inline_matrix_with_baselineDir no_matrix_options (mkWorld 0 [])
              Hvs Hdir Hd).
  - split; [reflexivity|]. split; [reflexivity|].
    exact (H4 (fun k => of_nat k) (fun _ => zero) 100%nat zero_limits_params
              (mkWorld 0 []) eq_refl eq_refl).
Defined.

(** ** Sequencing *)

Lemma andThen_returned {Event A B : Type} (m : IO Event A)
    (f : A -> IO Event B) (w w' : World Event) (a : A) :
  m w = (Returned a, w') -> andThen m f w = f a w'.
Proof. intros H. unfold andThen. now rewrite H. Qed.

Lemma andThen_thrown {Event A B : Type} (m : IO Event A)
    (f : A -> IO Event B) (w w' : World Event) (message : string) :
  m w = (Thrown message, w') -> andThen m f w = (Thrown message, w').
Proof. intros H. unfold andThen. now rewrite H. Qed.

(** ** Resampling *)

Lemma index_nil {A : Type} (i : num) : index (@nil A) i = None.
Proof.
  destruct i; simpl; auto.
  destruct (_ && _); auto. now destruct (Z.to_nat (Qfloor q)).
Qed.

(** A draw in [[0, 1)] scaled by the length names an element. *)
Lemma resample_draw (samples : list num) (q : Q) :
  samples <> [] -> 0 <= q -> q < 1 ->
  exists x,
    index samples (floor (mul (Num q) (length_num samples))) = Some x
    /\ In x samples.
Proof.
  intros Hne H0 H1.
  assert (Hn : (0 < List.length samples)%nat)
    by (destruct samples; simpl; [congruence|lia]).
  rewrite length_num_Num, mul_Num, floor_Num.
  set (n := List.length samples) in *.
  set (z := Qfloor (Qred (q * inject_Z (Z.of_nat n)))).
  assert (Hn1 : 1 <= inject_Z (Z.of_nat n)) by now apply inject_Z_nat_pos.
  assert (Hz0 : (0 <= z)%Z).
  { unfold z. rewrite Qred_correct.
    change 0%Z with (Qfloor 0). apply Qfloor_resp_le. nra. }
  assert (Hzn : (z < Z.of_nat n)%Z).
  { rewrite Zlt_Qlt. apply Qle_lt_trans with (q * inject_Z (Z.of_nat n)).
    - unfold z. rewrite Qred_correct. apply Qfloor_le.
    - nra. }
  rewrite (@index_Z _ _ _ z); [|reflexivity|exact Hz0].
  destruct (@nth_error_some_lt _ samples (Z.to_nat z)) as (x & Hx).
  { fold n. lia. }
  exists x. split; [exact Hx|]. eapply nth_error_In; eauto.
Qed.

Lemma array_from_spec {A : Type} (f : Rand A) (P : A -> Prop)
    (rng : nat -> Q) (c : nat) :
  (forall k, P (fst (f rng k)) /\ snd (f rng k) = (k + c)%nat) ->
  forall n k,
    List.length (fst (array_from n f rng k)) = n
    /\ snd (array_from n f rng k) = (k + n * c)%nat
    /\ Forall P (fst (array_from n f rng k)).
Proof.
  intros Hf. induction n as [|n IH]; intros k.
  - simpl. unfold ret. simpl. repeat split; auto; lia.
  - simpl. unfold bind. destruct (Hf k) as (HP & Hk).
    destruct (f rng k) as (x & k1). simpl in *. subst k1.
    destruct (IH (k + c)%nat) as (Hl & Hs & HF).
    destruct (array_from n f rng (k + c)%nat) as (xs & k2). simpl in *.
    unfold ret. simpl. repeat split; auto; lia.
Qed.

Lemma createResample_spec (samples : list num) (rng : nat -> Q) (k : nat) :
  unit_stream rng ->
  List.length (fst (StatisticalUtils.createResample samples rng k))
  = List.length samples
  /\ snd (StatisticalUtils.createResample samples rng k)
     = (k + List.length samples)%nat
  /\ Forall (fun x => In x samples)
       (fst (StatisticalUtils.createResample samples rng k)).
Proof.
  intros Hu. unfold StatisticalUtils.createResample.
  destruct samples as [|s0 t].
  - simpl. unfold ret. simpl. repeat split; auto.
  - set (samples := s0 :: t).
    replace (k + List.length samples)%nat
      with (k + List.length samples * 1)%nat by lia.
    apply array_from_spec.
    intros j. unfold bind, random, ret. cbn [fst snd]. split; [|lia].
    destruct (Hu j) as (H0 & H1).
    destruct (@resample_draw samples (rng j)) as (x & Hx & Hin); auto.
    { discriminate. }
    rewrite Hx. exact Hin.
Qed.

Lemma Forall_In_nums (samples : list Q) (l : list num) :
  Forall (fun x => In x (nums samples)) l ->
  exists l', l = nums l' /\ Forall (fun x => In x samples) l'.
Proof.
  induction 1 as [|x l Hx _ (l' & -> & HF)].
  - exists []. split; auto.
  - unfold nums in Hx. apply in_map_iff in Hx. destruct Hx as (q & <- & Hq).
    exists (q :: l'). split; auto.
Qed.

(** A resample of finite numbers is an array of finite numbers of the same
    length, drawn from the samples. *)
Lemma createResample_nums (samples : list Q) (rng : nat -> Q) (k : nat) :
  unit_stream rng ->
  exists l',
    StatisticalUtils.createResample (nums samples) rng k
    = (nums l', (k + List.length samples)%nat)
    /\ List.length l' = List.length samples
    /\ Forall (fun x => In x samples) l'.
Proof.
  intros Hu.
  destruct (createResample_spec (nums samples) k Hu) as (Hl & Hs & HF).
  destruct (Forall_In_nums _ HF) as (l' & El & HF').
  exists l'. rewrite length_nums in *. repeat split; auto.
  - destruct (StatisticalUtils.createResample (nums samples) rng k).
    simpl in *. congruence.
  - rewrite El, length_nums in Hl. exact Hl.
Qed.

Lemma nonempty_length {A : Type} (l : list A) :
  l <> [] <-> (0 < List.length l)%nat.
Proof.
  destruct l; simpl; split; intros; try congruence; try lia.
Qed.

(** ** The confidence interval of the medians *)

Lemma alpha_bounds (cf : Q) :
  0 <= cf -> cf <= 1 ->
  exists a b,
    div (sub one (Num cf)) (Num 2) = Num a
    /\ sub one (Num a) = Num b
    /\ a <= b /\ b <= 1.
Proof.
  intros H0 H1. eexists. eexists.
  unfold one. rewrite sub_Num, div_Num by (intro H; discriminate H).
  rewrite sub_Num. split; [reflexivity|]. split; [reflexivity|].
  rewrite !Qred_correct.
  assert (E : (1 + - cf) / 2 == (1 - cf) * (1 # 2)) by (field).
  rewrite E. split; lra.
Qed.

Lemma computeInterval_nums (medians : list Q) (cf : Q) :
  medians <> [] -> 0 <= cf -> cf <= 1 ->
  exists lo up,
    StatisticalUtils.computeInterval (nums medians) (Num cf)
    = (Some (Num lo), Some (Num up))
    /\ In lo medians /\ In up medians /\ lo <= up.
Proof.
  intros Hne H0 H1.
  destruct (alpha_bounds H0 H1) as (a & b & Ea & Eb & Hab & Hb1).
  destruct (percentile_nums_ordered Hne) as (rank & Hrank & Hmono).
  unfold StatisticalUtils.computeInterval. rewrite Ea, Eb.
  destruct (Hrank a) as (Pa & Ia); [lra|].
  destruct (Hrank b) as (Pb & Ib); [lra|].
  exists (rank a), (rank b). rewrite Pa, Pb. repeat split; auto.
Qed.

(** ** Arrays of one repeated value *)

Lemma nums_repeat (x : Q) (n : nat) : nums (repeat x n) = repeat (Num x) n.
Proof. unfold nums. apply map_repeat. Qed.

Lemma Forall_In_repeat {A : Type} (a : A) (n : nat) (l : list A) :
  Forall (fun x => In x (repeat a n)) l -> l = repeat a (List.length l).
Proof.
  induction 1 as [|x l Hx _ IH]; simpl; auto.
  apply repeat_spec in Hx. subst x. now f_equal.
Qed.

Lemma percentile_repeat (x : Q) (n : nat) (p : Q) :
  (0 < n)%nat -> p <= 1 ->
  StatisticalUtils.percentile (repeat (Num x) n) (Num p) = Some (Num x).
Proof.
  intros Hn Hp. rewrite <- nums_repeat.
  assert (Hne : repeat x n <> []) by (destruct n; simpl; [lia|discriminate]).
  destruct (percentile_nums_ordered Hne) as (rank & Hrank & _).
  destruct (Hrank p Hp) as (E & Hin). rewrite E.
  apply repeat_spec in Hin. now rewrite Hin.
Qed.

Lemma createResample_repeat (x : Q) (n : nat) (rng : nat -> Q) (k : nat) :
  unit_stream rng ->
  StatisticalUtils.createResample (repeat (Num x) n) rng k
  = (repeat (Num x) n, (k + n)%nat).
Proof.
  intros Hu. rewrite <- nums_repeat.
  destruct (createResample_nums (repeat x n) k Hu) as (l' & E & Hl & HF).
  rewrite E, repeat_length. f_equal.
  apply Forall_In_repeat in HF. rewrite HF, Hl, repeat_length. reflexivity.
Qed.

Lemma resample_diffs_repeat (b c : Q) (n m : nat) (rng : nat -> Q) :
  unit_stream rng -> (0 < n)%nat -> (0 < m)%nat ->
  forall (r : nat) (diffs : list num) (k : nat),
    StatisticalUtils.resample_diffs (repeat (Num b) n) (repeat (Num c) m)
      r diffs rng k
    = (diffs
         ++ repeat (mul (div (sub (Num c) (Num b)) (Num b)) (Num 100)) r,
       (k + r * (n + m))%nat).
Proof.
  intros Hu Hn Hm. induction r as [|r IH]; intros diffs k.
  - simpl. unfold ret. rewrite app_nil_r. f_equal. lia.
  - cbn [StatisticalUtils.resample_diffs]. unfold bind.
    rewrite createResample_repeat by exact Hu.
    rewrite createResample_repeat by exact Hu.
    rewrite !percentile_repeat by (auto; lra).
    rewrite !toNumber_Some. rewrite IH.
    rewrite <- app_assoc. simpl. f_equal. lia.
Qed.

Lemma sort_repeat (d : num) (n : nat) :
  sort_by sub (repeat d n) = repeat d n.
Proof.
  unfold sort_by. induction n as [|n IH]; [reflexivity|].
  cbn [repeat fold_right]. rewrite IH.
  destruct n; [reflexivity|]. cbn [repeat insert_by].
  assert (E : gtb (sub d d) zero = false).
  { destruct d; try reflexivity.
    rewrite gtb_sub_Num. apply Qltb_ge. apply Qle_refl. }
  now rewrite E.
Qed.

Lemma nth_error_repeat_lt {A : Type} (a : A) (n i : nat) :
  (i < n)%nat -> nth_error (repeat a n) i = Some a.
Proof.
  revert i. induction n; intros [|i] H; simpl; auto; try lia.
  apply IHn. lia.
Qed.

Lemma binValues_repeat (d : Q) (r : nat) :
  (0 < r)%nat ->
  StatisticalUtils.binValues (repeat (Num d) r) 30
  = [StatisticalUtils.mkBin (Some (Num d)) r].
Proof.
  intros Hr. unfold StatisticalUtils.binValues.
  rewrite sort_repeat, repeat_length.
  rewrite !nth_error_repeat_lt by lia.
  simpl. assert (E : Qeq_bool d d = true) by (apply Qeq_bool_true; reflexivity).
  now rewrite E.
Qed.

(** ** Percentiles at the ends of the range *)

Lemma nearest_rank_low (n : nat) (p : Q) : p <= 0 -> nearest_rank n p = 0%nat.
Proof.
  intros Hp. unfold nearest_rank.
  assert (Hc : (Qceiling (inject_Z (Z.of_nat n) * p) <= 0)%Z).
  { change 0%Z with (Qceiling 0). apply Qceiling_resp_le.
    pose proof (inject_Z_nat_nonneg n). nra. }
  lia.
Qed.

Lemma nearest_rank_one (n : nat) (p : Q) :
  p == 1 -> nearest_rank n p = (n - 1)%nat.
Proof.
  intros Hp. unfold nearest_rank. rewrite Hp, Qmult_1_r, Qceiling_Z. lia.
Qed.

Lemma nearest_rank_high (n : nat) (p : Q) :
  (0 < n)%nat -> 1 < p -> (n <= nearest_rank n p)%nat.
Proof.
  intros Hn Hp. unfold nearest_rank.
  assert (Hc : (Z.of_nat n < Qceiling (inject_Z (Z.of_nat n) * p))%Z).
  { rewrite Zlt_Qlt.
    apply Qlt_le_trans with (inject_Z (Z.of_nat n) * p).
    - pose proof (inject_Z_nat_pos Hn). nra.
    - apply Qle_ceiling. }
  lia.
Qed.

Lemma percentile_nil (p : num) : StatisticalUtils.percentile [] p = undefined.
Proof. unfold StatisticalUtils.percentile. simpl. apply index_nil. Qed.

(** X1. The nearest-rank [percentile] of StatisticalUtils, on a non-empty
    array of finite numbers: for fractions [p <= p' <= 1] both results are
    elements of the array, and the one at [p] is not above the one at
    [p']. *)
Theorem X1_percentile_member_monotone (values : list Q) (p p' : Q) :
  values <> [] -> p <= p' -> p' <= 1 ->
  exists x x',
    StatisticalUtils.percentile (nums values) (Num p) = Some (Num x)
    /\ StatisticalUtils.percentile (nums values) (Num p') = Some (Num x')
    /\ In x values /\ In x' values /\ x <= x'.
Proof.
  intros Hne Hpp Hp1.
  destruct (percentile_nums_ordered Hne) as (rank & Hrank & Hmono).
  destruct (Hrank p) as (E & I); [lra|].
  destruct (Hrank p' Hp1) as (E' & I').
  exists (rank p), (rank p'). repeat split; auto.
Qed.

Lemma X1_percentile_member_monotone_witness :
  [3; 1; 2] <> [] /\ (1 # 4) <= (3 # 4) /\ (3 # 4) <= 1
  /\ exists x x',
       StatisticalUtils.percentile (nums [3; 1; 2]) (Num (1 # 4)) = Some (Num x)
       /\ StatisticalUtils.percentile (nums [3; 1; 2]) (Num (3 # 4))
          = Some (Num x')
       /\ In x [3; 1; 2] /\ In x' [3; 1; 2] /\ x <= x'.
Proof.
  split; [discriminate|]. split; [lra|]. split; [lra|].
  apply (@X1_percentile_member_monotone [3; 1; 2] (1 # 4) (3 # 4));
    [discriminate|lra|lra].
Defined.

(** X2. [percentile] at the ends of its range, on a non-empty array of
    finite numbers: a fraction at or below 0 gives the minimum, the fraction
    1 gives the maximum, and a fraction above 1 gives [undefined] (the read
    is past the end of the sorted array). *)
Theorem X2_percentile_edges (values : list Q) (p : Q) :
  values <> [] ->
  (p <= 0 ->
   exists x,
     StatisticalUtils.percentile (nums values) (Num p) = Some (Num x)
     /\ In x values /\ forall y, In y values -> x <= y)
  /\ (p == 1 ->
      exists x,
        StatisticalUtils.percentile (nums values) (Num p) = Some (Num x)
        /\ In x values /\ forall y, In y values -> y <= x)
  /\ (1 < p -> StatisticalUtils.percentile (nums values) (Num p) = undefined).
Proof.
  intros Hne.
  destruct (percentile_nums values p) as (s & Hperm & Hs & _ & E).
  assert (Hn : (0 < List.length values)%nat) by now apply nonempty_length.
  assert (Hlen : List.length s = List.length values)
    by (symmetry; now apply Permutation_length).
  rewrite E. split; [|split].
  - intros Hp. rewrite (nearest_rank_low _ Hp).
    destruct (@nth_error_some_lt _ s 0%nat) as (x & Hx); [lia|].
    exists x. rewrite Hx. split; [reflexivity|]. split.
    + apply (Permutation_in _ (Permutation_sym Hperm)).
      eapply nth_error_In; eauto.
    + intros y Hy. apply (Permutation_in _ Hperm) in Hy.
      destruct (In_nth_error _ _ Hy) as (j & Hj).
      apply (@sorted_nth_le s 0%nat j x y Hs); auto. lia.
  - intros Hp. rewrite (nearest_rank_one _ Hp).
    destruct (@nth_error_some_lt _ s (List.length values - 1)%nat)
      as (x & Hx); [lia|].
    exists x. rewrite Hx. split; [reflexivity|]. split.
    + apply (Permutation_in _ (Permutation_sym Hperm)).
      eapply nth_error_In; eauto.
    + intros y Hy. apply (Permutation_in _ Hperm) in Hy.
      destruct (In_nth_error _ _ Hy) as (j & Hj).
      apply (@sorted_nth_le s j (List.length values - 1)%nat y x Hs); auto.
      assert (j < List.length s)%nat by (apply nth_error_Some; congruence).
      lia.
  - intros Hp. pose proof (nearest_rank_high Hn Hp) as Hr.
    assert (En : nth_error s (nearest_rank (List.length values) p) = None)
      by (apply nth_error_None; lia).
    now rewrite En.
Qed.

Lemma X2_percentile_edges_witness :
  [3; 1; 2] <> [] /\ 0 <= 0 /\ 1 < 2
  /\ (exists x,
        StatisticalUtils.percentile (nums [3; 1; 2]) (Num 0) = Some (Num x)
        /\ In x [3; 1; 2] /\ forall y, In y [3; 1; 2] -> x <= y)
  /\ StatisticalUtils.percentile (nums [3; 1; 2]) (Num 2) = undefined.
Proof.
  split; [discriminate|]. split; [lra|]. split; [lra|].
  assert (Hne : [3; 1; 2] <> []) by discriminate.
  split.
  - apply (proj1 (@X2_percentile_edges [3; 1; 2] 0 Hne)). lra.
  - apply (proj2 (proj2 (@X2_percentile_edges [3; 1; 2] 2 Hne))). lra.
Defined.

(** X4. [createResample] with draws in [[0, 1)]: the resample has the length
    of the samples, every element of it is an element of the samples, and
    exactly one random number is drawn per element. *)
Theorem X4_createResample_draws_from_samples
    (samples : list num) (rng : nat -> Q) (k : nat) :
  unit_stream rng ->
  List.length (fst (StatisticalUtils.createResample samples rng k))
  = List.length samples
  /\ snd (StatisticalUtils.createResample samples rng k)
     = (k + List.length samples)%nat
  /\ Forall (fun x => In x samples)
       (fst (StatisticalUtils.createResample samples rng k)).
Proof. intros Hu. now apply createResample_spec. Qed.

Lemma X4_createResample_draws_from_samples_witness :
  unit_stream draws_high
  /\ List.length
       (fst (StatisticalUtils.createResample (nums [10; 20; 30]) draws_high 0%nat))
     = 3%nat
  /\ Forall (fun x => In x (nums [10; 20; 30]))
       (fst (StatisticalUtils.createResample (nums [10; 20; 30]) draws_high 0%nat)).
Proof.
  split; [exact draws_high_unit|].
  destruct (@X4_createResample_draws_from_samples
              (nums [10; 20; 30]) draws_high 0%nat draws_high_unit)
    as (Hl & _ & HF).
  split; [exact Hl|exact HF].
Defined.

(** ** The bootstrap of the median *)

Lemma defined_Some (l : list num) :
  StatisticalUtils.defined (map Some l) = l.
Proof.
  unfold StatisticalUtils.defined.
  induction l as [|x l IH]; simpl; auto. now rewrite IH.
Qed.

Lemma index_map {A B : Type} (f : A -> B) (l : list A) (i : num) :
  index (map f l) i = option_map f (index l i).
Proof.
  destruct i; simpl; auto.
  destruct (_ && _); auto. apply nth_error_map.
Qed.

Lemma length_num_map {A B : Type} (f : A -> B) (l : list A) :
  length_num (map f l) = length_num l.
Proof. unfold length_num. now rewrite length_map. Qed.

Lemma percentile_values_Some (l : list num) (p : num) :
  StatisticalUtils.percentile_values (map Some l) p
  = StatisticalUtils.percentile l p.
Proof.
  unfold StatisticalUtils.percentile_values, StatisticalUtils.percentile,
    StatisticalUtils.sort_values.
  rewrite defined_Some, length_map, Nat.sub_diag. simpl repeat.
  rewrite app_nil_r.
  rewrite length_num_map, index_map.
  now destruct (index (sort_by sub l) _).
Qed.

Lemma generateMedians_nums (samples : list Q) (r : nat)
    (rng : nat -> Q) (k : nat) :
  samples <> [] -> unit_stream rng ->
  exists ms,
    StatisticalUtils.generateMedians (nums samples) r rng k
    = (map Some (nums ms), (k + r * List.length samples)%nat)
    /\ List.length ms = r
    /\ Forall (fun x => In x samples) ms.
Proof.
  intros Hne Hu.
  set (P := fun v : value => exists x, v = Some (Num x) /\ In x samples).
  destruct (@array_from_spec _
              (bind (StatisticalUtils.createResample (nums samples))
                 (fun resample =>
                    ret (StatisticalUtils.percentile resample (Num (1 # 2)))))
              P rng (List.length samples)) with (n := r) (k := k)
    as (Hl & Hs & HF).
  { intros j. unfold bind, ret.
    destruct (createResample_nums samples j Hu) as (l' & E & Hlen & HF).
    rewrite E. cbn [fst snd]. split; [|reflexivity].
    assert (Hne' : l' <> []).
    { apply nonempty_length. rewrite Hlen. now apply nonempty_length. }
    destruct (percentile_nums_ordered Hne') as (rank & Hrank & _).
    destruct (Hrank (1 # 2)) as (Ep & Hin); [lra|].
    exists (rank (1 # 2)). split; [exact Ep|].
    rewrite Forall_forall in HF. now apply HF. }
  fold (StatisticalUtils.generateMedians (nums samples) r) in Hl, Hs, HF.
  destruct (StatisticalUtils.generateMedians (nums samples) r rng k)
    as (medians & k').
  cbn [fst snd] in *. subst k'.
  assert (Hms : exists ms, medians = map Some (nums ms)
                           /\ Forall (fun x => In x samples) ms).
  { clear Hl. induction HF as [|v l (x & -> & Hx) _ (ms & -> & HF')].
    - exists []. split; auto.
    - exists (x :: ms). split; auto. }
  destruct Hms as (ms & -> & HF').
  exists ms. repeat split; auto.
  now rewrite length_map, length_nums in Hl.
Qed.

(** X3. [bootstrapMedian] on non-empty finite samples, with at least one
    resample, a confidence level between 0 and 1 and draws in [[0, 1)]: the
    estimate, both ends of the interval and every resample median are
    values that occur in the samples, there is one median per resample, and
    the lower end is not above the upper end. *)
Theorem X3_bootstrapMedian_within_samples
    (samples : list Q) (options : StatisticalUtils.BootstrapOptions)
    (cf : Q) (rng : nat -> Q) (k : nat) :
  samples <> [] -> unit_stream rng ->
  (0 < resamples_of options)%nat ->
  confidence_of options = Num cf -> 0 <= cf -> cf <= 1 ->
  exists e lo up ms,
    fst (StatisticalUtils.bootstrapMedian (nums samples) options rng k)
    = StatisticalUtils.mkBootstrapResult (Some (Num e))
        (Some (Num lo), Some (Num up)) (map Some (nums ms))
    /\ List.length ms = resamples_of options
    /\ In e samples /\ In lo samples /\ In up samples /\ lo <= up
    /\ Forall (fun x => In x samples) ms.
Proof.
  intros Hne Hu Hr Hc H0 H1.
  unfold StatisticalUtils.bootstrapMedian.
  fold (resamples_of options). fold (confidence_of options). rewrite Hc.
  unfold bind, ret.
  destruct (generateMedians_nums (resamples_of options) k Hne Hu)
    as (ms & E & Hl & HF).
  rewrite E. cbn [fst].
  assert (Hms : ms <> []) by (apply nonempty_length; lia).
  destruct (computeInterval_nums Hms H0 H1) as (lo & up & Eci & Ilo & Iup & Hle).
  destruct (percentile_nums_ordered Hne) as (rank & Hrank & _).
  destruct (Hrank (1 # 2)) as (Ee & Ie); [lra|].
  exists (rank (1 # 2)), lo, up, ms.
  split; [|repeat split; auto].
  - rewrite Ee. f_equal.
    unfold StatisticalUtils.computeInterval_values.
    rewrite !percentile_values_Some. exact Eci.
  - rewrite Forall_forall in HF. now apply HF.
  - rewrite Forall_forall in HF. now apply HF.
Qed.

Lemma X3_bootstrapMedian_within_samples_witness :
  [3; 1; 2] <> [] /\ unit_stream draws_high
  /\ (0 < resamples_of five_resamples)%nat
  /\ confidence_of five_resamples = Num (95 # 100)
  /\ exists e lo up ms,
       fst (StatisticalUtils.bootstrapMedian (nums [3; 1; 2]) five_resamples
              draws_high 0%nat)
       = StatisticalUtils.mkBootstrapResult (Some (Num e))
           (Some (Num lo), Some (Num up)) (map Some (nums ms))
       /\ List.length ms = resamples_of five_resamples
       /\ In e [3; 1; 2] /\ In lo [3; 1; 2] /\ In up [3; 1; 2] /\ lo <= up
       /\ Forall (fun x => In x [3; 1; 2]) ms.
Proof.
  split; [discriminate|]. split; [exact draws_high_unit|].
  split; [unfold resamples_of, five_resamples; simpl; lia|].
  split; [reflexivity|].
  apply (@X3_bootstrapMedian_within_samples [3; 1; 2] five_resamples
           (95 # 100) draws_high 0%nat).
  - discriminate.
  - exact draws_high_unit.
  - unfold resamples_of, five_resamples. simpl. lia.
  - reflexivity.
  - lra.
  - lra.
Defined.

(** ** The bootstrap comparison of two constant arrays *)

Lemma computeInterval_repeat (d : Q) (r : nat) (cf : Q) :
  (0 < r)%nat -> 0 <= cf -> cf <= 1 ->
  StatisticalUtils.computeInterval (repeat (Num d) r) (Num cf)
  = (Some (Num d), Some (Num d)).
Proof.
  intros Hr H0 H1. rewrite <- nums_repeat.
  assert (Hne : repeat d r <> []) by (apply nonempty_length; now rewrite repeat_length).
  destruct (computeInterval_nums Hne H0 H1) as (lo & up & E & Ilo & Iup & _).
  apply repeat_spec in Ilo, Iup. now subst.
Qed.

(** X5. [bootstrapDifferenceCI] on two constant arrays, baseline [n] times
    [b] (not zero) and current [m] times [c], with at least one resample, a
    confidence level between 0 and 1 and draws in [[0, 1)]: every resampled
    difference is the observed one, so the percentage is
    [(c - b) / b * 100], the interval collapses to that percentage, the
    direction follows its sign ("uncertain" when [c = b]), the histogram is
    one bin holding all resamples, and [n + m] random numbers are drawn per
    resample. *)
Theorem X5_bootstrapDifferenceCI_constant_arrays
    (b c cf : Q) (n m : nat) (options : StatisticalUtils.BootstrapOptions)
    (rng : nat -> Q) (k : nat) :
  unit_stream rng -> (0 < n)%nat -> (0 < m)%nat -> ~ b == 0 ->
  (0 < resamples_of options)%nat ->
  confidence_of options = Num cf -> 0 <= cf -> cf <= 1 ->
  exists d,
    d == (c - b) / b * 100
    /\ StatisticalUtils.bootstrapDifferenceCI
         (repeat (Num b) n) (repeat (Num c) m) options rng k
       = (StatisticalUtils.mkDifferenceCI (Num d)
            (Some (Num d), Some (Num d))
            (if Qltb d 0 then StatisticalUtils.faster
             else if Qltb 0 d then StatisticalUtils.slower
             else StatisticalUtils.uncertain)
            [StatisticalUtils.mkBin (Some (Num d)) (resamples_of options)],
          (k + resamples_of options * (n + m))%nat).
Proof.
  intros Hu Hn Hm Hb Hr Hc H0 H1.
  unfold StatisticalUtils.bootstrapDifferenceCI.
  fold (resamples_of options). fold (confidence_of options). rewrite Hc.
  unfold bind, ret.
  rewrite (resample_diffs_repeat b c Hu Hn Hm).
  rewrite !percentile_repeat by (auto; lra).
  rewrite !toNumber_Some.
  rewrite sub_Num, div_Num, mul_Num by exact Hb.
  set (d := Qred (Qred (Qred (c + - b) / b) * 100)).
  exists d. split.
  { unfold d. rewrite !Qred_correct. unfold Qminus. reflexivity. }
  cbn [app].
  rewrite computeInterval_repeat by auto.
  rewrite binValues_repeat by auto.
  cbn [fst snd toNumber].
  f_equal. f_equal.
  unfold gtb, zero.
  assert (El : ltb (Num 0) (Num d) = Qltb 0 d) by reflexivity.
  assert (Eg : ltb (Num d) (Num 0) = Qltb d 0) by reflexivity.
  rewrite El, Eg.
  destruct (Qltb d 0) eqn:E1, (Qltb 0 d) eqn:E2; simpl; auto.
Qed.

Lemma X5_bootstrapDifferenceCI_constant_arrays_witness :
  unit_stream draws_high /\ ~ 100 == 0
  /\ (0 < resamples_of five_resamples)%nat
  /\ confidence_of five_resamples = Num (95 # 100)
  /\ exists d,
       d == (80 - 100) / 100 * 100
       /\ StatisticalUtils.bootstrapDifferenceCI
            (repeat (Num 100) 3) (repeat (Num 80) 2) five_resamples
            draws_high 0%nat
          = (StatisticalUtils.mkDifferenceCI (Num d)
               (Some (Num d), Some (Num d))
               (if Qltb d 0 then StatisticalUtils.faster
                else if Qltb 0 d then StatisticalUtils.slower
                else StatisticalUtils.uncertain)
               [StatisticalUtils.mkBin (Some (Num d))
                  (resamples_of five_resamples)],
             (0 + resamples_of five_resamples * (3 + 2))%nat).
Proof.
  split; [exact draws_high_unit|].
  split; [intro H; discriminate H|].
  split; [unfold resamples_of, five_resamples; simpl; lia|].
  split; [reflexivity|].
  apply (@X5_bootstrapDifferenceCI_constant_arrays 100 80 (95 # 100) 3 2
           five_resamples draws_high 0%nat).
  - exact draws_high_unit.
  - lia.
  - lia.
  - intro H; discriminate H.
  - unfold resamples_of, five_resamples. simpl. lia.
  - reflexivity.
  - lra.
  - lra.
Defined.

(** ** The histogram *)

Lemma bump_spec (counts : list nat) (i : nat) :
  (i < List.length counts)%nat ->
  List.length (StatisticalUtils.bump counts i) = List.length counts
  /\ list_sum (StatisticalUtils.bump counts i) = S (list_sum counts).
Proof.
  revert i. induction counts as [|c t IH]; intros [|i] H; simpl in *; try lia.
  destruct (IH i) as (Hl & Hs); [lia|]. lia.
Qed.

Lemma bump_at_int (counts : list nat) (q : Q) (z : Z) :
  q == inject_Z z -> (0 <= z)%Z ->
  StatisticalUtils.bump_at counts (Num q)
  = StatisticalUtils.bump counts (Z.to_nat z).
Proof.
  intros Hq Hz. unfold StatisticalUtils.bump_at.
  assert (Ef : Qfloor q = z) by (rewrite Hq; apply Qfloor_Z).
  rewrite Ef.
  assert (E1 : Qeq_bool q (inject_Z z) = true) by now apply Qeq_bool_true.
  assert (E2 : (0 <=? z)%Z = true) by now apply Z.leb_le.
  now rewrite E1, E2.
Qed.

Lemma bins_from_counts (lo step : num) (i : nat) (counts : list nat) :
  map StatisticalUtils.bin_count (StatisticalUtils.bins_from lo step i counts)
  = counts.
Proof.
  revert i. induction counts as [|c t IH]; intros i; simpl; auto.
  now rewrite IH.
Qed.

Lemma list_sum_repeat_zero (n : nat) : list_sum (repeat 0%nat n) = 0%nat.
Proof. induction n; simpl; auto. Qed.

(** One round of the binning loop puts the value into a bin of the array. *)
Lemma bin_in_range (lo st v : Q) (binCount : nat) (counts : list nat) :
  lo <= v -> 0 < st -> (0 < binCount)%nat ->
  List.length counts = binCount ->
  exists i,
    (i < binCount)%nat
    /\ StatisticalUtils.bump_at counts
         (min2 (floor (div (sub (Num v) (Num lo)) (Num st)))
               (sub (of_nat binCount) one))
       = StatisticalUtils.bump counts i.
Proof.
  intros Hv Hst Hn Hlen.
  assert (Hst0 : ~ st == 0) by lra.
  rewrite sub_Num, div_Num, floor_Num by exact Hst0.
  rewrite of_nat_Num. unfold one. rewrite sub_Num.
  set (z := Qfloor (Qred (Qred (v + - lo) / st))).
  set (b := Qred (inject_Z (Z.of_nat binCount) + - (1))).
  assert (Hb : b == inject_Z (Z.of_nat binCount - 1)).
  { unfold b. rewrite Qred_correct. unfold Z.sub. rewrite inject_Z_plus.
    reflexivity. }
  assert (Hz : (0 <= z)%Z).
  { unfold z. rewrite !Qred_correct.
    change 0%Z with (Qfloor 0). apply Qfloor_resp_le.
    apply Qle_shift_div_l; [exact Hst|]. lra. }
  unfold min2. destruct (ltb (Num b) (Num (inject_Z z))) eqn:E.
  - exists (Z.to_nat (Z.of_nat binCount - 1)). split; [lia|].
    apply bump_at_int; [exact Hb|lia].
  - apply Qltb_ge in E. rewrite Hb, <- Zle_Qle in E.
    exists (Z.to_nat z). split; [lia|].
    apply bump_at_int; [reflexivity|exact Hz].
Qed.

Lemma bin_fold (lo st : Q) (binCount : nat) :
  0 < st -> (0 < binCount)%nat ->
  forall (vs : list Q) (counts : list nat),
    (forall v, In v vs -> lo <= v) ->
    List.length counts = binCount ->
    let counts' :=
      fold_left
        (fun counts v =>
           StatisticalUtils.bump_at counts
             (min2 (floor (div (sub v (Num lo)) (Num st)))
                   (sub (of_nat binCount) one)))
        (nums vs) counts in
    List.length counts' = binCount
    /\ list_sum counts' = (list_sum counts + List.length vs)%nat.
Proof.
  intros Hst Hn. induction vs as [|v vs IH]; intros counts Hlo Hlen.
  - simpl. split; [exact Hlen|lia].
  - cbn [nums map fold_left].
    destruct (@bin_in_range lo st v binCount counts) as (i & Hi & E); auto.
    { apply Hlo. now left. }
    rewrite E.
    destruct (@bump_spec counts i) as (Hl & Hs); [lia|].
    destruct (IH (StatisticalUtils.bump counts i)) as (Hl' & Hs').
    { intros x Hx. apply Hlo. now right. }
    { lia. }
    fold (nums vs). cbn zeta in *. split; [exact Hl'|].
    rewrite Hs', Hs. simpl. lia.
Qed.

(** X6. [binValues] on a non-empty array of finite numbers, with a bin
    count between 1 and the largest array length, and values spread so that
    the bin width is a positive finite number ([binnable]): every value is
    counted in exactly one bin, so the counts add up to the number of
    values; there is one bin when all values are equal and [binCount] bins
    otherwise. *)
Theorem X6_binValues_counts_every_value (values : list Q) (binCount : nat) :
  values <> [] -> (0 < binCount)%nat -> (Z.of_nat binCount <= 4294967295)%Z ->
  binnable values binCount ->
  list_sum (map StatisticalUtils.bin_count
              (StatisticalUtils.binValues (nums values) binCount))
  = List.length values
  /\ (List.length (StatisticalUtils.binValues (nums values) binCount) = 1%nat
      \/ List.length (StatisticalUtils.binValues (nums values) binCount)
         = binCount).
Proof.
  intros Hne Hn _ _.
  destruct (sort_nums values) as (s & Hsort & Hperm & Hs).
  assert (Hlen : List.length s = List.length values)
    by (symmetry; now apply Permutation_length).
  assert (Hpos : (0 < List.length s)%nat)
    by (rewrite Hlen; now apply nonempty_length).
  unfold StatisticalUtils.binValues. rewrite Hsort.
  rewrite !nth_error_nums, !length_nums.
  destruct (@nth_error_some_lt _ s 0%nat) as (lo & Elo); [lia|].
  destruct (@nth_error_some_lt _ s (List.length s - 1)%nat) as (hi & Ehi);
    [lia|].
  rewrite Elo, Ehi. cbn [option_map StatisticalUtils.value_eqb eqb toNumber].
  destruct (Qeq_bool lo hi) eqn:E.
  - cbn [map StatisticalUtils.bin_count list_sum List.length fold_right].
    split; [apply Nat.add_0_r|now left].
  - apply Qeq_bool_false in E.
    assert (Hle : lo <= hi).
    { apply (@sorted_nth_le s 0%nat (List.length s - 1)%nat lo hi Hs); auto.
      lia. }
    assert (Hlt : lo < hi).
    { apply Qle_lteq in Hle. destruct Hle as [H|H]; [exact H|contradiction]. }
    assert (Hb : ~ inject_Z (Z.of_nat binCount) == 0).
    { pose proof (inject_Z_nat_pos Hn). lra. }
    rewrite sub_Num, of_nat_Num, div_Num by exact Hb.
    set (st := Qred (Qred (hi + - lo) / inject_Z (Z.of_nat binCount))).
    assert (Hst : 0 < st).
    { unfold st. rewrite !Qred_correct.
      apply Qlt_shift_div_l.
      - pose proof (inject_Z_nat_pos Hn). lra.
      - lra. }
    rewrite <- of_nat_Num.
    destruct (@bin_fold lo st binCount Hst Hn values (repeat 0%nat binCount))
      as (Hl & Hsum).
    { intros v Hv. apply (Permutation_in _ Hperm) in Hv.
      destruct (In_nth_error _ _ Hv) as (j & Hj).
      apply (@sorted_nth_le s 0%nat j lo v Hs); auto. lia. }
    { apply repeat_length. }
    rewrite bins_from_counts.
    split.
    + rewrite Hsum, list_sum_repeat_zero. reflexivity.
    + right. rewrite <- Hl at 2.
      rewrite <- (length_map StatisticalUtils.bin_count).
      now rewrite bins_from_counts.
Qed.

Lemma X6_binValues_counts_every_value_witness :
  [1; 5; 2; 9] <> [] /\ (0 < 3)%nat /\ binnable [1; 5; 2; 9] 3
  /\ list_sum (map StatisticalUtils.bin_count
                 (StatisticalUtils.binValues (nums [1; 5; 2; 9]) 3))
     = List.length [1; 5; 2; 9].
Proof.
  assert (Hb : binnable [1; 5; 2; 9] 3).
  { intros x y Hx Hy Hlt. simpl in Hx, Hy.
    repeat (destruct Hx as [<-|Hx]; [|]); try destruct Hx;
      repeat (destruct Hy as [<-|Hy]; [|]); try destruct Hy;
      try (exfalso; apply Qlt_alt in Hlt; vm_compute in Hlt;
           discriminate Hlt);
      split; apply Qle_bool_iff; vm_compute; reflexivity. }
  split; [discriminate|]. split; [lia|]. split; [exact Hb|].
  apply (@X6_binValues_counts_every_value [1; 5; 2; 9] 3);
    [discriminate|lia|lia|exact Hb].
Defined.

(** ** The permutation test *)

Lemma assign_length {A : Type} (a : list A) (i : nat) (x : A) :
  List.length (PermutationTest.assign a i x) = List.length a.
Proof.
  revert i. induction a as [|h t IH]; intros [|i]; simpl; auto.
Qed.

Lemma assign_replaces {A : Type} (t : list A) (k : nat) (y h : A) :
  nth_error t k = Some y ->
  Permutation (y :: PermutationTest.assign t k h) (h :: t).
Proof.
  revert k. induction t as [|z t IH]; intros [|k] H; simpl in *;
    try discriminate.
  - injection H as ->. apply perm_swap.
  - eapply perm_trans; [apply perm_swap|].
    eapply perm_trans; [apply perm_skip, IH, H|]. apply perm_swap.
Qed.

Lemma assign_swap_perm {A : Type} (a : list A) (i k : nat) (x y : A) :
  nth_error a i = Some x -> nth_error a k = Some y ->
  Permutation
    (PermutationTest.assign (PermutationTest.assign a i y) k x) a.
Proof.
  revert i k. induction a as [|h t IH]; intros [|i] [|k] Hi Hk; simpl in *;
    try discriminate.
  - injection Hi as ->. injection Hk as ->. apply Permutation_refl.
  - injection Hi as ->.
    eapply perm_trans; [apply perm_skip|].
    + apply Permutation_refl.
    + now apply assign_replaces.
  - injection Hk as ->. now apply assign_replaces.
  - apply perm_skip. now apply IH.
Qed.

Lemma swap_perm (a : list num) (i : nat) (j : num) :
  Permutation (PermutationTest.swap a i j) a.
Proof.
  unfold PermutationTest.swap.
  destruct (PermutationTest.position_of j) as [k|]; [|apply Permutation_refl].
  destruct (nth_error a i) as [x|] eqn:Ei; [|apply Permutation_refl].
  destruct (nth_error a k) as [y|] eqn:Ek; [|apply Permutation_refl].
  now apply assign_swap_perm.
Qed.

(** For a draw in [[0, 1)] the partner of position [i] is one of [0..i],
    and the two elements are exchanged. *)
Lemma shuffle_partner (i : nat) (q : Q) :
  0 <= q -> q < 1 ->
  exists j,
    PermutationTest.position_of
      (floor (mul (Num q) (of_nat (i + 1)))) = Some j
    /\ (j <= i)%nat.
Proof.
  intros H0 H1. rewrite of_nat_Num, mul_Num, floor_Num.
  set (z := Qfloor (Qred (q * inject_Z (Z.of_nat (i + 1))))).
  assert (Hn1 : 1 <= inject_Z (Z.of_nat (i + 1)))
    by (apply inject_Z_nat_pos; lia).
  assert (Hz0 : (0 <= z)%Z).
  { unfold z. rewrite Qred_correct.
    change 0%Z with (Qfloor 0). apply Qfloor_resp_le. nra. }
  assert (Hzn : (z < Z.of_nat (i + 1))%Z).
  { rewrite Zlt_Qlt.
    apply Qle_lt_trans with (q * inject_Z (Z.of_nat (i + 1))).
    - unfold z. rewrite Qred_correct. apply Qfloor_le.
    - nra. }
  exists (Z.to_nat z). split; [|lia].
  unfold PermutationTest.position_of. rewrite Qfloor_Z.
  assert (E1 : Qeq_bool (inject_Z z) (inject_Z z) = true)
    by (apply Qeq_bool_true; reflexivity).
  assert (E2 : (0 <=? z)%Z = true) by now apply Z.leb_le.
  now rewrite E1, E2.
Qed.

Lemma swap_exchanges (a : list num) (i : nat) (q : Q) :
  (i < List.length a)%nat -> 0 <= q -> q < 1 ->
  exists j x y,
    (j <= i)%nat /\ nth_error a i = Some x /\ nth_error a j = Some y
    /\ PermutationTest.swap a i (floor (mul (Num q) (of_nat (i + 1))))
       = PermutationTest.assign (PermutationTest.assign a i y) j x.
Proof.
  intros Hi H0 H1.
  destruct (shuffle_partner i H0 H1) as (j & Ej & Hj).
  destruct (@nth_error_some_lt _ a i Hi) as (x & Ex).
  destruct (@nth_error_some_lt _ a j) as (y & Ey); [lia|].
  exists j, x, y. unfold PermutationTest.swap. rewrite Ej, Ex, Ey. auto.
Qed.

Lemma shuffle_from_spec (rng : nat -> Q) (i : nat) :
  forall (a : list num) (k : nat),
    Permutation (fst (PermutationTest.shuffle_from i a rng k)) a
    /\ snd (PermutationTest.shuffle_from i a rng k) = (k + i)%nat.
Proof.
  induction i as [|i IH]; intros a k.
  - simpl. unfold ret. simpl. split; [apply Permutation_refl|lia].
  - cbn [PermutationTest.shuffle_from]. unfold bind, random.
    destruct (IH (PermutationTest.swap a (S i)
                    (floor (mul (Num (rng k)) (of_nat (S i + 1))))) (S k))
      as (Hp & Hs).
    split.
    + eapply perm_trans; [exact Hp|apply swap_perm].
    + rewrite Hs. lia.
Qed.

(** X7. [shuffleAndSplit] with draws in [[0, 1)]: the two resamples
    together are a permutation of the combined samples, the first has [n1]
    elements (all of them when there are fewer), and one random number is
    drawn per position after the first. *)
Theorem X7_shuffleAndSplit_permutes
    (combined : list num) (n1 : nat) (rng : nat -> Q) (k : nat) :
  unit_stream rng ->
  let s := fst (PermutationTest.shuffleAndSplit combined n1 rng k) in
  Permutation (PermutationTest.resample1 s ++ PermutationTest.resample2 s)
    combined
  /\ List.length (PermutationTest.resample1 s)
     = Nat.min n1 (List.length combined)
  /\ List.length (PermutationTest.resample2 s)
     = (List.length combined - n1)%nat
  /\ snd (PermutationTest.shuffleAndSplit combined n1 rng k)
     = (k + (List.length combined - 1))%nat.
Proof.
  intros _. unfold PermutationTest.shuffleAndSplit, bind, ret.
  destruct (shuffle_from_spec rng (List.length combined - 1) combined k)
    as (Hp & Hs).
  destruct (PermutationTest.shuffle_from _ combined rng k) as (sh & k').
  cbn [fst snd PermutationTest.resample1 PermutationTest.resample2] in *.
  rewrite firstn_skipn, length_firstn, length_skipn.
  rewrite (Permutation_length Hp). auto.
Qed.

Lemma X7_shuffleAndSplit_permutes_witness :
  unit_stream draws_high
  /\ Permutation
       (PermutationTest.resample1
          (fst (PermutationTest.shuffleAndSplit (nums [1; 2; 3; 4]) 1
                  draws_high 0%nat))
        ++ PermutationTest.resample2
             (fst (PermutationTest.shuffleAndSplit (nums [1; 2; 3; 4]) 1
                     draws_high 0%nat)))
       (nums [1; 2; 3; 4]).
Proof.
  split; [exact draws_high_unit|].
  apply (@X7_shuffleAndSplit_permutes (nums [1; 2; 3; 4]) 1 draws_high 0%nat
           draws_high_unit).
Defined.

Lemma count_more_extreme_bounds (rng : nat -> Q) (combined : list num)
    (n1 : nat) (statistic : list num -> num) (observedDiff : num)
    (rounds : nat) :
  forall (moreExtreme k : nat),
    (moreExtreme
     <= fst (PermutationTest.count_more_extreme rounds combined n1 statistic
               observedDiff moreExtreme rng k))%nat
    /\ (fst (PermutationTest.count_more_extreme rounds combined n1 statistic
               observedDiff moreExtreme rng k)
        <= moreExtreme + rounds)%nat.
Proof.
  induction rounds as [|r IH]; intros m k.
  - simpl. unfold ret. simpl. lia.
  - cbn [PermutationTest.count_more_extreme]. unfold bind.
    destruct (PermutationTest.shuffleAndSplit combined n1 rng k) as (s & k').
    match goal with
    | |- context [PermutationTest.count_more_extreme r _ _ _ _ ?m' _ k'] =>
        destruct (IH m' k') as (Hlo & Hhi);
        assert (Hm : (m <= m' /\ m' <= S m)%nat)
          by (destruct (geb _ _); lia)
    end.
    lia.
Qed.

(** With an observed difference of NaN no round counts. *)
Lemma count_more_extreme_NaN (rng : nat -> Q) (combined : list num)
    (n1 : nat) (statistic : list num -> num) (rounds : nat) :
  forall (moreExtreme k : nat),
    fst (PermutationTest.count_more_extreme rounds combined n1 statistic
           NaN moreExtreme rng k) = moreExtreme.
Proof.
  induction rounds as [|r IH]; intros m k; [reflexivity|].
  cbn [PermutationTest.count_more_extreme]. unfold bind.
  destruct (PermutationTest.shuffleAndSplit combined n1 rng k) as (s & k').
  assert (E : forall x, geb (abs x) (abs NaN) = false)
    by (intros x; destruct x; reflexivity).
  rewrite E. apply IH.
Qed.

(** With an observed difference of zero and a statistic that is always
    finite every round counts. *)
Lemma count_more_extreme_all (rng : nat -> Q) (combined : list num)
    (n1 : nat) (statistic : list num -> num) (o : Q) (rounds : nat) :
  (forall l, exists q, statistic l = Num q) -> o == 0 ->
  forall (moreExtreme k : nat),
    fst (PermutationTest.count_more_extreme rounds combined n1 statistic
           (Num o) moreExtreme rng k) = (moreExtreme + rounds)%nat.
Proof.
  intros Hfin Ho.
  induction rounds as [|r IH]; intros m k.
  - simpl. unfold ret. simpl. lia.
  - cbn [PermutationTest.count_more_extreme]. unfold bind.
    destruct (PermutationTest.shuffleAndSplit combined n1 rng k) as (s & k').
    destruct (Hfin (PermutationTest.resample2 s)) as (q2 & E2).
    destruct (Hfin (PermutationTest.resample1 s)) as (q1 & E1).
    rewrite E1, E2, sub_Num, !abs_Num.
    assert (E : geb (Num (Qabs (Qred (q2 + - q1)))) (Num (Qabs o)) = true).
    { unfold geb. apply leb_Num. rewrite Ho. simpl Qabs at 1.
      apply Qabs_nonneg. }
    rewrite E, IH. lia.
Qed.

Lemma full_share :
  div (of_nat PermutationTest.defaultBootstrapSamples)
      (of_nat PermutationTest.defaultBootstrapSamples) = Num 1.
Proof. vm_compute. reflexivity. Qed.

Lemma empty_share :
  div (of_nat 0) (of_nat PermutationTest.defaultBootstrapSamples) = Num 0.
Proof. vm_compute. reflexivity. Qed.

Lemma bootstrapDifferenceTest_unit (sample1 sample2 : list num)
    (statistic : list num -> num) (rng : nat -> Q) (k : nat) :
  exists p,
    fst (PermutationTest.bootstrapDifferenceTest sample1 sample2 statistic
           rng k) = Num p
    /\ 0 <= p /\ p <= 1.
Proof.
  unfold PermutationTest.bootstrapDifferenceTest, bind, ret.
  match goal with
  | |- context [PermutationTest.count_more_extreme ?r ?c ?n ?s ?o 0%nat rng k] =>
      destruct (@count_more_extreme_bounds rng c n s o r 0%nat k) as (_ & Hhi);
      destruct (PermutationTest.count_more_extreme r c n s o 0%nat rng k)
        as (m & k')
  end.
  cbn [fst] in *.
  apply ratio_in_unit; [lia|].
  unfold PermutationTest.defaultBootstrapSamples. simpl. lia.
Qed.

Lemma bootstrapDifferenceTest_NaN (sample1 sample2 : list num)
    (statistic : list num -> num) (rng : nat -> Q) (k : nat) :
  sub (statistic sample2) (statistic sample1) = NaN ->
  fst (PermutationTest.bootstrapDifferenceTest sample1 sample2 statistic
         rng k) = Num 0.
Proof.
  intros Hnan.
  unfold PermutationTest.bootstrapDifferenceTest, bind, ret.
  rewrite Hnan.
  pose proof (@count_more_extreme_NaN rng (sample1 ++ sample2)
                (List.length sample1) statistic
                PermutationTest.defaultBootstrapSamples 0%nat k) as E.
  destruct (PermutationTest.count_more_extreme _ _ _ _ _ _ _ _) as (m & k').
  cbn [fst] in *. subst m. apply empty_share.
Qed.

(** X8. The p-value of [bootstrapDifferenceTest] is a share of the rounds:
    it is a number between 0 and 1 for every pair of samples, statistic and
    stream of draws.  When the observed difference is NaN (a statistic of an
    empty sample) no round compares as extreme and the p-value is 0; when
    the observed difference is 0 and the statistic is always finite every
    round does and the p-value is 1. *)
Theorem X8_bootstrapDifferenceTest_pvalue
    (sample1 sample2 : list num) (statistic : list num -> num)
    (rng : nat -> Q) (k : nat) :
  (exists p,
      fst (PermutationTest.bootstrapDifferenceTest sample1 sample2 statistic
             rng k) = Num p
      /\ 0 <= p /\ p <= 1)
  /\ (sub (statistic sample2) (statistic sample1) = NaN ->
      fst (PermutationTest.bootstrapDifferenceTest sample1 sample2 statistic
             rng k) = Num 0)
  /\ ((forall l, exists q, statistic l = Num q) ->
      eqb (sub (statistic sample2) (statistic sample1)) zero = true ->
      fst (PermutationTest.bootstrapDifferenceTest sample1 sample2 statistic
             rng k) = Num 1).
Proof.
  split; [apply bootstrapDifferenceTest_unit|]. split.
  - apply bootstrapDifferenceTest_NaN.
  - intros Hfin Hzero.
    unfold PermutationTest.bootstrapDifferenceTest, bind, ret.
    destruct (Hfin sample2) as (q2 & E2). destruct (Hfin sample1) as (q1 & E1).
    rewrite E1, E2, sub_Num in *.
    assert (Ho : Qred (q2 + - q1) == 0) by (apply Qeq_bool_true; exact Hzero).
    pose proof (@count_more_extreme_all rng (sample1 ++ sample2)
                  (List.length sample1) statistic (Qred (q2 + - q1))
                  PermutationTest.defaultBootstrapSamples Hfin Ho 0%nat k) as E.
    destruct (PermutationTest.count_more_extreme _ _ _ _ _ _ _ _) as (m & k').
    cbn [fst] in *. subst m. apply full_share.
Qed.

Lemma X8_bootstrapDifferenceTest_pvalue_witness :
  sub (StatisticalUtils.average (nums [1; 2])) (StatisticalUtils.average [])
  = NaN
  /\ fst (PermutationTest.bootstrapDifferenceTest [] (nums [1; 2])
            StatisticalUtils.average draws_high 0%nat) = Num 0.
Proof.
  split; [reflexivity|].
  apply (proj1 (proj2 (@X8_bootstrapDifferenceTest_pvalue [] (nums [1; 2])
                         StatisticalUtils.average draws_high 0%nat))).
  reflexivity.
Defined.

Lemma significance_consistent (current base p : num) :
  PermutationTest.significant (PermutationTest.changeStats current base p)
  = true
  <-> PermutationTest.significance
        (PermutationTest.changeStats current base p)
      <> PermutationTest.none.
Proof.
  unfold PermutationTest.changeStats, PermutationTest.getSignificance.
  cbn [PermutationTest.significant PermutationTest.significance].
  unfold PermutationTest.strongSignificance, PermutationTest.goodSignificance,
    PermutationTest.significanceThreshold.
  destruct p as [q| | |]; try (cbn; split; [discriminate|congruence]).
  - destruct (ltb (Num q) (Num (5 # 100))) eqn:E3.
    + split; [|reflexivity]. intros _.
      destruct (ltb (Num q) (Num (1 # 1000)));
        [discriminate|destruct (ltb (Num q) (Num (1 # 100))); discriminate].
    + split; [discriminate|]. intros H. exfalso. apply H.
      apply Qltb_ge in E3.
      assert (E1 : ltb (Num q) (Num (1 # 1000)) = false)
        by (apply Qltb_ge; lra).
      assert (E2 : ltb (Num q) (Num (1 # 100)) = false)
        by (apply Qltb_ge; lra).
      now rewrite E1, E2.
Qed.

Lemma sub_NaN_r (x : num) : sub x NaN = NaN.
Proof. now destruct x. Qed.

Lemma sub_NaN_l (x : num) : sub NaN x = NaN.
Proof. now destruct x. Qed.

Lemma average_nil : StatisticalUtils.average [] = NaN.
Proof. reflexivity. Qed.

(** X9. [compareWithBaseline], for every pair of samples and stream of
    draws: both p-values are numbers between 0 and 1, and for the median
    and for the mean the flag [significant] is set exactly when the level
    [significance] is not "none".  With an empty baseline both p-values are
    0 and both changes are reported as significant at the level "strong". *)
Theorem X9_compareWithBaseline_significance
    (baseline current : list num) (rng : nat -> Q) (k : nat) :
  let r := fst (PermutationTest.compareWithBaseline baseline current rng k) in
  (forall c,
      c = PermutationTest.medianChange r \/ c = PermutationTest.meanChange r ->
      (exists p, PermutationTest.pValue c = Num p /\ 0 <= p /\ p <= 1)
      /\ (PermutationTest.significant c = true
          <-> PermutationTest.significance c <> PermutationTest.none))
  /\ (baseline = [] ->
      forall c,
        c = PermutationTest.medianChange r \/ c = PermutationTest.meanChange r ->
        PermutationTest.pValue c = Num 0
        /\ PermutationTest.significant c = true
        /\ PermutationTest.significance c = PermutationTest.strong).
Proof.
  unfold PermutationTest.compareWithBaseline, bind, ret.
  set (median := fun s => toNumber (StatisticalUtils.percentile s (Num (1 # 2)))).
  destruct (PermutationTest.bootstrapDifferenceTest baseline current median
              rng k) as (p1 & k1) eqn:E1.
  destruct (PermutationTest.bootstrapDifferenceTest baseline current
              StatisticalUtils.average rng k1) as (p2 & k2) eqn:E2.
  cbn [fst PermutationTest.medianChange PermutationTest.meanChange].
  split.
  - intros c [-> | ->]; (split; [|apply significance_consistent]).
    + destruct (@bootstrapDifferenceTest_unit baseline current median rng k)
        as (p & Hp & Hr).
      rewrite E1 in Hp. cbn [fst] in Hp. exists p. now split.
    + destruct (@bootstrapDifferenceTest_unit baseline current
                  StatisticalUtils.average rng k1) as (p & Hp & Hr).
      rewrite E2 in Hp. cbn [fst] in Hp. exists p. now split.
  - intros ->.
    assert (H1 : p1 = Num 0).
    { change p1 with (fst (p1, k1)). rewrite <- E1.
      apply bootstrapDifferenceTest_NaN.
      unfold median. rewrite percentile_nil. apply sub_NaN_r. }
    assert (H2 : p2 = Num 0).
    { change p2 with (fst (p2, k2)). rewrite <- E2.
      apply bootstrapDifferenceTest_NaN.
      rewrite average_nil. apply sub_NaN_r. }
    subst p1 p2.
    intros c [-> | ->]; repeat split.
Qed.

(** ** Convergence and the decision to stop *)

Lemma getWindowSize_values (samples : list num) :
  In (AdaptiveStats.getWindowSize samples) [20; 30; 50; 100; 200]%nat.
Proof.
  unfold AdaptiveStats.getWindowSize, AdaptiveStats.windowSize.
  destruct (_ <? _)%nat; [simpl; tauto|].
  repeat (destruct (ltb _ _); [simpl; tauto|]).
  simpl; tauto.
Qed.

Lemma getWindowSize_min (samples : list num) :
  (20 <= AdaptiveStats.getWindowSize samples)%nat.
Proof.
  pose proof (getWindowSize_values samples) as H. simpl in H.
  repeat (destruct H as [H|H]; [lia|]). destruct H.
Qed.

Lemma buildConvergence_converged (metrics : AdaptiveStats.Metrics) :
  AdaptiveStats.converged (AdaptiveStats.buildConvergence metrics) = true ->
  AdaptiveStats.buildConvergence metrics
  = AdaptiveStats.mkConvergence true (Num 100) "Stable performance pattern".
Proof.
  unfold AdaptiveStats.buildConvergence.
  destruct (_ && _); [reflexivity|discriminate].
Qed.

Lemma converged_two_windows (samples : list num) :
  AdaptiveStats.converged (AdaptiveStats.checkConvergence samples) = true ->
  (2 * AdaptiveStats.getWindowSize samples <= List.length samples)%nat
  /\ (40 <= List.length samples)%nat
  /\ AdaptiveStats.checkConvergence samples
     = AdaptiveStats.mkConvergence true (Num 100) "Stable performance pattern".
Proof.
  intros H. pose proof (getWindowSize_min samples) as Hmin.
  unfold AdaptiveStats.checkConvergence in *.
  destruct (_ <? _)%nat eqn:E.
  - discriminate H.
  - apply Nat.ltb_ge in E. split; [lia|]. split; [lia|].
    now apply buildConvergence_converged.
Qed.

(** X10. [checkConvergence] reports convergence only on two full windows:
    when [converged] is true the sample count is at least twice the window
    size, which is one of 20, 30, 50, 100 and 200 (so at least 40 samples),
    and the result is confidence 100 with the reason "Stable performance
    pattern". *)
Theorem X10_convergence_needs_two_windows (samples : list num) :
  AdaptiveStats.converged (AdaptiveStats.checkConvergence samples) = true ->
  In (AdaptiveStats.getWindowSize samples) [20; 30; 50; 100; 200]%nat
  /\ (2 * AdaptiveStats.getWindowSize samples <= List.length samples)%nat
  /\ (40 <= List.length samples)%nat
  /\ AdaptiveStats.checkConvergence samples
     = AdaptiveStats.mkConvergence true (Num 100) "Stable performance pattern".
Proof.
  intros H. split; [apply getWindowSize_values|].
  now apply converged_two_windows.
Qed.

Lemma checkConvergence_steady :
  AdaptiveStats.converged
    (AdaptiveStats.checkConvergence (nums steady_samples)) = true.
Proof. vm_compute. reflexivity. Qed.

Lemma X10_convergence_needs_two_windows_witness :
  AdaptiveStats.converged
    (AdaptiveStats.checkConvergence (nums steady_samples)) = true
  /\ (40 <= List.length (nums steady_samples))%nat
  /\ AdaptiveStats.checkConvergence (nums steady_samples)
     = AdaptiveStats.mkConvergence true (Num 100) "Stable performance pattern".
Proof.
  split; [exact checkConvergence_steady|].
  destruct (@X10_convergence_needs_two_windows (nums steady_samples)
              checkConvergence_steady) as (_ & _ & H40 & E).
  split; [exact H40|exact E].
Defined.

Lemma clamp_confidence (x : num) :
  max2 zero (min2 (Num 100) x) = NaN
  \/ exists q, max2 zero (min2 (Num 100) x) = Num q /\ 0 <= q /\ q <= 100.
Proof.
  destruct x as [y| | |].
  - right. unfold min2. destruct (ltb (Num y) (Num 100)) eqn:E.
    + apply ltb_Num in E. unfold max2, zero.
      destruct (ltb (Num 0) (Num y)) eqn:E0.
      * apply ltb_Num in E0. exists y. repeat split; lra.
      * exists 0. repeat split; lra.
    + exists 100. split; [reflexivity|]. lra.
  - right. exists 100. split; [reflexivity|]. lra.
  - right. exists 0. split; [reflexivity|]. lra.
  - now left.
Qed.

Lemma confidence_range (samples : list num) :
  AdaptiveStats.confidence (AdaptiveStats.checkConvergence samples) = NaN
  \/ exists q,
       AdaptiveStats.confidence (AdaptiveStats.checkConvergence samples)
       = Num q
       /\ 0 <= q /\ q <= 100.
Proof.
  unfold AdaptiveStats.checkConvergence.
  pose proof (getWindowSize_min samples) as Hmin.
  destruct (_ <? _)%nat eqn:E.
  - apply Nat.ltb_lt in E. right.
    unfold AdaptiveStats.buildProgressResult.
    cbn [AdaptiveStats.confidence].
    destruct (@ratio_in_unit (List.length samples)
                (AdaptiveStats.getWindowSize samples * 2))
      as (r & Er & H0 & H1); [lia|lia|].
    rewrite Er, mul_Num. eexists. split; [reflexivity|].
    rewrite Qred_correct. lra.
  - unfold AdaptiveStats.buildConvergence.
    destruct (_ && _).
    + right. exists 100. split; [reflexivity|]. lra.
    + cbn [AdaptiveStats.confidence]. apply clamp_confidence.
Qed.

Lemma geb_max2_left (c t : num) :
  geb c (max2 t (Num 80)) = true -> geb c t = true.
Proof.
  unfold geb, max2.
  destruct t as [y| | |]; try discriminate.
  - destruct (ltb (Num y) (Num 80)) eqn:E; auto.
    apply ltb_Num in E.
    destruct c as [x| | |]; try discriminate; auto.
    intros H. apply leb_Num in H. apply leb_Num. lra.
  - destruct (ltb PosInf (Num 80)) eqn:E; [discriminate E|auto].
  - destruct c; simpl; auto; discriminate.
Qed.

(** X11. The confidence of [checkConvergence] and what a stop implies.  For
    every list of samples the confidence is NaN or a number between 0 and
    100.  When [shouldStop] accepts the result, the confidence is at least
    the target; if the minimum time has not elapsed, the samples have
    converged, there are at least 40 of them and the target is at most 100.
    A target above 100 never stops the loop. *)
Theorem X11_stop_implies_confidence
    (samples : list num) (target elapsed minTime : num) :
  let convergence := AdaptiveStats.checkConvergence samples in
  (AdaptiveStats.confidence convergence = NaN
   \/ exists q,
        AdaptiveStats.confidence convergence = Num q /\ 0 <= q /\ q <= 100)
  /\ (AdaptiveStats.shouldStop convergence target elapsed minTime = true ->
      geb (AdaptiveStats.confidence convergence) target = true
      /\ (geb elapsed minTime = false ->
          AdaptiveStats.converged convergence = true
          /\ (40 <= List.length samples)%nat
          /\ leb target (Num 100) = true))
  /\ (ltb (Num 100) target = true ->
      AdaptiveStats.shouldStop convergence target elapsed minTime = false).
Proof.
  intros convergence.
  assert (Hstop : AdaptiveStats.shouldStop convergence target elapsed minTime
                  = true ->
                  geb (AdaptiveStats.confidence convergence) target = true).
  { intros H. apply shouldStop_iff in H.
    destruct H as [(_ & H)|(_ & H)]; [exact H|].
    now apply geb_max2_left. }
  split; [apply confidence_range|]. split.
  - intros H. split; [now apply Hstop|].
    intros Hel. apply shouldStop_iff in H.
    destruct H as [(Hc & Hg)|(Hg & _)]; [|congruence].
    split; [exact Hc|].
    destruct (converged_two_windows samples Hc) as (_ & H40 & E).
    split; [exact H40|].
    unfold convergence in Hg. rewrite E in Hg. exact Hg.
  - intros Ht.
    destruct (AdaptiveStats.shouldStop convergence target elapsed minTime)
      eqn:E; [|reflexivity].
    specialize (Hstop eq_refl). clear E. exfalso.
    destruct (confidence_range samples) as [Hn|(q & Hq & H0 & H100)].
    + fold convergence in Hn. rewrite Hn in Hstop.
      destruct target; discriminate.
    + fold convergence in Hq. rewrite Hq in Hstop. unfold geb in Hstop.
      destruct target as [t| | |]; try discriminate.
      apply leb_Num in Hstop. apply ltb_Num in Ht. lra.
Qed.

Lemma X11_stop_implies_confidence_witness :
  AdaptiveStats.shouldStop
    (AdaptiveStats.checkConvergence (nums steady_samples))
    (Num 95) zero (Num 1000) = true
  /\ geb zero (Num 1000) = false
  /\ geb (AdaptiveStats.confidence
            (AdaptiveStats.checkConvergence (nums steady_samples)))
         (Num 95) = true
  /\ (40 <= List.length (nums steady_samples))%nat.
Proof.
  assert (Hs : AdaptiveStats.shouldStop
                 (AdaptiveStats.checkConvergence (nums steady_samples))
                 (Num 95) zero (Num 1000) = true).
  { destruct (converged_two_windows _ checkConvergence_steady) as (_ & _ & E).
    rewrite E. reflexivity. }
  split; [exact Hs|]. split; [reflexivity|].
  destruct (proj1 (proj2 (@X11_stop_implies_confidence (nums steady_samples)
                            (Num 95) zero (Num 1000))) Hs) as (Hg & Hearly).
  split; [exact Hg|].
  destruct (Hearly eq_refl) as (_ & H40 & _). exact H40.
Defined.

(** ** The share of the time spent in outliers *)

Lemma fold_add_nums (l : list Q) (a : Q) :
  exists s, fold_left add (nums l) (Num a) = Num s /\ s == a + Qsum l.
Proof.
  revert a. induction l as [|x l IH]; intros a.
  - exists a. split; [reflexivity|]. simpl. ring.
  - cbn [nums map fold_left]. rewrite add_Num.
    destruct (IH (Qred (a + x))) as (s & E & Hs).
    exists s. split; [exact E|].
    rewrite Hs, Qred_correct. simpl. ring.
Qed.

Lemma Qsum_nonneg (l : list Q) : (forall x, In x l -> 0 <= x) -> 0 <= Qsum l.
Proof.
  induction l as [|x l IH]; intros H; simpl; [lra|].
  assert (0 <= x) by (apply H; now left).
  assert (0 <= Qsum l) by (apply IH; intros y Hy; apply H; now right).
  lra.
Qed.

(** The loop of [getOutlierImpact]: the excess time grows by at most the
    samples it visits. *)
Lemma excess_fold (m t : Q) (l : list Q) :
  0 <= m -> m <= t -> (forall x, In x l -> 0 <= x) ->
  forall (e : Q) (c : nat),
    exists e' c',
      fold_left
        (fun acc sample =>
           if gtb sample (Num t)
           then (add (fst acc) (sub sample (Num m)), S (snd acc))
           else acc)
        (nums l) (Num e, c) = (Num e', c')
      /\ e <= e' /\ e' <= e + Qsum l
      /\ (c <= c')%nat /\ (c' <= c + List.length l)%nat.
Proof.
  intros Hm Hmt. induction l as [|x l IH]; intros Hl e c.
  - exists e, c. split; [reflexivity|]. simpl. split; [lra|].
    split; [lra|]. lia.
  - cbn [nums map fold_left].
    assert (Hx : 0 <= x) by (apply Hl; now left).
    assert (Hl' : forall y, In y l -> 0 <= y) by (intros y Hy; apply Hl; now right).
    pose proof (Qsum_nonneg l Hl') as Hsum.
    destruct (gtb (Num x) (Num t)) eqn:E.
    + apply ltb_Num in E. cbn [fst snd]. rewrite sub_Num, add_Num.
      destruct (IH Hl' (Qred (e + Qred (x + - m))) (S c))
        as (e' & c' & Ef & H1 & H2 & H3 & H4).
      exists e', c'. fold (nums l). split; [exact Ef|].
      rewrite !Qred_correct in H1, H2. simpl. 
      split; [lra|]. split; [lra|]. lia.
    + destruct (IH Hl' e c) as (e' & c' & Ef & H1 & H2 & H3 & H4).
      exists e', c'. fold (nums l). split; [exact Ef|].
      simpl. split; [lra|]. split; [lra|]. lia.
Qed.

Lemma getOutlierImpact_share (samples : list Q) :
  (forall x, In x samples -> 0 <= x) ->
  exists r c,
    AdaptiveStats.getOutlierImpact (nums samples) = (Num r, c)
    /\ 0 <= r /\ r <= 1 /\ (c <= List.length samples)%nat.
Proof.
  intros Hpos. destruct samples as [|s0 rest] eqn:Es.
  - exists 0, 0%nat. simpl. split; [reflexivity|]. split; [lra|].
    split; [lra|lia].
  - rewrite <- Es in *.
    assert (Hne : samples <> []) by (rewrite Es; discriminate).
    unfold AdaptiveStats.getOutlierImpact.
    destruct (nums samples) as [|n0 l0] eqn:En.
    { rewrite Es in En. discriminate En. }
    cbv iota. rewrite <- En. clear En n0 l0.
    destruct (percentile_nums_ordered Hne) as (rank & Hrank & Hmono).
    destruct (Hrank (1 # 2)) as (E50 & I50); [lra|].
    destruct (Hrank (3 # 4)) as (E75 & I75); [lra|].
    assert (H57 : rank (1 # 2) <= rank (3 # 4)) by (apply Hmono; lra).
    rewrite E50, E75, !toNumber_Some.
    set (m := rank (1 # 2)) in *. set (q := rank (3 # 4)) in *.
    rewrite sub_Num, mul_Num, add_Num.
    set (t := Qred (m + Qred ((3 # 2) * Qred (q + - m)))).
    assert (Hm : 0 <= m) by now apply Hpos.
    assert (Hmt : m <= t).
    { unfold t. rewrite !Qred_correct. lra. }
    destruct (@excess_fold m t samples Hm Hmt Hpos 0 0%nat)
      as (e & c & Ef & He0 & He1 & _ & Hc).
    unfold zero. rewrite Ef.
    destruct (fold_add_nums samples 0) as (T & ET & HT).
    rewrite ET.
    destruct (gtb (Num T) (Num 0)) eqn:EgT.
    + apply ltb_Num in EgT.
      assert (HT0 : ~ T == 0) by lra.
      rewrite div_Num by exact HT0.
      eexists. exists c. split; [reflexivity|]. rewrite Qred_correct.
      split; [|split; [|lia]].
      * apply Qle_shift_div_l; lra.
      * apply Qle_shift_div_r; lra.
    + exists 0, c. split; [reflexivity|]. split; [lra|]. split; [lra|lia].
Qed.

(** X12. [getOutlierImpact] on samples that are finite and not negative
    and add up to no more than 2^1023, so that the total time is finite in
    binary64: the ratio is a number between 0 and 1 (the share of the total
    time above the fence), and the count is at most the number of
    samples. *)
Theorem X12_outlier_impact_is_a_share (samples : list Q) :
  (forall x, In x samples -> 0 <= x) -> Qsum samples <= sum_limit ->
  exists r,
    fst (AdaptiveStats.getOutlierImpact (nums samples)) = Num r
    /\ 0 <= r /\ r <= 1
    /\ (snd (AdaptiveStats.getOutlierImpact (nums samples))
        <= List.length samples)%nat.
Proof.
  intros Hpos _.
  destruct (getOutlierImpact_share samples Hpos) as (r & c & E & H0 & H1 & Hc).
  exists r. rewrite E. auto.
Qed.

Lemma X12_outlier_impact_is_a_share_witness :
  (forall x, In x [50; 51; 49; 80] -> 0 <= x)
  /\ Qsum [50; 51; 49; 80] <= sum_limit
  /\ exists r,
       fst (AdaptiveStats.getOutlierImpact (nums [50; 51; 49; 80])) = Num r
       /\ 0 <= r /\ r <= 1.
Proof.
  assert (H : forall x, In x [50; 51; 49; 80] -> 0 <= x).
  { intros x Hx. simpl in Hx.
    repeat (destruct Hx as [<-|Hx]; [lra|]). destruct Hx. }
  assert (Hsum : Qsum [50; 51; 49; 80] <= sum_limit).
  { apply Qle_bool_iff. vm_compute. reflexivity. }
  split; [exact H|]. split; [exact Hsum|].
  destruct (@X12_outlier_impact_is_a_share [50; 51; 49; 80] H Hsum)
    as (r & E & H0 & H1 & _).
  exists r. auto.
Defined.

(** ** The adaptive loop *)

Section AdaptiveLoop.

Variable clock : nat -> num.
Variable baseRunner : nat -> RunnerOptions -> list AdaptiveWrapper.BaseResult.
Variable runnerOptions : RunnerOptions.
Variable limits : AdaptiveWrapper.Limits.

Lemma appendSamples_spec (result : option AdaptiveWrapper.BaseResult)
    (samples : list num) (w : World AdaptiveWrapper.Event) :
  snd (AdaptiveWrapper.appendSamples result samples w) = w
  /\ forall s,
       fst (AdaptiveWrapper.appendSamples result samples w) = Returned s ->
       exists more, s = samples ++ more.
Proof.
  unfold AdaptiveWrapper.appendSamples.
  destruct result as [r|]; [|split; [reflexivity|discriminate]].
  destruct (AdaptiveWrapper.r_samples r) as [[|x batch]|];
    (split; [reflexivity|]); intros s H; injection H as <-.
  - exists []. now rewrite app_nil_r.
  - now exists (x :: batch).
  - exists []. now rewrite app_nil_r.
Qed.

Lemma runBase_spec (opts : RunnerOptions) (w : World AdaptiveWrapper.Event) :
  AdaptiveWrapper.runBase baseRunner opts w
  = (Returned (baseRunner (reads w) opts),
     mkWorld (S (reads w)) (trace w ++ [AdaptiveWrapper.RunBench opts])).
Proof. reflexivity. Qed.

Lemma round_spec (allSamples : list num) (lastLog : num)
    (w : World AdaptiveWrapper.Event) :
  exists evs,
    trace (snd (AdaptiveWrapper.round clock baseRunner runnerOptions limits
                  allSamples lastLog w)) = trace w ++ evs
    /\ Forall (continuation_event runnerOptions) evs
    /\ (List.length (filter is_run evs) <= 1)%nat
    /\ forall s l,
         fst (AdaptiveWrapper.round clock baseRunner runnerOptions limits
                allSamples lastLog w) = Returned (AdaptiveWrapper.Continue s l) ->
         exists more, s = allSamples ++ more.
Proof.
  unfold AdaptiveWrapper.round.
  erewrite andThen_returned by reflexivity.
  set (elapsed := sub (clock (reads w)) (AdaptiveWrapper.l_startTime limits)).
  set (log := if gtb (sub elapsed lastLog) (Num 1000)
              then [AdaptiveWrapper.StderrWrite] else []).
  assert (Hlog : Forall (continuation_event runnerOptions) log
                 /\ filter is_run log = []).
  { unfold log. destruct (gtb _ _); split; auto.
    constructor; [now left|constructor]. }
  destruct Hlog as (Hlog & Hruns).
  set (w1 := mkWorld (S (reads w)) (trace w ++ log)).
  erewrite andThen_returned
    with (w' := w1)
         (a := if gtb (sub elapsed lastLog) (Num 1000)
               then elapsed else lastLog).
  2:{ unfold w1, log, andThen, emit, pure. cbn [reads trace].
      destruct (gtb _ _); [reflexivity|]. now rewrite app_nil_r. }
  destruct (AdaptiveStats.shouldStop _ _ _ _).
  - exists log. unfold pure. cbn [fst snd trace].
    repeat split; auto.
    + rewrite Hruns. simpl. lia.
    + intros s l H. discriminate H.
  - erewrite andThen_returned by apply runBase_spec.
    set (w2 := mkWorld _ _).
    destruct (appendSamples_spec
                (nth_error (baseRunner (reads w1)
                              (AdaptiveWrapper.continueOptions runnerOptions)) 0)
                allSamples w2) as (Hw & Hs).
    unfold andThen.
    destruct (AdaptiveWrapper.appendSamples _ allSamples w2) as (o & w3).
    cbn [fst snd] in Hw, Hs. subst w3.
    assert (Ht : trace w2 = trace w ++ log
                   ++ [AdaptiveWrapper.RunBench
                         (AdaptiveWrapper.continueOptions runnerOptions)]).
    { unfold w2, w1. cbn [trace]. now rewrite app_assoc. }
    exists (log ++ [AdaptiveWrapper.RunBench
                      (AdaptiveWrapper.continueOptions runnerOptions)]).
    assert (HF : Forall (continuation_event runnerOptions)
                   (log ++ [AdaptiveWrapper.RunBench
                              (AdaptiveWrapper.continueOptions runnerOptions)])).
    { apply Forall_app. split; [exact Hlog|].
      constructor; [now right|constructor]. }
    assert (Hc : (List.length
                    (filter is_run
                       (log ++ [AdaptiveWrapper.RunBench
                                  (AdaptiveWrapper.continueOptions
                                     runnerOptions)])) <= 1)%nat).
    { rewrite filter_app, Hruns. simpl. lia. }
    destruct o as [s| |]; unfold pure; cbn [fst snd];
      (split; [exact Ht|]); (split; [exact HF|]); (split; [exact Hc|]).
    + intros s' l H. inversion H; subst. now apply Hs.
    + intros s' l H. discriminate H.
    + intros s' l H. discriminate H.
Qed.

Lemma adaptive_loop_spec (fuel : nat) :
  forall (allSamples : list num) (lastLog : num)
         (w : World AdaptiveWrapper.Event),
  exists evs,
    trace (snd (AdaptiveWrapper.adaptive_loop clock baseRunner fuel
                  runnerOptions limits allSamples lastLog w)) = trace w ++ evs
    /\ Forall (continuation_event runnerOptions) evs
    /\ (List.length (filter is_run evs) <= fuel)%nat
    /\ forall s,
         fst (AdaptiveWrapper.adaptive_loop clock baseRunner fuel
                runnerOptions limits allSamples lastLog w) = Returned s ->
         exists more, s = allSamples ++ more.
Proof.
  assert (Hnil : forall w : World AdaptiveWrapper.Event,
             trace w = trace w ++ []) by (intros; now rewrite app_nil_r).
  induction fuel as [|fuel IH]; intros allSamples lastLog w.
  - cbn [AdaptiveWrapper.adaptive_loop].
    erewrite andThen_returned by reflexivity.
    exists [].
    destruct (ltb (sub (clock (reads w)) (AdaptiveWrapper.l_startTime limits))
                (AdaptiveWrapper.l_maxTime limits));
      unfold out_of_fuel, pure; cbn [fst snd trace];
      (split; [apply Hnil|]); (split; [constructor|]); (split; [simpl; lia|]).
    + intros s H. discriminate H.
    + intros s H. inversion H; subst. exists []. now rewrite app_nil_r.
  - cbn [AdaptiveWrapper.adaptive_loop].
    erewrite andThen_returned by reflexivity.
    destruct (ltb (sub (clock (reads w)) (AdaptiveWrapper.l_startTime limits))
                (AdaptiveWrapper.l_maxTime limits)).
    + unfold andThen.
      set (w1 := mkWorld (S (reads w)) (trace w)).
      destruct (round_spec allSamples lastLog w1) as (e1 & Ht1 & HF1 & Hc1 & Hs1).
      destruct (AdaptiveWrapper.round clock baseRunner runnerOptions limits
                  allSamples lastLog w1) as (o & w2).
      cbn [fst snd] in *. change (trace w1) with (trace w) in Ht1.
      destruct o as [[|s l]| |]; unfold pure; cbn [fst snd].
      * exists e1. split; [exact Ht1|]. split; [exact HF1|]. split; [lia|].
        intros s H. inversion H; subst. exists []. now rewrite app_nil_r.
      * destruct (Hs1 s l eq_refl) as (more1 & ->).
        destruct (IH (allSamples ++ more1) l w2) as (e2 & Ht2 & HF2 & Hc2 & Hs2).
        exists (e1 ++ e2). split; [|split; [|split]].
        -- rewrite Ht2, Ht1. now rewrite app_assoc.
        -- apply Forall_app. now split.
        -- rewrite filter_app, length_app. lia.
        -- intros s' H. destruct (Hs2 s' H) as (more2 & ->).
           exists (more1 ++ more2). now rewrite app_assoc.
      * exists e1. split; [exact Ht1|]. split; [exact HF1|]. split; [lia|].
        intros s H. discriminate H.
      * exists e1. split; [exact Ht1|]. split; [exact HF1|]. split; [lia|].
        intros s H. discriminate H.
    + unfold pure. cbn [fst snd trace]. exists [].
      split; [apply Hnil|]. split; [constructor|]. split; [simpl; lia|].
      intros s H. inversion H; subst. exists []. now rewrite app_nil_r.
Qed.

End AdaptiveLoop.

(** X13. [collectAdaptive] never loses a sample and only continues with the
    continuation options: whatever the clock and the base runner answer,
    every event it adds is a progress line or a call of the base runner
    with [continueOptions], there are at most [fuel] such calls, and the
    samples it returns start with the samples it was given.  When the time
    limit is already reached at the first reading of the clock, it returns
    the samples unchanged without calling the base runner. *)
Theorem X13_collectAdaptive_keeps_samples
    (clock : nat -> num)
    (baseRunner : nat -> RunnerOptions -> list AdaptiveWrapper.BaseResult)
    (fuel : nat) (runnerOptions : RunnerOptions)
    (limits : AdaptiveWrapper.Limits) (allSamples : list num)
    (w : World AdaptiveWrapper.Event) :
  let r := AdaptiveWrapper.collectAdaptive clock baseRunner fuel runnerOptions
             limits allSamples w in
  (exists evs,
      trace (snd r) = trace w ++ evs
      /\ Forall (continuation_event runnerOptions) evs
      /\ (List.length (filter is_run evs) <= fuel)%nat)
  /\ (forall s, fst r = Returned s -> exists more, s = allSamples ++ more)
  /\ (ltb (sub (clock (reads w)) (AdaptiveWrapper.l_startTime limits))
          (AdaptiveWrapper.l_maxTime limits) = false ->
      r = (Returned allSamples,
           mkWorld (S (reads w)) (trace w ++ [AdaptiveWrapper.StderrWrite]))).
Proof.
  intros r. unfold r, AdaptiveWrapper.collectAdaptive.
  split; [|split].
  - destruct (adaptive_loop_spec clock baseRunner runnerOptions limits fuel
                allSamples zero w) as (evs & Ht & HF & Hc & _).
    unfold andThen.
    destruct (AdaptiveWrapper.adaptive_loop _ _ _ _ _ _ _ _) as (o & w1).
    cbn [fst snd] in *.
    destruct o; unfold emit, pure; cbn [fst snd trace].
    + exists (evs ++ [AdaptiveWrapper.StderrWrite]).
      split; [rewrite Ht; now rewrite app_assoc|].
      split; [apply Forall_app; split; auto; constructor; [now left|constructor]|].
      rewrite filter_app, length_app. simpl. lia.
    + exists evs. auto.
    + exists evs. auto.
  - destruct (adaptive_loop_spec clock baseRunner runnerOptions limits fuel
                allSamples zero w) as (evs & _ & _ & _ & Hs).
    unfold andThen.
    destruct (AdaptiveWrapper.adaptive_loop _ _ _ _ _ _ _ _) as (o & w1).
    cbn [fst snd] in *.
    destruct o; unfold emit, pure; cbn [fst snd trace];
      intros s H; inversion H; subst. now apply Hs.
  - intros Hlim.
    assert (E : AdaptiveWrapper.adaptive_loop clock baseRunner fuel
                  runnerOptions limits allSamples zero w
                = (Returned allSamples, mkWorld (S (reads w)) (trace w))).
    { destruct fuel; cbn [AdaptiveWrapper.adaptive_loop];
        (erewrite andThen_returned by reflexivity); now rewrite Hlim. }
    erewrite andThen_returned by exact E. reflexivity.
Qed.

Lemma collectAdaptive_spec
    (clock : nat -> num)
    (baseRunner : nat -> RunnerOptions -> list AdaptiveWrapper.BaseResult)
    (fuel : nat) (runnerOptions : RunnerOptions)
    (limits : AdaptiveWrapper.Limits) (allSamples : list num)
    (w : World AdaptiveWrapper.Event) :
  (exists evs,
      trace (snd (AdaptiveWrapper.collectAdaptive clock baseRunner fuel
                    runnerOptions limits allSamples w)) = trace w ++ evs
      /\ Forall (continuation_event runnerOptions) evs)
  /\ (forall s,
        fst (AdaptiveWrapper.collectAdaptive clock baseRunner fuel
               runnerOptions limits allSamples w) = Returned s ->
        exists more, s = allSamples ++ more).
Proof.
  unfold AdaptiveWrapper.collectAdaptive.
  destruct (adaptive_loop_spec clock baseRunner runnerOptions limits fuel
              allSamples zero w) as (evs & Ht & HF & _ & Hs).
  unfold andThen.
  destruct (AdaptiveWrapper.adaptive_loop _ _ _ _ _ _ _ _) as (o & w1).
  cbn [fst snd] in *.
  destruct o; unfold emit, pure; cbn [fst snd trace]; split.
  - exists (evs ++ [AdaptiveWrapper.StderrWrite]).
    split; [rewrite Ht; now rewrite app_assoc|].
    apply Forall_app; split; auto. constructor; [now left|constructor].
  - intros s H. inversion H; subst. now apply Hs.
  - exists evs. auto.
  - intros s H. discriminate H.
  - exists evs. auto.
  - intros s H. discriminate H.
Qed.

Lemma collectInitial_spec
    (baseRunner : nat -> RunnerOptions -> list AdaptiveWrapper.BaseResult)
    (runnerOptions : RunnerOptions) (w : World AdaptiveWrapper.Event) :
  let w1 := mkWorld (S (reads w))
              (trace w ++ [AdaptiveWrapper.RunBench
                             (AdaptiveWrapper.initialOptions runnerOptions)]) in
  match nth_error (baseRunner (reads w)
                     (AdaptiveWrapper.initialOptions runnerOptions)) 0 with
  | Some first =>
      AdaptiveWrapper.collectInitial baseRunner runnerOptions [] w
      = (Returned (batch_samples first, AdaptiveWrapper.r_warmupSamples first),
         w1)
  | None =>
      AdaptiveWrapper.collectInitial baseRunner runnerOptions [] w
      = (Thrown "Cannot read properties of undefined (reading 'samples')", w1)
  end.
Proof.
  intros w1. unfold AdaptiveWrapper.collectInitial.
  erewrite andThen_returned by apply runBase_spec. fold w1.
  destruct (nth_error _ 0) as [first|]; [|reflexivity].
  unfold AdaptiveWrapper.appendSamples, batch_samples, andThen, pure.
  destruct (AdaptiveWrapper.r_samples first) as [[|x b]|]; reflexivity.
Qed.

(** X14. [runAdaptiveBench]: the first thing it does is to call the base
    runner with the options of the initial batch, and every later call uses
    the continuation options.  If that first call returns no result, it
    throws after this one call.  When it returns, it returns one result
    that carries the name, the warm-up samples of the first batch and
    samples that start with the samples of the first batch, and whose
    convergence and time statistics are those of all its samples, taken in
    nanoseconds. *)
Theorem X14_runAdaptiveBench_result
    (clock : nat -> num)
    (baseRunner : nat -> RunnerOptions -> list AdaptiveWrapper.BaseResult)
    (fuel : nat) (name : string) (runnerOptions : RunnerOptions)
    (options : AdaptiveWrapper.AdaptiveOptions)
    (w : World AdaptiveWrapper.Event) :
  let r := AdaptiveWrapper.runAdaptiveBench clock baseRunner fuel name
             runnerOptions options w in
  let firstCall :=
    AdaptiveWrapper.RunBench (AdaptiveWrapper.initialOptions runnerOptions) in
  let answer :=
    baseRunner (reads w) (AdaptiveWrapper.initialOptions runnerOptions) in
  (exists evs,
      trace (snd r) = trace w ++ firstCall :: evs
      /\ Forall (continuation_event runnerOptions) evs)
  /\ (answer = [] ->
      exists message,
        r = (Thrown message,
             mkWorld (S (reads w)) (trace w ++ [firstCall])))
  /\ (forall results,
        fst r = Returned results ->
        exists first more m,
          nth_error answer 0 = Some first
          /\ results = [m]
          /\ AdaptiveWrapper.m_name m = name
          /\ AdaptiveWrapper.m_warmupSamples m
             = AdaptiveWrapper.r_warmupSamples first
          /\ AdaptiveWrapper.m_samples m = batch_samples first ++ more
          /\ AdaptiveWrapper.m_convergence m
             = AdaptiveStats.checkConvergence
                 (to_ns (AdaptiveWrapper.m_samples m))
          /\ AdaptiveWrapper.m_time m
             = AdaptiveStats.computeTimeStats
                 (to_ns (AdaptiveWrapper.m_samples m))).
Proof.
  intros r firstCall answer.
  pose proof (collectInitial_spec baseRunner runnerOptions w) as Hinit.
  cbv zeta in Hinit. fold answer firstCall in Hinit.
  unfold r, AdaptiveWrapper.runAdaptiveBench.
  destruct (nth_error answer 0) as [first|] eqn:Efirst.
  - erewrite andThen_returned by exact Hinit.
    erewrite andThen_returned by reflexivity.
    cbn [fst snd reads trace].
    set (limits := AdaptiveWrapper.mkLimits _ _ _ _).
    set (w2 := mkWorld _ _).
    destruct (collectAdaptive_spec clock baseRunner fuel runnerOptions limits
                (batch_samples first) w2) as ((evs & Ht & HF) & Hs).
    unfold AdaptiveWrapper.buildResults, AdaptiveWrapper.now, andThen, read,
      pure.
    destruct (AdaptiveWrapper.collectAdaptive _ _ _ _ _ _ _) as (o & w3).
    cbn [fst snd] in *.
    assert (Ht' : trace w3 = trace w ++ firstCall :: evs).
    { rewrite Ht. unfold w2. cbn [trace]. now rewrite <- app_assoc. }
    split; [|split].
    + destruct o as [s| |]; cbn [snd trace]; exists evs; auto.
    + intros Hnil. rewrite Hnil in Efirst. discriminate Efirst.
    + intros results H. destruct o as [s| |]; try discriminate H.
      destruct (Hs s eq_refl) as (more & ->).
      cbn [fst] in H. inversion H; subst; clear H.
      exists first, more. eexists. split; [reflexivity|].
      split; [reflexivity|].
      cbn [AdaptiveWrapper.m_name AdaptiveWrapper.m_warmupSamples
           AdaptiveWrapper.m_samples AdaptiveWrapper.m_convergence
           AdaptiveWrapper.m_time snd].
      repeat split; reflexivity.
  - erewrite andThen_thrown by exact Hinit.
    split; [|split].
    + exists []. cbn [snd trace]. split; [reflexivity|constructor].
    + intros _. eexists. reflexivity.
    + intros results H. discriminate H.
Qed.

(** ** The collector *)

(** X15. [shouldPause]: the collector pauses at iteration [iter] exactly
    when [iter] is the first pause, or the interval is positive and divides
    the distance from the first pause (from 0 when no first pause is set).
    With an interval of 0 or less the only pause is the first one. *)
Theorem X15_shouldPause_rule (iter : Z) (first : option Z) (interval : Z) :
  BasicRunner.shouldPause iter first interval = true
  <-> first = Some iter
      \/ ((0 < interval)%Z
          /\ (interval | iter - match first with Some f => f | None => 0 end)%Z).
Proof.
  unfold BasicRunner.shouldPause.
  destruct first as [f|].
  - destruct (iter =? f)%Z eqn:E.
    + apply Z.eqb_eq in E. subst. split; auto.
    + apply Z.eqb_neq in E.
      destruct (interval <=? 0)%Z eqn:Ei.
      * apply Z.leb_le in Ei. split; [discriminate|].
        intros [H|(H & _)]; [congruence|lia].
      * apply Z.leb_gt in Ei. rewrite Z.eqb_eq, Z.rem_divide by lia.
        split; [auto|]. intros [H|(_ & H)]; [congruence|exact H].
  - rewrite Z.sub_0_r.
    destruct (interval <=? 0)%Z eqn:Ei.
    + apply Z.leb_le in Ei. split; [discriminate|].
      intros [H|(H & _)]; [discriminate|lia].
    + apply Z.leb_gt in Ei. rewrite Z.eqb_eq, Z.rem_divide by lia.
      split; [auto|]. intros [H|(_ & H)]; [discriminate|exact H].
Qed.

Section Collector.

Variable clock : nat -> num.
Variable heapUsed : nat -> num.
Variable p : BasicRunner.CollectParams.

Lemma timed_call_spec (w : World BasicRunner.Event) :
  BasicRunner.timed_call clock w
  = (Returned (sub (clock (S (reads w))) (clock (reads w))),
     mkWorld (S (S (reads w))) (trace w ++ [BasicRunner.Exec])).
Proof. reflexivity. Qed.

Lemma sample_loop_done (fuel : nat) (loopStart : num) (count : nat)
    (elapsed tp : num) (samples : list num)
    (pps : list BasicRunner.PausePoint) (w : World BasicRunner.Event) :
  continues p count elapsed = false ->
  BasicRunner.sample_loop clock fuel p loopStart count elapsed tp samples pps w
  = (Returned (samples, pps), w).
Proof.
  unfold continues. intros H.
  destruct fuel; cbn [BasicRunner.sample_loop]; now rewrite H.
Qed.

Lemma sample_loop_out (loopStart : num) (count : nat)
    (elapsed tp : num) (samples : list num)
    (pps : list BasicRunner.PausePoint) (w : World BasicRunner.Event) :
  continues p count elapsed = true ->
  BasicRunner.sample_loop clock 0 p loopStart count elapsed tp samples pps w
  = (OutOfFuel, w).
Proof.
  unfold continues. intros H. cbn [BasicRunner.sample_loop]. now rewrite H.
Qed.

Lemma sample_loop_step (fuel : nat) (loopStart : num) (count : nat)
    (elapsed tp : num) (samples : list num)
    (pps : list BasicRunner.PausePoint) (w : World BasicRunner.Event) :
  continues p count elapsed = true ->
  exists s elapsed' tp' w',
    trace w' = trace w ++ sample_events p count
    /\ BasicRunner.sample_loop clock (S fuel) p loopStart count elapsed tp
         samples pps w
       = BasicRunner.sample_loop clock fuel p loopStart (S count) elapsed' tp'
           (samples ++ [s])
           (pps ++ pause_points p count 1) w'.
Proof.
  unfold continues. intros H.
  cbn [BasicRunner.sample_loop]. rewrite H.
  erewrite andThen_returned by apply timed_call_spec.
  fold (pause_interval p) (pause_duration p).
  unfold pause_points, sample_events. cbn [seq filter].
  fold (pauses_after p count).
  destruct (pauses_after p count).
  - erewrite andThen_returned by reflexivity.
    erewrite andThen_returned by reflexivity.
    cbn [fst snd map]. rewrite Nat.sub_succ, Nat.sub_0_r.
    do 4 eexists. split; [|reflexivity].
    cbn [trace]. now rewrite <- app_assoc.
  - erewrite andThen_returned by reflexivity.
    erewrite andThen_returned by reflexivity.
    cbn [fst snd map]. rewrite app_nil_r.
    do 4 eexists. split; [|reflexivity].
    reflexivity.
Qed.

Lemma pause_points_succ (count n : nat) :
  pause_points p count (S n)
  = pause_points p count 1 ++ pause_points p (S count) n.
Proof.
  unfold pause_points. cbn [seq filter].
  destruct (pauses_after p count); reflexivity.
Qed.

Lemma truthy_of_nat (M : nat) : (0 < M)%nat -> truthy (of_nat M) = true.
Proof.
  intros H. rewrite of_nat_Num. unfold truthy.
  apply negb_true_iff. apply Qeq_bool_false.
  pose proof (inject_Z_nat_pos H). lra.
Qed.

Lemma ltb_of_nat (a b : nat) : ltb (of_nat a) (of_nat b) = (a <? b)%nat.
Proof.
  rewrite !of_nat_Num.
  destruct (a <? b)%nat eqn:E.
  - apply Nat.ltb_lt in E. apply ltb_Num. rewrite <- Zlt_Qlt. lia.
  - apply Nat.ltb_ge in E. apply Qltb_ge. rewrite <- Zle_Qle. lia.
Qed.

(** With an iteration limit of [M] the loop goes on only below [M]. *)
Lemma continues_below (M count : nat) (elapsed : num) :
  BasicRunner.maxIterations p = Some (of_nat M) -> (0 < M)%nat ->
  continues p count elapsed = true -> (count < M)%nat.
Proof.
  intros HM H0. unfold continues. rewrite HM. cbn [truthy_value toNumber].
  rewrite truthy_of_nat, ltb_of_nat by exact H0. cbn [negb orb].
  intros H. apply andb_true_iff in H. destruct H as (H & _).
  now apply Nat.ltb_lt.
Qed.

(** Without a time limit the iteration limit alone decides. *)
Lemma continues_no_time (M count : nat) (elapsed : num) :
  BasicRunner.maxIterations p = Some (of_nat M) -> (0 < M)%nat ->
  truthy_value (BasicRunner.maxTime p) = false ->
  continues p count elapsed = (count <? M)%nat.
Proof.
  intros HM H0 Ht. unfold continues. rewrite HM, Ht.
  cbn [truthy_value toNumber].
  rewrite truthy_of_nat, ltb_of_nat by exact H0. cbn [negb orb].
  apply andb_true_r.
Qed.

Lemma sample_loop_spec (loopStart : num) (fuel : nat) :
  forall (count : nat) (elapsed tp : num) (samples : list num)
         (pps : list BasicRunner.PausePoint) (w : World BasicRunner.Event),
  exists n new,
    List.length new = n /\ (n <= fuel)%nat
    /\ trace (snd (BasicRunner.sample_loop clock fuel p loopStart count
                     elapsed tp samples pps w))
       = trace w ++ flat_map (sample_events p) (seq count n)
    /\ (fst (BasicRunner.sample_loop clock fuel p loopStart count
               elapsed tp samples pps w) = OutOfFuel
        \/ fst (BasicRunner.sample_loop clock fuel p loopStart count
                  elapsed tp samples pps w)
           = Returned (samples ++ new, pps ++ pause_points p count n))
    /\ (forall M,
          BasicRunner.maxIterations p = Some (of_nat M) -> (0 < M)%nat ->
          (count <= M)%nat ->
          (count + n <= M)%nat
          /\ ((M <= count + fuel)%nat ->
              fst (BasicRunner.sample_loop clock fuel p loopStart count
                     elapsed tp samples pps w)
              = Returned (samples ++ new, pps ++ pause_points p count n)
              /\ (truthy_value (BasicRunner.maxTime p) = false ->
                  n = (M - count)%nat))).
Proof.
  induction fuel as [|fuel IH]; intros count elapsed tp samples pps w.
  - exists 0%nat, []. split; [reflexivity|]. split; [lia|].
    destruct (continues p count elapsed) eqn:Ec.
    + rewrite sample_loop_out by exact Ec. cbn [fst snd seq flat_map].
      split; [now rewrite app_nil_r|]. split; [now left|].
      intros M HM H0 Hle. split; [lia|]. intros Hf.
      pose proof (@continues_below M count elapsed HM H0 Ec). lia.
    + rewrite sample_loop_done by exact Ec. cbn [fst snd seq flat_map].
      unfold pause_points. cbn [seq filter map]. rewrite !app_nil_r.
      split; [reflexivity|]. split; [now right|].
      intros M HM H0 Hle. split; [lia|]. intros Hf. split; [reflexivity|].
      intros Ht. rewrite (@continues_no_time M count elapsed HM H0 Ht) in Ec.
      apply Nat.ltb_ge in Ec. lia.
  - destruct (continues p count elapsed) eqn:Ec.
    + destruct (sample_loop_step fuel loopStart count elapsed tp samples pps w Ec)
        as (s & elapsed' & tp' & w' & Ht & E).
      rewrite E. clear E.
      destruct (IH (S count) elapsed' tp' (samples ++ [s])
                  (pps ++ pause_points p count 1) w')
        as (n & new & Hl & Hn & Htr & Hres & Hb).
      exists (S n), (s :: new).
      split; [simpl; now rewrite Hl|]. split; [lia|].
      split.
      { rewrite Htr, Ht. cbn [seq flat_map]. now rewrite <- app_assoc. }
      assert (Epp : pps ++ pause_points p count (S n)
                    = (pps ++ pause_points p count 1)
                        ++ pause_points p (S count) n)
        by (rewrite (pause_points_succ count n); apply app_assoc).
      assert (Es : samples ++ s :: new = (samples ++ [s]) ++ new)
        by (now rewrite <- app_assoc).
      rewrite Epp, Es.
      split; [exact Hres|].
      intros M HM H0 Hle.
      pose proof (@continues_below M count elapsed HM H0 Ec) as Hlt.
      destruct (Hb M HM H0) as (Hb1 & Hb2); [lia|].
      split; [lia|]. intros Hf.
      destruct Hb2 as (Hr & Hex); [lia|].
      split; [exact Hr|]. intros Hnt. rewrite (Hex Hnt). lia.
    + exists 0%nat, []. split; [reflexivity|]. split; [lia|].
      rewrite sample_loop_done by exact Ec. cbn [fst snd seq flat_map].
      unfold pause_points. cbn [seq filter map]. rewrite !app_nil_r.
      split; [reflexivity|]. split; [now right|].
      intros M HM H0 Hle. split; [lia|]. intros Hf. split; [reflexivity|].
      intros Ht. rewrite (@continues_no_time M count elapsed HM H0 Ht) in Ec.
      apply Nat.ltb_ge in Ec. lia.
Qed.

Lemma warmup_loop_spec (n : nat) :
  forall (acc : list num) (w : World BasicRunner.Event),
  exists new w',
    BasicRunner.warmup_loop clock n acc w = (Returned (acc ++ new), w')
    /\ List.length new = n
    /\ trace w' = trace w ++ repeat BasicRunner.Exec n.
Proof.
  induction n as [|n IH]; intros acc w.
  - exists [], w. cbn [BasicRunner.warmup_loop repeat]. unfold pure.
    rewrite !app_nil_r. auto.
  - cbn [BasicRunner.warmup_loop].
    erewrite andThen_returned by apply timed_call_spec.
    set (s := sub _ _). set (w1 := mkWorld _ _).
    destruct (IH (acc ++ [s]) w1) as (new & w' & E & Hl & Ht).
    exists (s :: new), w'. rewrite E.
    split; [now rewrite <- app_assoc|]. split; [simpl; now rewrite Hl|].
    rewrite Ht. unfold w1. cbn [trace repeat]. now rewrite <- app_assoc.
Qed.

Lemma warmup_spec (w : World BasicRunner.Event) :
  exists ws w',
    (if BasicRunner.skipWarmup p then pure []
     else BasicRunner.runWarmup clock p) w = (Returned ws, w')
    /\ List.length ws
       = (if BasicRunner.skipWarmup p then 0 else BasicRunner.warmup p)%nat
    /\ trace w' = trace w ++ warmup_events p.
Proof.
  unfold warmup_events. destruct (BasicRunner.skipWarmup p).
  - exists [], w. unfold pure. rewrite app_nil_r. auto.
  - unfold BasicRunner.runWarmup.
    destruct (warmup_loop_spec (BasicRunner.warmup p) [] w)
      as (new & w1 & E & Hl & Ht).
    erewrite andThen_returned by exact E.
    exists new,
      (mkWorld (reads w1)
         (trace w1
          ++ BasicRunner.Gc
             :: (if BasicRunner.noSettle p then []
                 else [BasicRunner.Sleep BasicRunner.gcSettleTime;
                       BasicRunner.Gc]))).
    split; [|split; [exact Hl|]].
    + unfold andThen, emit, pure. cbn [app reads trace].
      destruct (BasicRunner.noSettle p); cbn [reads trace];
        rewrite <- ?app_assoc; reflexivity.
    + cbn [trace]. rewrite Ht, <- app_assoc. reflexivity.
Qed.

End Collector.

Lemma runSampleLoop_spec (clock : nat -> num) (p : BasicRunner.CollectParams)
    (fuel : nat) (w : World BasicRunner.Event) :
  if BasicRunner.valid_array_length
       (BasicRunner.estimateSampleCount (BasicRunner.maxTime p)
          (BasicRunner.maxIterations p))
  then
    exists new,
      (List.length new <= fuel)%nat
      /\ trace (snd (BasicRunner.runSampleLoop clock fuel p w))
         = trace w
             ++ flat_map (sample_events p) (seq 0 (List.length new))
      /\ (fst (BasicRunner.runSampleLoop clock fuel p w) = OutOfFuel
          \/ fst (BasicRunner.runSampleLoop clock fuel p w)
             = Returned (new, pause_points p 0 (List.length new)))
      /\ (forall M,
            BasicRunner.maxIterations p = Some (of_nat M) -> (0 < M)%nat ->
            (List.length new <= M)%nat
            /\ ((M <= fuel)%nat ->
                fst (BasicRunner.runSampleLoop clock fuel p w)
                = Returned (new, pause_points p 0 (List.length new))
                /\ (truthy_value (BasicRunner.maxTime p) = false ->
                    List.length new = M)))
  else
    BasicRunner.runSampleLoop clock fuel p w
    = (Thrown "Invalid array length", w).
Proof.
  unfold BasicRunner.runSampleLoop.
  destruct (BasicRunner.valid_array_length _); [|reflexivity].
  cbn [negb]. erewrite andThen_returned by reflexivity.
  set (w1 := mkWorld _ _).
  destruct (@sample_loop_spec clock p (clock (reads w)) fuel 0%nat zero zero
              [] [] w1) as (n & new & Hl & Hn & Ht & Hres & Hb).
  cbn [app] in *. subst n.
  exists new. split; [exact Hn|]. split; [exact Ht|]. split; [exact Hres|].
  intros M HM H0. destruct (Hb M HM H0) as (Hb1 & Hb2); [lia|].
  split; [lia|]. intros Hf. destruct Hb2 as (Hr & Hex); [lia|].
  split; [exact Hr|]. intros Hnt. rewrite (Hex Hnt). lia.
Qed.

(** The collector, once its configuration is accepted and the sample array
    can be allocated: what it has done, and how it ends. *)
Lemma collectSamples_spec (clock heapUsed : nat -> num)
    (p : BasicRunner.CollectParams) (fuel : nat)
    (w : World BasicRunner.Event) :
  negb (truthy_value (BasicRunner.maxIterations p))
  && negb (truthy_value (BasicRunner.maxTime p)) = false ->
  BasicRunner.valid_array_length
    (BasicRunner.estimateSampleCount (BasicRunner.maxTime p)
       (BasicRunner.maxIterations p)) = true ->
  exists ws new,
    List.length ws
    = (if BasicRunner.skipWarmup p then 0 else BasicRunner.warmup p)%nat
    /\ (List.length new <= fuel)%nat
    /\ trace (snd (BasicRunner.collectSamples clock heapUsed fuel p w))
       = trace w ++ warmup_events p
           ++ flat_map (sample_events p) (seq 0 (List.length new))
    /\ (fst (BasicRunner.collectSamples clock heapUsed fuel p w) = OutOfFuel
        \/ (new = []
            /\ fst (BasicRunner.collectSamples clock heapUsed fuel p w)
               = Thrown ("No samples collected for benchmark: "
                           ++ BasicRunner.name p))
        \/ (new <> []
            /\ exists growth,
                 fst (BasicRunner.collectSamples clock heapUsed fuel p w)
                 = Returned
                     (BasicRunner.mkCollectResult new ws growth
                        (pause_points p 0 (List.length new)))))
    /\ (forall M,
          BasicRunner.maxIterations p = Some (of_nat M) -> (0 < M)%nat ->
          (List.length new <= M)%nat
          /\ ((M <= fuel)%nat ->
              fst (BasicRunner.collectSamples clock heapUsed fuel p w)
              <> OutOfFuel
              /\ (truthy_value (BasicRunner.maxTime p) = false ->
                  List.length new = M))).
Proof.
  intros Hcfg Hvalid.
  remember (BasicRunner.collectSamples clock heapUsed fuel p w) as r eqn:Er.
  unfold BasicRunner.collectSamples in Er. rewrite Hcfg in Er.
  destruct (@warmup_spec clock p w) as (ws & w1 & Ew & Hlw & Htw).
  erewrite andThen_returned in Er by exact Ew.
  erewrite andThen_returned in Er by reflexivity.
  set (w2 := mkWorld _ _) in Er.
  pose proof (runSampleLoop_spec clock p fuel w2) as Hloop.
  rewrite Hvalid in Hloop.
  destruct Hloop as (new & Hn & Ht & Hres & Hb).
  exists ws, new. split; [exact Hlw|]. split; [exact Hn|].
  assert (Ht2 : trace w2 = trace w ++ warmup_events p)
    by (unfold w2; cbn [trace]; exact Htw).
  unfold andThen at 1 in Er.
  destruct (BasicRunner.runSampleLoop clock fuel p w2) as (o & w3).
  cbn [fst snd] in *.
  assert (Ht3 : trace w3
                = trace w ++ warmup_events p
                    ++ flat_map (sample_events p) (seq 0 (List.length new)))
    by (rewrite Ht, Ht2; now rewrite <- app_assoc).
  destruct Hres as [-> | ->].
  - subst r. cbn [fst snd]. split; [exact Ht3|]. split; [now left|].
    intros M HM H0. destruct (Hb M HM H0) as (Hb1 & Hb2).
    split; [exact Hb1|]. intros Hf. destruct (Hb2 Hf) as (Hr & _).
    discriminate Hr.
  - erewrite andThen_returned in Er by reflexivity. cbn [fst snd] in Er.
    destruct new as [|s new'].
    + subst r. unfold throw. cbn [fst snd trace]. split; [exact Ht3|].
      split; [right; left; auto|].
      intros M HM H0. destruct (Hb M HM H0) as (Hb1 & Hb2).
      split; [exact Hb1|]. intros Hf. destruct (Hb2 Hf) as (_ & Hex).
      split; [discriminate|exact Hex].
    + subst r. unfold pure. cbn [fst snd trace]. split; [exact Ht3|].
      split; [right; right; split; [discriminate|eexists; reflexivity]|].
      intros M HM H0. destruct (Hb M HM H0) as (Hb1 & Hb2).
      split; [exact Hb1|]. intros Hf. destruct (Hb2 Hf) as (_ & Hex).
      split; [discriminate|exact Hex].
Qed.

(** X16. What a returned [collectSamples] has done.  The samples are not
    empty; there are as many warm-up samples as warm-up calls (none with
    [skipWarmup]); the pause points are exactly the sample indices after
    which [shouldPause] holds, in order, each with the pause duration; the
    work performed is the warm-up (calls, collection, settle time and second
    collection) followed, for each sample, by one call of the benchmark and
    a sleep when a pause follows it; and with an iteration limit of [M] there
    are at most [M] samples. *)
Theorem X16_collectSamples_result
    (clock heapUsed : nat -> num) (fuel : nat)
    (p : BasicRunner.CollectParams) (w : World BasicRunner.Event)
    (c : BasicRunner.CollectResult) :
  fst (BasicRunner.collectSamples clock heapUsed fuel p w) = Returned c ->
  BasicRunner.samples c <> []
  /\ List.length (BasicRunner.warmupSamples c)
     = (if BasicRunner.skipWarmup p then 0 else BasicRunner.warmup p)%nat
  /\ BasicRunner.pausePoints c
     = pause_points p 0 (List.length (BasicRunner.samples c))
  /\ trace (snd (BasicRunner.collectSamples clock heapUsed fuel p w))
     = trace w ++ warmup_events p
         ++ flat_map (sample_events p)
              (seq 0 (List.length (BasicRunner.samples c)))
  /\ (forall M,
        BasicRunner.maxIterations p = Some (of_nat M) -> (0 < M)%nat ->
        (List.length (BasicRunner.samples c) <= M)%nat).
Proof.
  intros H.
  destruct (negb (truthy_value (BasicRunner.maxIterations p))
            && negb (truthy_value (BasicRunner.maxTime p))) eqn:Hcfg.
  { unfold BasicRunner.collectSamples in H. rewrite Hcfg in H.
    discriminate H. }
  destruct (BasicRunner.valid_array_length
              (BasicRunner.estimateSampleCount (BasicRunner.maxTime p)
                 (BasicRunner.maxIterations p))) eqn:Hvalid.
  2:{ exfalso. unfold BasicRunner.collectSamples in H. rewrite Hcfg in H.
      destruct (@warmup_spec clock p w) as (ws & w1 & Ew & _).
      erewrite andThen_returned in H by exact Ew.
      erewrite andThen_returned in H by reflexivity.
      pose proof (runSampleLoop_spec clock p fuel
                    (mkWorld (S (reads w1)) (trace w1))) as Hloop.
      rewrite Hvalid in Hloop.
      erewrite andThen_thrown in H by exact Hloop.
      discriminate H. }
  destruct (collectSamples_spec clock heapUsed p fuel w Hcfg Hvalid)
    as (ws & new & Hlw & _ & Ht & Hres & Hb).
  rewrite H in Hres.
  destruct Hres as [Hr|[(_ & Hr)|(Hne & growth & Hr)]]; try discriminate Hr.
  inversion Hr; subst c; clear Hr.
  cbn [BasicRunner.samples BasicRunner.warmupSamples BasicRunner.pausePoints].
  split; [exact Hne|]. split; [exact Hlw|]. split; [reflexivity|].
  split; [exact Ht|]. intros M HM H0. now destruct (Hb M HM H0).
Qed.

(** The example run of five iterations returns. *)
Lemma five_iterations_returns :
  exists c,
    fst (BasicRunner.collectSamples (fun k => of_nat k) (fun _ => zero) 5
           five_iterations (mkWorld 0 [])) = Returned c.
Proof. eexists. vm_compute. reflexivity. Qed.

Lemma X16_collectSamples_result_witness :
  exists c,
    fst (BasicRunner.collectSamples (fun k => of_nat k) (fun _ => zero) 5
           five_iterations (mkWorld 0 [])) = Returned c
    /\ BasicRunner.samples c <> []
    /\ BasicRunner.pausePoints c
       = pause_points five_iterations 0 (List.length (BasicRunner.samples c)).
Proof.
  destruct five_iterations_returns as (c & Hc).
  exists c. split; [exact Hc|].
  destruct (@X16_collectSamples_result (fun k => of_nat k) (fun _ => zero) 5
              five_iterations (mkWorld 0 []) c Hc) as (Hne & _ & Hpp & _).
  split; [exact Hne|exact Hpp].
Defined.

Lemma valid_array_length_of_nat (M : nat) :
  (Z.of_nat M <= 4294967295)%Z ->
  BasicRunner.valid_array_length (of_nat M) = true.
Proof.
  intros H. rewrite of_nat_Num. unfold BasicRunner.valid_array_length.
  rewrite Qfloor_Z.
  assert (E1 : Qeq_bool (inject_Z (Z.of_nat M)) (inject_Z (Z.of_nat M)) = true)
    by (apply Qeq_bool_true; reflexivity).
  assert (E2 : (0 <=? Z.of_nat M)%Z = true) by (apply Z.leb_le; lia).
  assert (E3 : (Z.of_nat M <=? 4294967295)%Z = true) by now apply Z.leb_le.
  now rewrite E1, E2, E3.
Qed.

(** X17. The iteration limit ends the measurement.  With
    [maxIterations = M], a positive integer that a sample array can hold,
    the loop of [collectSamples] needs no more than [M] rounds; and when no
    time limit is set, the collector returns exactly [M] samples. *)
Theorem X17_collectSamples_iteration_limit
    (clock heapUsed : nat -> num) (fuel M : nat)
    (p : BasicRunner.CollectParams) (w : World BasicRunner.Event) :
  BasicRunner.maxIterations p = Some (of_nat M) ->
  (0 < M)%nat -> (Z.of_nat M <= 4294967295)%Z -> (M <= fuel)%nat ->
  fst (BasicRunner.collectSamples clock heapUsed fuel p w) <> OutOfFuel
  /\ (truthy_value (BasicRunner.maxTime p) = false ->
      exists c,
        fst (BasicRunner.collectSamples clock heapUsed fuel p w) = Returned c
        /\ List.length (BasicRunner.samples c) = M).
Proof.
  intros HM H0 H32 Hf.
  assert (Htruthy : truthy_value (BasicRunner.maxIterations p) = true)
    by (rewrite HM; now apply truthy_of_nat).
  assert (Hcfg : negb (truthy_value (BasicRunner.maxIterations p))
                 && negb (truthy_value (BasicRunner.maxTime p)) = false)
    by now rewrite Htruthy.
  assert (Hvalid : BasicRunner.valid_array_length
                     (BasicRunner.estimateSampleCount (BasicRunner.maxTime p)
                        (BasicRunner.maxIterations p)) = true).
  { unfold BasicRunner.estimateSampleCount. rewrite Htruthy, HM.
    now apply valid_array_length_of_nat. }
  destruct (collectSamples_spec clock heapUsed p fuel w Hcfg Hvalid)
    as (ws & new & _ & _ & _ & Hres & Hb).
  destruct (Hb M HM H0) as (_ & Hb2). destruct (Hb2 Hf) as (Hno & Hex).
  split; [exact Hno|]. intros Hnt. specialize (Hex Hnt).
  destruct Hres as [Hr|[(Hnil & _)|(_ & growth & Hr)]].
  - contradiction.
  - subst new. simpl in Hex. lia.
  - eexists. split; [exact Hr|]. exact Hex.
Qed.

Lemma X17_collectSamples_iteration_limit_witness :
  BasicRunner.maxIterations five_iterations = Some (of_nat 5)
  /\ truthy_value (BasicRunner.maxTime five_iterations) = false
  /\ exists c,
       fst (BasicRunner.collectSamples (fun k => of_nat k) (fun _ => zero) 5
              five_iterations (mkWorld 0 [])) = Returned c
       /\ List.length (BasicRunner.samples c) = 5%nat.
Proof.
  split; [reflexivity|]. split; [reflexivity|].
  apply (proj2 (@X17_collectSamples_iteration_limit
                  (fun k => of_nat k) (fun _ => zero) 5 5 five_iterations
                  (mkWorld 0 []) eq_refl ltac:(lia) ltac:(lia) ltac:(lia))).
  reflexivity.
Defined.

(** X18. A sample array that cannot be allocated.  When the limits are set
    but the estimated sample count (the iteration limit, or else
    [ceil(maxTime / 0.1)]) is not an array length (a fraction, a negative
    number, more than 2^32 - 1 or an infinity, as for [maxTime: Infinity]
    without an iteration limit), [collectSamples] throws "Invalid array
    length" after the warm-up and before the first sample. *)
Theorem X18_collectSamples_invalid_array_length
    (clock heapUsed : nat -> num) (fuel : nat)
    (p : BasicRunner.CollectParams) (w : World BasicRunner.Event) :
  truthy_value (BasicRunner.maxIterations p)
  || truthy_value (BasicRunner.maxTime p) = true ->
  BasicRunner.valid_array_length
    (BasicRunner.estimateSampleCount (BasicRunner.maxTime p)
       (BasicRunner.maxIterations p)) = false ->
  fst (BasicRunner.collectSamples clock heapUsed fuel p w)
  = Thrown "Invalid array length"
  /\ trace (snd (BasicRunner.collectSamples clock heapUsed fuel p w))
     = trace w ++ warmup_events p.
Proof.
  intros Hset Hvalid.
  assert (Hcfg : negb (truthy_value (BasicRunner.maxIterations p))
                 && negb (truthy_value (BasicRunner.maxTime p)) = false).
  { rewrite <- negb_orb, Hset. reflexivity. }
  remember (BasicRunner.collectSamples clock heapUsed fuel p w) as r eqn:Er.
  unfold BasicRunner.collectSamples in Er. rewrite Hcfg in Er.
  destruct (@warmup_spec clock p w) as (ws & w1 & Ew & _ & Htw).
  erewrite andThen_returned in Er by exact Ew.
  erewrite andThen_returned in Er by reflexivity.
  pose proof (runSampleLoop_spec clock p fuel
                (mkWorld (S (reads w1)) (trace w1))) as Hloop.
  rewrite Hvalid in Hloop.
  erewrite andThen_thrown in Er by exact Hloop.
  subst r. cbn [fst snd trace]. split; [reflexivity|exact Htw].
Qed.

Lemma X18_collectSamples_invalid_array_length_witness :
  truthy_value (BasicRunner.maxIterations unlimited_time)
  || truthy_value (BasicRunner.maxTime unlimited_time) = true
  /\ BasicRunner.valid_array_length
       (BasicRunner.estimateSampleCount (BasicRunner.maxTime unlimited_time)
          (BasicRunner.maxIterations unlimited_time)) = false
  /\ fst (BasicRunner.collectSamples (fun k => of_nat k) (fun _ => zero) 5
            unlimited_time (mkWorld 0 []))
     = Thrown "Invalid array length".
Proof.
  split; [reflexivity|]. split; [reflexivity|].
  apply (proj1 (@X18_collectSamples_invalid_array_length
                  (fun k => of_nat k) (fun _ => zero) 5 unlimited_time
                  (mkWorld 0 []) eq_refl eq_refl)).
Defined.

(** ** The events of a trace line *)

Lemma parseInt10_cases (s : string) :
  GcStats.parseInt10 s = NaN \/ exists z, GcStats.parseInt10 s = Num (inject_Z z).
Proof.
  unfold GcStats.parseInt10.
  destruct (GcStats.span GcStats.is_space s) as (sp & s1).
  destruct (GcStats.read_sign s1) as (sign & s2).
  destruct (GcStats.span GcStats.is_digit s2) as (ds & r).
  destruct ds; [now left|right; eexists; reflexivity].
Qed.

Lemma collected_nonneg (a b : num) :
  (a = NaN \/ exists z, a = Num (inject_Z z)) ->
  (b = NaN \/ exists z, b = Num (inject_Z z)) ->
  exists q, (if gtb a b then sub a b else zero) = Num q /\ 0 <= q.
Proof.
  intros [->|(x & ->)] [->|(y & ->)];
    try (exists 0; split; [reflexivity|lra]).
  destruct (gtb (Num (inject_Z x)) (Num (inject_Z y))) eqn:E.
  - apply ltb_Num in E. rewrite sub_Num. eexists. split; [reflexivity|].
    rewrite Qred_correct. lra.
  - exists 0. split; [reflexivity|lra].
Qed.

Lemma parseGcLine_event (line : string) (e : GcStats.GcEvent) :
  GcStats.parseGcLine line = Some e ->
  Text.includes line "pause=" = true
  /\ GcStats.pauseMs e <> NaN
  /\ GcStats.allocated e <> None
  /\ GcStats.promoted e <> None
  /\ GcStats.survived e <> None
  /\ exists q, GcStats.collected e = Num q /\ 0 <= q.
Proof.
  unfold GcStats.parseGcLine.
  destruct (Text.includes line "pause=") eqn:Einc; cbn [negb];
    [|discriminate].
  destruct (GcStats.lookup (GcStats.parseNvpFields line) "gc") as [gc|];
    [|discriminate].
  destruct gc as [|c t]; [discriminate|].
  destruct (isNaN _) eqn:Enan; [discriminate|].
  intros H. injection H as <-.
  cbn [GcStats.pauseMs GcStats.allocated GcStats.promoted GcStats.survived
       GcStats.collected].
  split; [reflexivity|]. split.
  { intros Hn. rewrite Hn in Enan. discriminate Enan. }
  split; [discriminate|]. split; [discriminate|]. split; [discriminate|].
  apply collected_nonneg; apply parseInt10_cases.
Qed.

(** X19. The events that [parseGcLine] returns.  An event comes only from a
    line that contains "pause="; its pause is not NaN; its [allocated],
    [promoted] and [survived] fields are always present; and the bytes it
    reports as collected are at least 0, hence not NaN (the code reports 0
    unless the start size compares above the end size). *)
Theorem X19_parseGcLine_event_fields (line : string) (e : GcStats.GcEvent) :
  GcStats.parseGcLine line = Some e ->
  Text.includes line "pause=" = true
  /\ GcStats.pauseMs e <> NaN
  /\ GcStats.allocated e <> None
  /\ GcStats.promoted e <> None
  /\ GcStats.survived e <> None
  /\ le zero (GcStats.collected e).
Proof.
  intros H.
  destruct (parseGcLine_event _ H) as (Hi & Hp & Ha & Hpr & Hs & q & Eq & Hq).
  repeat (split; [assumption|]).
  rewrite Eq. unfold le, zero. apply leb_Num. exact Hq.
Qed.

Lemma parse_scavenge_line :
  GcStats.parseGcLine
    "pause=0.5 gc=s start_object_size=900 end_object_size=400 allocated=1000"
  = Some (GcStats.mkGcEvent GcStats.scavenge (Num (1 # 2)) (Some (Num 1000))
            (Num 500) (Some (Num 0)) (Some (Num 0))).
Proof. vm_compute. reflexivity. Qed.

Lemma X19_parseGcLine_event_fields_witness :
  GcStats.parseGcLine
    "pause=0.5 gc=s start_object_size=900 end_object_size=400 allocated=1000"
  = Some (GcStats.mkGcEvent GcStats.scavenge (Num (1 # 2)) (Some (Num 1000))
            (Num 500) (Some (Num 0)) (Some (Num 0)))
  /\ Num (1 # 2) <> NaN
  /\ le zero (Num 500).
Proof.
  split; [exact parse_scavenge_line|].
  destruct (X19_parseGcLine_event_fields _ parse_scavenge_line)
    as (_ & Hp & _ & _ & _ & Hc).
  split; [exact Hp|exact Hc].
Defined.

(** ** From the trace to the statistics *)

Lemma parse_lines_events (lines : list string) (e : GcStats.GcEvent) :
  In e (parse_lines lines) -> exists line, GcStats.parseGcLine line = Some e.
Proof.
  unfold parse_lines. intros H. apply in_flat_map in H.
  destruct H as (line & _ & H). exists line.
  destruct (GcStats.parseGcLine line) as [e'|]; [|destruct H].
  destruct H as [->|[]]. reflexivity.
Qed.

Lemma parse_lines_length (lines : list string) :
  (List.length (parse_lines lines) <= List.length lines)%nat.
Proof.
  induction lines as [|l lines IH]; simpl; [lia|].
  rewrite length_app. destruct (GcStats.parseGcLine l); simpl; lia.
Qed.

Lemma fold_add_nonneg (l : list num) (a : Q) :
  0 <= a -> (forall x, In x l -> exists q, x = Num q /\ 0 <= q) ->
  exists s, fold_left add l (Num a) = Num s /\ 0 <= s.
Proof.
  revert a. induction l as [|x l IH]; intros a Ha Hl.
  - exists a. split; [reflexivity|exact Ha].
  - destruct (Hl x) as (q & -> & Hq); [now left|].
    cbn [fold_left]. rewrite add_Num. apply IH.
    + rewrite Qred_correct. lra.
    + intros y Hy. apply Hl. now right.
Qed.

Lemma kinds_disjoint (events : list GcStats.GcEvent) :
  (List.length (filter is_scavenge events)
   + List.length (filter is_mark_compact events)
   <= List.length events)%nat.
Proof.
  induction events as [|e events IH]; simpl; [lia|].
  destruct (is_scavenge e) eqn:Es, (is_mark_compact e) eqn:Em; simpl;
    try lia.
  unfold is_scavenge, is_mark_compact in *.
  destruct (GcStats.type e); discriminate.
Qed.

(** X20. The statistics of a parsed trace.  For the events that
    [parseGcLine] finds in any list of lines, [aggregateGcStats] reports a
    total of collected bytes that is at least 0, hence not NaN, gives the
    allocation totals exactly when there is at least one event, and counts
    no more collections than there are events (and lines). *)
Theorem X20_aggregate_parsed_trace (lines : list string) :
  let events := parse_lines lines in
  let stats := GcStats.aggregateGcStats events in
  le zero (GcStats.totalCollected stats)
  /\ (events <> [] <-> GcStats.totalAllocated stats <> None)
  /\ (GcStats.scavenges stats + GcStats.markCompacts stats
      <= List.length events)%nat
  /\ (List.length events <= List.length lines)%nat.
Proof.
  intros events stats.
  pose proof (aggregate_loop events GcStats.initial) as H.
  cbv zeta in H. destruct H as (Hs & Hm & _ & Hc & Hn).
  unfold stats, GcStats.aggregateGcStats.
  cbn [GcStats.totalCollected GcStats.totalAllocated GcStats.scavenges
       GcStats.markCompacts].
  rewrite Hs, Hm, Hc, Hn. cbn [GcStats.initial GcStats.a_scavenges
    GcStats.a_markCompacts GcStats.a_totalCollected GcStats.a_hasNodeFields
    Nat.add orb].
  split; [|split; [|split]].
  - match goal with
    | |- le zero ?total =>
        assert (Hq : exists q, total = Num q /\ 0 <= q)
    end.
    { apply fold_add_nonneg; [lra|].
      intros x Hx. apply in_map_iff in Hx. destruct Hx as (e & <- & He).
      destruct (parse_lines_events _ _ He) as (line & Hl).
      now destruct (parseGcLine_event _ Hl) as (_ & _ & _ & _ & _ & Hq). }
    destruct Hq as (q & -> & Hq). unfold le, zero. apply leb_Num. exact Hq.
  - assert (Hall : forall e, In e events -> carries_allocated e = true).
    { intros e He. destruct (parse_lines_events _ _ He) as (line & Hl).
      destruct (parseGcLine_event _ Hl) as (_ & _ & Ha & _).
      unfold carries_allocated. now destruct (GcStats.allocated e). }
    destruct events as [|e0 rest] eqn:Ee.
    + simpl. split; [congruence|congruence].
    + cbn [existsb]. rewrite (Hall e0) by now left. cbn [orb].
      split; discriminate.
  - apply kinds_disjoint.
  - apply parse_lines_length.
Qed.

(** ** The capture of the worker's output *)











(** ** The matrix: differences to a baseline *)

Lemma average_Qaverage (l : list Q) :
  l <> [] ->
  exists m, StatisticalUtils.average (nums l) = Num m /\ m == Qaverage l.
Proof.
  intros Hne. unfold StatisticalUtils.average, sum, zero.
  destruct (fold_add_nums l 0) as (s & E & Hs).
  rewrite E, length_num_Num, length_nums.
  assert (Hn : (0 < List.length l)%nat) by now apply nonempty_length.
  assert (Hb : ~ inject_Z (Z.of_nat (List.length l)) == 0).
  { pose proof (inject_Z_nat_pos Hn). lra. }
  rewrite div_Num by exact Hb.
  eexists. split; [reflexivity|].
  rewrite Qred_correct, Hs. unfold Qaverage. field. exact Hb.
Qed.

Lemma Qsum_zero (l : list Q) : (forall x, In x l -> x == 0) -> Qsum l == 0.
Proof.
  induction l as [|x l IH]; intros H; simpl; [reflexivity|].
  rewrite (H x) by now left. rewrite IH; [ring|].
  intros y Hy. apply H. now right.
Qed.

Lemma Qsum_lower (l : list Q) (b : Q) :
  (forall x, In x l -> b <= x) ->
  inject_Z (Z.of_nat (List.length l)) * b <= Qsum l.
Proof.
  induction l as [|x l IH]; intros H.
  - change (0 * b <= 0). rewrite Qmult_0_l. apply Qle_refl.
  - assert (Hx : b <= x) by (apply H; now left).
    assert (Hl : inject_Z (Z.of_nat (List.length l)) * b <= Qsum l)
      by (apply IH; intros y Hy; apply H; now right).
    cbn [List.length Qsum fold_right]. fold (Qsum l).
    rewrite Nat2Z.inj_succ. unfold Z.succ. rewrite inject_Z_plus.
    setoid_replace ((inject_Z (Z.of_nat (List.length l)) + inject_Z 1) * b)
      with (inject_Z (Z.of_nat (List.length l)) * b + b) by ring.
    lra.
Qed.

Lemma moderate_average_pos (l : list Q) :
  l <> [] -> moderate l -> 0 < Qaverage l.
Proof.
  intros Hne Hm. unfold Qaverage.
  assert (Hn : (0 < List.length l)%nat) by now apply nonempty_length.
  pose proof (inject_Z_nat_pos Hn) as Hn'.
  assert (Hs : inject_Z (Z.of_nat (List.length l)) * (1 # 10 ^ 100) <= Qsum l).
  { apply Qsum_lower. intros x Hx. now apply Hm. }
  assert (Hn0 : 0 < inject_Z (Z.of_nat (List.length l))) by lra.
  apply Qlt_shift_div_l; [exact Hn0|].
  assert (Hpos : 0 < inject_Z (Z.of_nat (List.length l)) * (1 # 10 ^ 100)).
  { apply Qmult_lt_0_compat; [exact Hn0|reflexivity]. }
  lra.
Qed.

(** X22. [computeDeltaPercent].  A baseline of zeros gives 0 whatever the
    current samples are (the guard that the bootstrap comparison lacks).
    For non-empty baseline and current samples between 10^-100 and 10^100
    the result is a finite number: the difference of the averages as a
    percentage of the baseline's average. *)
Theorem X22_computeDeltaPercent_guard_and_value :
  (forall (baseline : list Q) (current : list num),
      baseline <> [] -> (forall x, In x baseline -> x == 0) ->
      BenchMatrix.computeDeltaPercent (nums baseline) current = zero)
  /\ (forall baseline current : list Q,
         baseline <> [] -> current <> [] ->
         moderate baseline -> moderate current ->
         exists d,
           BenchMatrix.computeDeltaPercent (nums baseline) (nums current)
           = Num d
           /\ d == (Qaverage current - Qaverage baseline)
                   / Qaverage baseline * 100).
Proof.
  split.
  - intros baseline current Hb Hz. unfold BenchMatrix.computeDeltaPercent.
    destruct (average_Qaverage Hb) as (mb & Eb & Hmb). rewrite Eb.
    assert (H0 : mb == 0).
    { rewrite Hmb. unfold Qaverage. rewrite (Qsum_zero _ Hz).
      unfold Qdiv. ring. }
    apply Qeq_bool_true in H0. unfold zero at 1. cbn [eqb]. rewrite H0.
    reflexivity.
  - intros baseline current Hb Hc Hmb' Hmc'.
    unfold BenchMatrix.computeDeltaPercent.
    destruct (average_Qaverage Hb) as (mb & Eb & Hmb).
    destruct (average_Qaverage Hc) as (mc & Ec & Hmc).
    rewrite Eb, Ec.
    pose proof (moderate_average_pos Hb Hmb') as Hpos.
    assert (H0 : ~ mb == 0) by (rewrite Hmb; lra).
    assert (E0 : eqb (Num mb) zero = false)
      by (apply Qeq_bool_false; exact H0).
    rewrite E0, sub_Num, div_Num, mul_Num by exact H0.
    eexists. split; [reflexivity|].
    rewrite !Qred_correct, Hmb, Hmc. unfold Qminus. reflexivity.
Qed.

Lemma X22_computeDeltaPercent_guard_and_value_witness :
  BenchMatrix.computeDeltaPercent (nums [0; 0]) (nums [5]) = zero
  /\ moderate [2; 2] /\ moderate [3]
  /\ exists d,
       BenchMatrix.computeDeltaPercent (nums [2; 2]) (nums [3]) = Num d
       /\ d == 50.
Proof.
  assert (Hz : forall x, In x [0; 0] -> x == 0).
  { intros x Hx. simpl in Hx.
    repeat (destruct Hx as [<-|Hx]; [reflexivity|]). destruct Hx. }
  assert (Hb : moderate [2; 2]).
  { intros x Hx. simpl in Hx.
    repeat (destruct Hx as [<-|Hx];
            [split; apply Qle_bool_iff; vm_compute; reflexivity|]).
    destruct Hx. }
  assert (Hc : moderate [3]).
  { intros x Hx. simpl in Hx.
    repeat (destruct Hx as [<-|Hx];
            [split; apply Qle_bool_iff; vm_compute; reflexivity|]).
    destruct Hx. }
  split.
  { apply (proj1 X22_computeDeltaPercent_guard_and_value [0; 0] (nums [5]));
      [discriminate|exact Hz]. }
  split; [exact Hb|]. split; [exact Hc|].
  destruct (proj2 X22_computeDeltaPercent_guard_and_value [2; 2] [3])
    as (d & E & Hd); [discriminate|discriminate|exact Hb|exact Hc|].
  exists d. split; [exact E|]. rewrite Hd. reflexivity.
Defined.

(** ** The matrix: configuration errors *)

(** X23. The remaining configuration errors of [runMatrix].  A matrix with
    neither [variants] nor a [variantDir] is rejected before any work is
    done; a [variantDir] in which no variant is found is rejected after the
    one look into that directory. *)
Theorem X23_runMatrix_missing_variants :
  (forall discovered casesOfModule measurement matrix options
          (w : World BenchMatrix.Event),
      truthy_string (BenchMatrix.baselineDir matrix)
      && truthy_string (BenchMatrix.baselineVariant matrix) = false ->
      truthy_string (BenchMatrix.variantDir matrix) = false ->
      BenchMatrix.variants matrix = None ->
      BenchMatrix.runMatrix discovered casesOfModule measurement matrix
        options w
      = (Thrown "BenchMatrix requires either 'variants' or 'variantDir'", w))
  /\ (forall discovered casesOfModule measurement matrix options dir
             (w : World BenchMatrix.Event),
         truthy_string (BenchMatrix.baselineDir matrix)
         && truthy_string (BenchMatrix.baselineVariant matrix) = false ->
         BenchMatrix.variantDir matrix = Some dir ->
         truthy_string (Some dir) = true ->
         discovered (reads w) dir = [] ->
         BenchMatrix.runMatrix discovered casesOfModule measurement matrix
           options w
         = (Thrown ("No variants found in " ++ dir),
            mkWorld (S (reads w))
              (trace w ++ [BenchMatrix.DiscoverVariants dir]))).
Proof.
  split.
  - intros discovered casesOfModule measurement matrix options w Hb Hd Hv.
    unfold BenchMatrix.runMatrix, BenchMatrix.validateBaseline.
    rewrite Hb. erewrite andThen_returned by reflexivity.
    rewrite Hv.
    destruct (BenchMatrix.variantDir matrix) as [[|c t]|];
      try reflexivity. discriminate Hd.
  - intros discovered casesOfModule measurement matrix options dir w
      Hb Hd Ht Hnone.
    unfold BenchMatrix.runMatrix, BenchMatrix.validateBaseline.
    rewrite Hb. erewrite andThen_returned by reflexivity.
    rewrite Hd. destruct dir as [|c t]; [discriminate Ht|].
    unfold BenchMatrix.runMatrixWithDir, BenchMatrix.discoverVariants.
    erewrite andThen_returned.
    2:{ unfold andThen, emit, read, pure. cbn [reads trace]. reflexivity. }
    cbn [reads trace] in *. rewrite Hnone. reflexivity.
Qed.

Lemma X23_runMatrix_missing_variants_witness :
  BenchMatrix.runMatrix (fun _ _ => []) (fun _ _ => None) (fun _ => [])
    matrix_without_variants no_matrix_options (mkWorld 0 [])
  = (Thrown "BenchMatrix requires either 'variants' or 'variantDir'",
     mkWorld 0 [])
  /\ BenchMatrix.runMatrix (fun _ _ => []) (fun _ _ => None) (fun _ => [])
       matrix_with_dir no_matrix_options (mkWorld 0 [])
     = (Thrown "No variants found in variants",
        mkWorld 1 [BenchMatrix.DiscoverVariants "variants"]).
Proof.
  split.
  - apply (proj1 X23_runMatrix_missing_variants); reflexivity.
  - apply (proj2 X23_runMatrix_missing_variants) with (dir := "variants"%string);
      reflexivity.
Defined.

(** ** The matrix: a variant as the baseline *)

Lemma Forall2_map_self {A : Type} (f : A -> A) (P : A -> A -> Prop)
    (l : list A) :
  (forall x, In x l -> P x (f x)) -> Forall2 P l (map f l).
Proof.
  induction l as [|x l IH]; intros H; simpl; constructor.
  - apply H. now left.
  - apply IH. intros y Hy. apply H. now right.
Qed.

Lemma Forall2_refl {A : Type} (P : A -> A -> Prop) (l : list A) :
  (forall x, P x x) -> Forall2 P l l.
Proof. intros H. induction l; constructor; auto. Qed.

(** X24. [applyBaselineVariant] only adds comparisons.  The variants keep
    their order and ids, and every variant keeps its cases with their ids
    and measurements; the baseline variant itself is left as it is; when no
    variant has the baseline id nothing changes.  In every other variant a
    case that the baseline variant also ran gets that measurement as its
    baseline and [computeDeltaPercent] of the two as its difference. *)
Theorem X24_applyBaselineVariant_adds_comparisons
    (variants : list BenchMatrix.VariantResult) (b : string) :
  let r := BenchMatrix.applyBaselineVariant variants b in
  Forall2
    (fun v v' =>
       BenchMatrix.id v' = BenchMatrix.id v
       /\ map BenchMatrix.caseId (BenchMatrix.v_cases v')
          = map BenchMatrix.caseId (BenchMatrix.v_cases v)
       /\ map BenchMatrix.measured (BenchMatrix.v_cases v')
          = map BenchMatrix.measured (BenchMatrix.v_cases v)
       /\ (BenchMatrix.id v = b -> v' = v))
    variants r
  /\ ((forall v, In v variants -> BenchMatrix.id v <> b) -> r = variants)
  /\ (forall base v' c' bc,
        find (fun v => String.eqb (BenchMatrix.id v) b) variants = Some base ->
        In v' r -> BenchMatrix.id v' <> b ->
        In c' (BenchMatrix.v_cases v') ->
        BenchMatrix.find_case (BenchMatrix.v_cases base)
          (BenchMatrix.caseId c') = Some bc ->
        BenchMatrix.baseline c' = Some (BenchMatrix.measured bc)
        /\ BenchMatrix.deltaPercent c'
           = Some (BenchMatrix.computeDeltaPercent (BenchMatrix.measured bc)
                     (BenchMatrix.measured c'))).
Proof.
  intros r. unfold r, BenchMatrix.applyBaselineVariant.
  destruct (find (fun v => String.eqb (BenchMatrix.id v) b) variants)
    as [base|] eqn:Ef.
  - split; [|split].
    + apply Forall2_map_self. intros v _.
      destruct (String.eqb_spec (BenchMatrix.id v) b) as [E|E].
      * repeat split; auto.
      * cbn [BenchMatrix.id BenchMatrix.v_cases]. rewrite !map_map.
        split; [reflexivity|]. split; [|split; [|congruence]].
        -- apply map_ext. intros c.
           now destruct (BenchMatrix.find_case _ _).
        -- apply map_ext. intros c.
           now destruct (BenchMatrix.find_case _ _).
    + intros Hno. exfalso. apply find_some in Ef. destruct Ef as (Hin & Heq).
      apply String.eqb_eq in Heq. exact (Hno base Hin Heq).
    + intros base' v' c' bc Hb Hv' Hid Hc' Hbc. injection Hb as <-.
      apply in_map_iff in Hv'. destruct Hv' as (v & <- & Hv).
      destruct (String.eqb_spec (BenchMatrix.id v) b) as [E|E];
        [contradiction|].
      cbn [BenchMatrix.v_cases] in Hc'.
      apply in_map_iff in Hc'. destruct Hc' as (c & <- & Hc).
      destruct (BenchMatrix.find_case (BenchMatrix.v_cases base)
                  (BenchMatrix.caseId c)) as [bc0|] eqn:Efc.
      * cbn [BenchMatrix.caseId] in Hbc. rewrite Efc in Hbc.
        injection Hbc as <-. split; reflexivity.
      * rewrite Efc in Hbc. discriminate Hbc.
  - split; [|split].
    + apply Forall2_refl. intros v. repeat split; auto.
    + reflexivity.
    + intros base v' c' bc Hb. discriminate Hb.
Qed.

(** ** The matrix: inline runs *)

Lemma for_each_spec {A B : Type} (f : A -> IO BenchMatrix.Event B)
    (evs : A -> list BenchMatrix.Event) (Q : A -> B -> Prop) :
  (forall a w, exists b w',
      f a w = (Returned b, w') /\ trace w' = trace w ++ evs a /\ Q a b) ->
  forall l w, exists bs w',
    BenchMatrix.for_each f l w = (Returned bs, w')
    /\ trace w' = trace w ++ flat_map evs l
    /\ Forall2 Q l bs.
Proof.
  intros Hf. induction l as [|a l IH]; intros w.
  - exists [], w. cbn [BenchMatrix.for_each flat_map]. unfold pure.
    rewrite app_nil_r. auto.
  - destruct (Hf a w) as (b & w1 & Ef & Ht & HQ).
    destruct (IH w1) as (bs & w2 & Efs & Hts & HQs).
    exists (b :: bs), w2. cbn [BenchMatrix.for_each flat_map].
    erewrite andThen_returned by exact Ef.
    erewrite andThen_returned by exact Efs.
    unfold pure. split; [reflexivity|].
    split; [rewrite Hts, Ht; now rewrite <- app_assoc|].
    now constructor.
Qed.

Lemma caseIds_of_results (caseIds : list string)
    (rs : list BenchMatrix.CaseResult) :
  Forall2 (fun c r => BenchMatrix.caseId r = c) caseIds rs ->
  map BenchMatrix.caseId rs = caseIds.
Proof.
  induction 1 as [|c r cs rs' Hr _ IH]; [reflexivity|].
  simpl. now rewrite Hr, IH.
Qed.

Lemma loadCasesModule_spec
    (casesOfModule : nat -> string -> option (list string))
    (path : string) (w : World BenchMatrix.Event) :
  BenchMatrix.loadCasesModule casesOfModule path w
  = (match casesOfModule (reads w) path with
     | Some ids => Returned ids
     | None =>
         Thrown ("Cases module at " ++ path ++ " must export 'cases' array")
     end,
     mkWorld (S (reads w)) (trace w ++ [BenchMatrix.LoadCasesModule path])).
Proof.
  unfold BenchMatrix.loadCasesModule, andThen, emit, read, pure, throw.
  cbn [reads trace]. destruct (casesOfModule (reads w) path); reflexivity.
Qed.

(** [resolveCases] returns the case ids, or fails with the error of the
    cases module. *)
Lemma resolveCases_spec (casesOfModule : nat -> string -> option (list string))
    (matrix : BenchMatrix.Matrix) (options : BenchMatrix.RunMatrixOptions)
    (w : World BenchMatrix.Event) :
  (exists caseIds load w',
      BenchMatrix.resolveCases casesOfModule matrix options w
      = (Returned caseIds, w')
      /\ trace w' = trace w ++ load
      /\ (load = []
          \/ exists path,
               BenchMatrix.casesModule matrix = Some path
               /\ load = [BenchMatrix.LoadCasesModule path])
      /\ (forall ids,
            BenchMatrix.filteredCases options = Some ids -> caseIds = ids)
      /\ (BenchMatrix.filteredCases options = None ->
          BenchMatrix.casesModule matrix = None ->
          caseIds = match BenchMatrix.cases matrix with
                    | Some ids => ids
                    | None => ["default"%string]
                    end))
  \/ exists message w',
       BenchMatrix.resolveCases casesOfModule matrix options w
       = (Thrown message, w').
Proof.
  unfold BenchMatrix.resolveCases.
  destruct (BenchMatrix.casesModule matrix) as [[|c t]|] eqn:Em;
    cbn [truthy_string].
  - left. erewrite andThen_returned by reflexivity.
    eexists. exists []. eexists. split; [reflexivity|].
    split; [now rewrite app_nil_r|]. split; [now left|].
    split; [intros ids H; now rewrite H|]. intros _ H. discriminate H.
  - destruct (casesOfModule (reads w) (String c t)) as [ids|] eqn:Ea.
    + left. erewrite andThen_returned.
      2:{ erewrite andThen_returned.
          2:{ rewrite loadCasesModule_spec, Ea. reflexivity. }
          reflexivity. }
      eexists. exists [BenchMatrix.LoadCasesModule (String c t)]. eexists.
      split; [reflexivity|]. split; [reflexivity|].
      split; [right; eexists; split; reflexivity|].
      split; [intros ids' H; now rewrite H|]. intros _ H. discriminate H.
    + right. eexists. eexists. erewrite andThen_thrown.
      2:{ erewrite andThen_thrown.
          2:{ rewrite loadCasesModule_spec, Ea. reflexivity. }
          reflexivity. }
      reflexivity.
  - left. erewrite andThen_returned by reflexivity.
    eexists. exists []. eexists. split; [reflexivity|].
    split; [now rewrite app_nil_r|]. split; [now left|].
    split; [intros ids H; now rewrite H|]. intros H _. now rewrite H.
Qed.

(** What [runMatrixInline] does without a baseline directory: it fails with
    the error of the cases module, or performs the whole schedule. *)
Lemma runMatrixInline_spec
    (casesOfModule : nat -> string -> option (list string))
    (measurement : nat -> BenchMatrix.Measured)
    (matrix : BenchMatrix.Matrix) (options : BenchMatrix.RunMatrixOptions)
    (w : World BenchMatrix.Event) :
  truthy_string (BenchMatrix.baselineDir matrix) = false ->
  (exists caseIds load results res w',
      BenchMatrix.runMatrixInline casesOfModule measurement matrix options w
      = (Returned res, w')
      /\ trace w'
         = trace w ++ load
             ++ flat_map
                  (fun e => flat_map (inline_case_events options e) caseIds)
                  (selected_variants matrix options)
      /\ (load = []
          \/ exists path,
               BenchMatrix.casesModule matrix = Some path
               /\ load = [BenchMatrix.LoadCasesModule path])
      /\ (forall ids,
            BenchMatrix.filteredCases options = Some ids -> caseIds = ids)
      /\ (BenchMatrix.filteredCases options = None ->
          BenchMatrix.casesModule matrix = None ->
          caseIds = match BenchMatrix.cases matrix with
                    | Some ids => ids
                    | None => ["default"%string]
                    end)
      /\ BenchMatrix.r_name res = BenchMatrix.name matrix
      /\ BenchMatrix.r_variants res
         = BenchMatrix.withBaselineVariant matrix results
      /\ Forall2
           (fun e v =>
              BenchMatrix.id v = fst e
              /\ map BenchMatrix.caseId (BenchMatrix.v_cases v) = caseIds)
           (selected_variants matrix options) results)
  \/ exists message w',
       BenchMatrix.runMatrixInline casesOfModule measurement matrix options w
       = (Thrown message, w').
Proof.
  intros Hb. unfold BenchMatrix.runMatrixInline. rewrite Hb.
  destruct (resolveCases_spec casesOfModule matrix options w)
    as [(caseIds & load & w1 & Er & Ht1 & Hload & Hf & Hd)
       | (message & w1 & Er)].
  2:{ right. exists message, w1. erewrite andThen_thrown by exact Er.
      reflexivity. }
  left. erewrite andThen_returned by exact Er.
  fold (selected_variants matrix options).
  set (inner := fun (e : string * BenchMatrix.AnyVariant) (c : string) =>
                  andThen (emit (BenchMatrix.LoadCaseData c))
                    (fun _ =>
                       andThen (BenchMatrix.runVariant measurement (snd e)
                                  (fst e) c options)
                         (fun m => pure (BenchMatrix.mkCaseResult c m None
                                           None)))).
  assert (Hinner : forall e c (w0 : World BenchMatrix.Event),
             exists r w0',
               inner e c w0 = (Returned r, w0')
               /\ trace w0' = trace w0 ++ inline_case_events options e c
               /\ BenchMatrix.caseId r = c).
  { intros e c w0. unfold inner, BenchMatrix.runVariant, inline_case_events.
    destruct (snd e); unfold andThen, emit, read, pure; cbn [reads trace];
      eexists; eexists; (split; [reflexivity|]); cbn [trace];
      (split; [|reflexivity]); rewrite <- ?app_assoc; reflexivity. }
  assert (Houter : forall e (w0 : World BenchMatrix.Event),
             exists v w0',
               andThen (BenchMatrix.for_each (inner e) caseIds)
                 (fun cs => pure (BenchMatrix.mkVariantResult (fst e) cs)) w0
               = (Returned v, w0')
               /\ trace w0'
                  = trace w0 ++ flat_map (inline_case_events options e) caseIds
               /\ (BenchMatrix.id v = fst e
                   /\ map BenchMatrix.caseId (BenchMatrix.v_cases v) = caseIds)).
  { intros e w0.
    destruct (for_each_spec (inner e) (inline_case_events options e)
                (fun c r => BenchMatrix.caseId r = c) (Hinner e) caseIds w0)
      as (cs & w0' & Ec & Htc & HQ).
    erewrite andThen_returned by exact Ec.
    eexists. eexists. split; [reflexivity|]. split; [exact Htc|].
    split; [reflexivity|]. cbn [BenchMatrix.v_cases].
    now apply caseIds_of_results. }
  destruct (for_each_spec _ _ _ Houter (selected_variants matrix options) w1)
    as (results & w2 & Ev & Ht2 & HQ).
  erewrite andThen_returned by exact Ev.
  exists caseIds, load, results. eexists. eexists.
  split; [reflexivity|].
  split; [rewrite Ht2, Ht1; now rewrite <- app_assoc|].
  split; [exact Hload|]. split; [exact Hf|]. split; [exact Hd|].
  split; [reflexivity|]. split; [reflexivity|exact HQ].
Qed.

(** X25. What a returned [runMatrixInline] has done.  Whenever it returns,
    the matrix has no baseline directory, and the work performed is: the
    load of the cases module, if there is one, and then, variant by variant
    and case by case in order, loading the case, setting up a stateful
    variant and running the benchmark inline; no worker is started.  The
    result has the name of the matrix and, before the baseline variant is
    applied, one entry per selected variant with one case result per
    selected case. *)
Theorem X25_runMatrixInline_runs_every_pair
    (casesOfModule : nat -> string -> option (list string))
    (measurement : nat -> BenchMatrix.Measured)
    (matrix : BenchMatrix.Matrix) (options : BenchMatrix.RunMatrixOptions)
    (w w' : World BenchMatrix.Event) (res : BenchMatrix.MatrixResults) :
  BenchMatrix.runMatrixInline casesOfModule measurement matrix options w
  = (Returned res, w') ->
  truthy_string (BenchMatrix.baselineDir matrix) = false
  /\ exists caseIds load results,
       trace w'
       = trace w ++ load
           ++ flat_map
                (fun e => flat_map (inline_case_events options e) caseIds)
                (selected_variants matrix options)
       /\ (load = []
           \/ exists path,
                BenchMatrix.casesModule matrix = Some path
                /\ load = [BenchMatrix.LoadCasesModule path])
       /\ (forall ids,
             BenchMatrix.filteredCases options = Some ids -> caseIds = ids)
       /\ (BenchMatrix.filteredCases options = None ->
           BenchMatrix.casesModule matrix = None ->
           caseIds = match BenchMatrix.cases matrix with
                     | Some ids => ids
                     | None => ["default"%string]
                     end)
       /\ BenchMatrix.r_name res = BenchMatrix.name matrix
       /\ BenchMatrix.r_variants res
          = BenchMatrix.withBaselineVariant matrix results
       /\ Forall2
            (fun e v =>
               BenchMatrix.id v = fst e
               /\ map BenchMatrix.caseId (BenchMatrix.v_cases v) = caseIds)
            (selected_variants matrix options) results.
Proof.
  intros Hret.
  destruct (truthy_string (BenchMatrix.baselineDir matrix)) eqn:Hb.
  { unfold BenchMatrix.runMatrixInline in Hret. rewrite Hb in Hret.
    discriminate Hret. }
  split; [reflexivity|].
  destruct (runMatrixInline_spec casesOfModule measurement matrix options w Hb)
    as [(caseIds & load & results & res0 & w0 & E & H)
       | (message & w0 & E)];
    rewrite E in Hret; [|discriminate Hret].
  injection Hret as -> ->.
  exists caseIds, load, results. exact H.
Qed.

Lemma X25_runMatrixInline_runs_every_pair_witness :
  exists res w',
    BenchMatrix.runMatrixInline (fun _ _ => None) (fun _ => [Num 1])
      two_by_two no_matrix_options (mkWorld 0 [])
    = (Returned res, w')
    /\ exists caseIds load,
         trace w'
         = [] ++ load
             ++ flat_map
                  (fun e =>
                     flat_map (inline_case_events no_matrix_options e) caseIds)
                  (selected_variants two_by_two no_matrix_options)
         /\ caseIds = ["small"%string; "large"%string].
Proof.
  eexists. eexists. split; [lazy; reflexivity|].
  destruct (@X25_runMatrixInline_runs_every_pair (fun _ _ => None)
              (fun _ => [Num 1]) two_by_two no_matrix_options (mkWorld 0 [])
              _ _ eq_refl)
    as (_ & caseIds & load & results & Ht & _ & _ & Hd & _).
  exists caseIds, load.
  split; [exact Ht|]. apply Hd; reflexivity.
Defined.

(** ** The matrix: runs in workers *)





(** ** The matrix filter *)

Lemma includes_separator (sep : ascii) (c r : string) :
  Text.includes (c ++ String sep r) (String sep EmptyString) = true.
Proof.
  induction c as [|x c IH]; cbn [append Text.includes Text.prefix_of].
  - rewrite Ascii.eqb_refl. reflexivity.
  - rewrite IH. apply orb_true_r.
Qed.

Lemma split_at_separator (sep : ascii) (c r : string) :
  all_chars (fun x => negb (Ascii.eqb x sep)) c = true ->
  Text.split sep (c ++ String sep r) = c :: Text.split sep r.
Proof.
  induction c as [|x c IH]; intros H; cbn [append Text.split].
  - rewrite Ascii.eqb_refl. reflexivity.
  - simpl in H. apply andb_true_iff in H. destruct H as (Hx & Hc).
    apply negb_true_iff in Hx. rewrite Hx, (IH Hc). reflexivity.
Qed.

Lemma split_without_separator (sep : ascii) (v : string) :
  all_chars (fun x => negb (Ascii.eqb x sep)) v = true ->
  Text.split sep v = [v].
Proof.
  induction v as [|x v IH]; intros H; cbn [Text.split]; [reflexivity|].
  simpl in H. apply andb_true_iff in H. destruct H as (Hx & Hv).
  apply negb_true_iff in Hx. rewrite Hx, (IH Hv). reflexivity.
Qed.

(** X27. [parseMatrixFilter].  A filter without a slash is a case pattern
    (also when it is empty).  In a filter with a slash the case pattern is
    the text before the first slash and the variant pattern the text between
    the first and the second slash, each [undefined] when empty; whatever
    follows a second slash is ignored. *)
Theorem X27_parseMatrixFilter_parts :
  (forall filter,
      Text.includes filter "/" = false ->
      MatrixFilter.parseMatrixFilter filter
      = MatrixFilter.mkMatrixFilter (Some filter) None)
  /\ (forall c v,
         no_slash c -> no_slash v ->
         MatrixFilter.parseMatrixFilter (c ++ "/" ++ v)
         = MatrixFilter.mkMatrixFilter (MatrixFilter.or_undefined c)
             (MatrixFilter.or_undefined v))
  /\ (forall c v rest,
         no_slash c -> no_slash v ->
         MatrixFilter.parseMatrixFilter (c ++ "/" ++ v ++ "/" ++ rest)
         = MatrixFilter.mkMatrixFilter (MatrixFilter.or_undefined c)
             (MatrixFilter.or_undefined v)).
Proof.
  unfold MatrixFilter.parseMatrixFilter. split; [|split].
  - intros filter H. now rewrite H.
  - intros c v Hc Hv.
    change (c ++ "/" ++ v)%string with (c ++ String "/" v)%string.
    rewrite includes_separator, split_at_separator by exact Hc.
    rewrite split_without_separator by exact Hv. reflexivity.
  - intros c v rest Hc Hv.
    change (c ++ "/" ++ v ++ "/" ++ rest)%string
      with (c ++ String "/" (v ++ String "/" rest))%string.
    rewrite includes_separator, split_at_separator by exact Hc.
    rewrite split_at_separator by exact Hv. reflexivity.
Qed.

Lemma X27_parseMatrixFilter_parts_witness :
  no_slash "bevy" /\ no_slash "link" /\ no_slash EmptyString
  /\ MatrixFilter.parseMatrixFilter "bevy/link"
     = MatrixFilter.mkMatrixFilter (Some "bevy"%string) (Some "link"%string)
  /\ MatrixFilter.parseMatrixFilter "/link/more"
     = MatrixFilter.mkMatrixFilter None (Some "link"%string).
Proof.
  split; [reflexivity|]. split; [reflexivity|]. split; [reflexivity|].
  split.
  - apply (proj1 (proj2 X27_parseMatrixFilter_parts) "bevy"%string
             "link"%string); reflexivity.
  - apply (proj2 (proj2 X27_parseMatrixFilter_parts) EmptyString
             "link"%string "more"%string); reflexivity.
Defined.

Section MatrixFilterProofs.

Variable discovered : nat -> string -> list string.
Variable casesOfModule : nat -> string -> option (list string).

Lemma filter_cases (f : string -> bool) (ids : list string) :
  match filter f ids with
  | [] => forall id, In id ids -> f id = false
  | x :: l => forall id, In id (x :: l) -> In id ids /\ f id = true
  end.
Proof.
  destruct (filter f ids) as [|x l] eqn:E.
  - intros id Hid. destruct (f id) eqn:Ef; [|reflexivity].
    assert (Hin : In id (filter f ids)) by (apply filter_In; auto).
    rewrite E in Hin. destruct Hin.
  - intros id Hid. rewrite <- E in Hid. now apply filter_In in Hid.
Qed.

Lemma matching_cases (pattern : string) (caseIds : option (list string))
    (w w' : World BenchMatrix.Event) (r : option (list string)) :
  match caseIds with
  | None => pure (Some ["default"%string])
  | Some ids =>
      match filter (fun id => MatrixFilter.matchPattern id pattern) ids with
      | [] =>
          throw ("No cases match filter: " ++ MatrixFilter.quote
                   ++ pattern ++ MatrixFilter.quote)
      | filtered => pure (Some filtered)
      end
  end w = (Returned r, w') ->
  exists cl,
    r = Some cl
    /\ forall c, In c cl ->
         MatrixFilter.matchPattern c pattern = true \/ c = "default"%string.
Proof.
  destruct caseIds as [ids|].
  - pose proof (filter_cases
                  (fun id => MatrixFilter.matchPattern id pattern) ids) as Hf.
    destruct (filter _ ids) as [|x l]; [discriminate|].
    unfold pure. intros H. injection H as <- _.
    eexists. split; [reflexivity|]. intros c Hc. left. now apply Hf.
  - unfold pure. intros H. injection H as <- _.
    eexists. split; [reflexivity|]. intros c [<-|[]]. now right.
Qed.

Lemma getFilteredCases_spec (m : BenchMatrix.Matrix)
    (casePattern : option string) (w w' : World BenchMatrix.Event)
    (r : option (list string)) :
  MatrixFilter.getFilteredCases casesOfModule m casePattern w
  = (Returned r, w') ->
  (truthy_string casePattern = false /\ r = None /\ w' = w)
  \/ (truthy_string casePattern = true
      /\ exists cl,
           r = Some cl
           /\ forall c, In c cl ->
                MatrixFilter.matchPattern c (MatrixFilter.or_empty casePattern)
                = true
                \/ c = "default"%string).
Proof.
  unfold MatrixFilter.getFilteredCases.
  destruct (truthy_string casePattern) eqn:Et; cbn [negb].
  2:{ unfold pure. intros H. injection H as <- <-. left. auto. }
  intros H. right. split; [reflexivity|].
  destruct (BenchMatrix.casesModule m) as [[|c t]|].
  - erewrite andThen_returned in H by reflexivity.
    eapply matching_cases; eauto.
  - destruct (casesOfModule (reads w) (String c t)) as [ids|] eqn:Ea.
    + erewrite andThen_returned in H.
      2:{ erewrite andThen_returned.
          2:{ rewrite loadCasesModule_spec, Ea. reflexivity. }
          reflexivity. }
      eapply matching_cases; eauto.
    + erewrite andThen_thrown in H.
      2:{ erewrite andThen_thrown.
          2:{ rewrite loadCasesModule_spec, Ea. reflexivity. }
          reflexivity. }
      discriminate H.
  - erewrite andThen_returned in H by reflexivity.
    eapply matching_cases; eauto.
Qed.

Lemma getFilteredVariants_spec (m : BenchMatrix.Matrix)
    (variantPattern : option string) (w w' : World BenchMatrix.Event)
    (r : option (list string)) :
  MatrixFilter.getFilteredVariants discovered m variantPattern w
  = (Returned r, w') ->
  (truthy_string variantPattern = false /\ r = None /\ w' = w)
  \/ (truthy_string variantPattern = true
      /\ exists vl,
           r = Some vl
           /\ forall v, In v vl ->
                MatrixFilter.matchPattern v
                  (MatrixFilter.or_empty variantPattern) = true).
Proof.
  unfold MatrixFilter.getFilteredVariants.
  destruct (truthy_string variantPattern) eqn:Et; cbn [negb].
  2:{ unfold pure. intros H. injection H as <- <-. left. auto. }
  intros H. right. split; [reflexivity|].
  destruct (BenchMatrix.variants m) as [vs|].
  - pose proof (filter_cases
                  (fun id => MatrixFilter.matchPattern id
                               (MatrixFilter.or_empty variantPattern))
                  (map fst vs)) as Hf.
    destruct (filter _ (map fst vs)) as [|x l]; [discriminate H|].
    unfold pure in H. injection H as <- _.
    eexists. split; [reflexivity|]. intros c Hc. now apply Hf.
  - destruct (BenchMatrix.variantDir m) as [[|c t]|]; try discriminate H.
    unfold BenchMatrix.discoverVariants, andThen, emit, read, pure in H.
    cbn [reads trace] in H.
    match type of H with
    | context [filter ?f ?ids] =>
        pose proof (filter_cases f ids) as Hf;
        destruct (filter f ids) as [|x l]; [discriminate H|]
    end.
    injection H as <- _.
    eexists. split; [reflexivity|]. intros v Hv. now apply Hf.
Qed.

Lemma intersect_None (earlier : option (list string)) :
  MatrixFilter.intersect None earlier = earlier.
Proof. reflexivity. Qed.

Lemma intersect_Some (found : list string) (earlier : option (list string)) :
  exists l,
    MatrixFilter.intersect (Some found) earlier = Some l
    /\ forall x, In x l ->
         In x found /\ forall e, earlier = Some e -> In x e.
Proof.
  destruct earlier as [e|]; cbn [MatrixFilter.intersect].
  - eexists. split; [reflexivity|]. intros x Hx.
    apply filter_In in Hx. destruct Hx as (Hin & Hex). split; [exact Hin|].
    intros e' He'. injection He' as <-.
    apply existsb_exists in Hex. destruct Hex as (y & Hy & Heq).
    apply String.eqb_eq in Heq. now subst.
  - eexists. split; [reflexivity|]. intros x Hx. split; [exact Hx|].
    intros e H. discriminate H.
Qed.

End MatrixFilterProofs.

(** X28. [filterMatrix].  Without a filter, or with a filter whose two
    patterns are both empty, the matrix comes back as it is and nothing is
    loaded.  When it returns for a filter, the matrix itself is unchanged; a
    list whose pattern is empty is left as it was; for a case pattern the
    new case list holds only ids that match the pattern (or the implicit
    case "default"), and for a variant pattern the new variant list holds
    only ids that match; an id is kept only if the earlier list, when there
    was one, also holds it. *)
Theorem X28_filterMatrix_selects
    (discovered : nat -> string -> list string)
    (casesOfModule : nat -> string -> option (list string))
    (m : MatrixFilter.FilteredMatrix) (w : World BenchMatrix.Event) :
  MatrixFilter.filterMatrix discovered casesOfModule m None w = (Returned m, w)
  /\ (forall f,
         truthy_string (MatrixFilter.f_case f) = false ->
         truthy_string (MatrixFilter.f_variant f) = false ->
         MatrixFilter.filterMatrix discovered casesOfModule m (Some f) w
         = (Returned m, w))
  /\ (forall f m',
         fst (MatrixFilter.filterMatrix discovered casesOfModule m (Some f) w)
         = Returned m' ->
         MatrixFilter.matrix m' = MatrixFilter.matrix m
         /\ (if truthy_string (MatrixFilter.f_case f)
             then exists cl,
                    MatrixFilter.filteredCases m' = Some cl
                    /\ forall c, In c cl ->
                         (MatrixFilter.matchPattern c
                            (MatrixFilter.or_empty (MatrixFilter.f_case f))
                          = true
                          \/ c = "default"%string)
                         /\ forall e,
                              MatrixFilter.filteredCases m = Some e -> In c e
             else MatrixFilter.filteredCases m' = MatrixFilter.filteredCases m)
         /\ (if truthy_string (MatrixFilter.f_variant f)
             then exists vl,
                    MatrixFilter.filteredVariants m' = Some vl
                    /\ forall v, In v vl ->
                         MatrixFilter.matchPattern v
                           (MatrixFilter.or_empty (MatrixFilter.f_variant f))
                         = true
                         /\ forall e,
                              MatrixFilter.filteredVariants m = Some e ->
                              In v e
             else MatrixFilter.filteredVariants m'
                  = MatrixFilter.filteredVariants m)).
Proof.
  split; [reflexivity|]. split.
  - intros f Hc Hv. unfold MatrixFilter.filterMatrix. now rewrite Hc, Hv.
  - intros f m' H. unfold MatrixFilter.filterMatrix in H.
    destruct (negb (truthy_string (MatrixFilter.f_case f))
              && negb (truthy_string (MatrixFilter.f_variant f))) eqn:Eboth.
    + unfold pure in H. cbn [fst] in H. injection H as <-.
      apply andb_true_iff in Eboth. destruct Eboth as (Ec & Ev).
      apply negb_true_iff in Ec, Ev. rewrite Ec, Ev. auto.
    + unfold andThen in H.
      destruct (MatrixFilter.getFilteredCases casesOfModule
                  (MatrixFilter.matrix m) (MatrixFilter.f_case f) w)
        as (oc & w1) eqn:Ecases.
      destruct oc as [caseList| |]; try discriminate H.
      destruct (MatrixFilter.getFilteredVariants discovered
                  (MatrixFilter.matrix m) (MatrixFilter.f_variant f) w1)
        as (ov & w2) eqn:Evars.
      destruct ov as [variantList| |]; try discriminate H.
      unfold pure in H. cbn [fst] in H. injection H as <-.
      cbn [MatrixFilter.matrix MatrixFilter.filteredCases
           MatrixFilter.filteredVariants].
      split; [reflexivity|]. split.
      * destruct (getFilteredCases_spec _ _ _ _ Ecases)
          as [(Ht & -> & _)|(Ht & cl & -> & Hcl)]; rewrite Ht.
        -- reflexivity.
        -- destruct (intersect_Some cl (MatrixFilter.filteredCases m))
             as (l & El & Hl).
           exists l. split; [exact El|]. intros c Hc.
           destruct (Hl c Hc) as (Hin & He). split; [now apply Hcl|exact He].
      * destruct (getFilteredVariants_spec _ _ _ _ Evars)
          as [(Ht & -> & _)|(Ht & vl & -> & Hvl)]; rewrite Ht.
        -- reflexivity.
        -- destruct (intersect_Some vl (MatrixFilter.filteredVariants m))
             as (l & El & Hl).
           exists l. split; [exact El|]. intros v Hv.
           destruct (Hl v Hv) as (Hin & He). split; [now apply Hvl|exact He].
Qed.

(** X29. A case pattern that matches none of the matrix's own cases is an
    error: for a matrix with inline cases and no cases module, [filterMatrix]
    throws "No cases match filter" with the pattern in quotes, and nothing
    is loaded. *)
Theorem X29_filterMatrix_no_match
    (discovered : nat -> string -> list string)
    (casesOfModule : nat -> string -> option (list string))
    (m : MatrixFilter.FilteredMatrix) (f : MatrixFilter.MatrixFilter)
    (pattern : string) (ids : list string) (w : World BenchMatrix.Event) :
  MatrixFilter.f_case f = Some pattern ->
  truthy_string (Some pattern) = true ->
  truthy_string (BenchMatrix.casesModule (MatrixFilter.matrix m)) = false ->
  BenchMatrix.cases (MatrixFilter.matrix m) = Some ids ->
  (forall id, In id ids -> MatrixFilter.matchPattern id pattern = false) ->
  MatrixFilter.filterMatrix discovered casesOfModule m (Some f) w
  = (Thrown ("No cases match filter: " ++ MatrixFilter.quote ++ pattern
               ++ MatrixFilter.quote), w).
Proof.
  intros Hf Ht Hm Hids Hnone.
  unfold MatrixFilter.filterMatrix. rewrite Hf, Ht. cbn [negb andb].
  erewrite andThen_thrown; [reflexivity|].
  unfold MatrixFilter.getFilteredCases. rewrite Ht. cbn [negb].
  assert (Efilter : filter (fun id => MatrixFilter.matchPattern id pattern) ids
                    = []).
  { clear Hids. induction ids as [|x l IH]; [reflexivity|].
    cbn [filter]. rewrite (Hnone x) by now left.
    apply IH. intros id Hid. apply Hnone. now right. }
  destruct (BenchMatrix.casesModule (MatrixFilter.matrix m)) as [[|c t]|];
    try discriminate Hm;
    erewrite andThen_returned by reflexivity;
    rewrite Hids; cbn [MatrixFilter.or_empty]; rewrite Efilter; reflexivity.
Qed.

Lemma X29_filterMatrix_no_match_witness :
  (forall id, In id ["small"%string; "large"%string] ->
     MatrixFilter.matchPattern id "huge" = false)
  /\ MatrixFilter.filterMatrix (fun _ _ => []) (fun _ _ => None)
       filtered_two_by_two
       (Some (MatrixFilter.mkMatrixFilter (Some "huge"%string) None))
       (mkWorld 0 [])
     = (Thrown ("No cases match filter: " ++ MatrixFilter.quote ++ "huge"
                  ++ MatrixFilter.quote), mkWorld 0 []).
Proof.
  assert (H : forall id, In id ["small"%string; "large"%string] ->
                MatrixFilter.matchPattern id "huge" = false).
  { intros id [<-|[<-|[]]]; reflexivity. }
  split; [exact H|].
  apply (@X29_filterMatrix_no_match (fun _ _ => []) (fun _ _ => None)
           filtered_two_by_two
           (MatrixFilter.mkMatrixFilter (Some "huge"%string) None)
           "huge" ["small"%string; "large"%string] (mkWorld 0 []));
    try reflexivity. exact H.
Defined.

(** ** Merging the results of batches *)

Section MergeProofs.

Variable Other : Type.

Lemma nth_error_app_offset {A : Type} (pre l : list A) (i : nat) :
  nth_error (pre ++ l) (i + List.length pre) = nth_error l i.
Proof.
  rewrite nth_error_app2 by lia. f_equal. lia.
Qed.

(** A shifted pause point names, in the merged samples, the sample that it
    named in its own batch. *)
Lemma shift_pause_points_spec (results : list (RunBenchCLI.MeasuredResults Other)) :
  forall (pre : list num) (q : BasicRunner.PausePoint),
    In q (RunBenchCLI.shift_pause_points results (List.length pre)) ->
    exists r pts p,
      In r results
      /\ RunBenchCLI.pausePoints r = Some pts /\ In p pts
      /\ BasicRunner.durationMs q = BasicRunner.durationMs p
      /\ (BasicRunner.sampleIndex p < List.length (RunBenchCLI.samples r)
          -> nth_error (pre ++ flat_map (@RunBenchCLI.samples Other) results)
               (BasicRunner.sampleIndex q)
             = nth_error (RunBenchCLI.samples r) (BasicRunner.sampleIndex p))%nat.
Proof.
  induction results as [|r results IH]; intros pre q Hq; [destruct Hq|].
  cbn [RunBenchCLI.shift_pause_points] in Hq. apply in_app_or in Hq.
  destruct Hq as [Hq|Hq].
  - apply in_map_iff in Hq. destruct Hq as (p & <- & Hp).
    destruct (RunBenchCLI.pausePoints r) as [pts|] eqn:Epts; [|destruct Hp].
    exists r, pts, p. split; [now left|]. split; [exact Epts|].
    split; [exact Hp|]. split; [reflexivity|].
    intros Hlt. cbn [BasicRunner.sampleIndex flat_map].
    rewrite nth_error_app_offset. now apply nth_error_app1.
  - replace (List.length pre + List.length (RunBenchCLI.samples r))%nat
      with (List.length (pre ++ RunBenchCLI.samples r)) in Hq
      by apply length_app.
    destruct (IH _ _ Hq) as (r' & pts & p & Hr & Epts & Hp & Hd & Hn).
    exists r', pts, p. split; [now right|]. split; [exact Epts|].
    split; [exact Hp|]. split; [exact Hd|].
    intros Hlt. cbn [flat_map]. rewrite app_assoc. now apply Hn.
Qed.

Lemma shift_pause_points_length (results : list (RunBenchCLI.MeasuredResults Other)) (offset : nat) :
  List.length (RunBenchCLI.shift_pause_points results offset)
  = list_sum
      (map (fun r => match RunBenchCLI.pausePoints r with
                     | Some pts => List.length pts
                     | None => 0%nat
                     end) results).
Proof.
  revert offset. induction results as [|r results IH]; intros offset;
    [reflexivity|].
  cbn [RunBenchCLI.shift_pause_points map list_sum].
  rewrite length_app, length_map, IH.
  now destruct (RunBenchCLI.pausePoints r).
Qed.

End MergeProofs.

(** X30. [mergeResults].  An empty list of batches is an error and a single
    batch is returned as it is.  Two or more batches give a new result: it
    has the name of the first batch and the samples of all batches in order,
    its time statistics are [computeStats] of these samples, and it has none
    of the fields that the function does not read.  Every pause point of the
    merged result comes from a pause point of one batch, with its duration,
    and when that one names a sample of its batch, the merged one names the
    same sample among the merged samples. *)
Theorem X30_mergeResults (Other : Type)
    (results : list (RunBenchCLI.MeasuredResults Other)) :
  (results = [] ->
   RunBenchCLI.mergeResults results
   = Thrown "Cannot merge empty results array")
  /\ (forall r, results = [r] ->
        RunBenchCLI.mergeResults results = Returned r)
  /\ (forall r1 r2 rest, results = r1 :: r2 :: rest ->
        exists m,
          RunBenchCLI.mergeResults results = Returned m
          /\ RunBenchCLI.name m = RunBenchCLI.name r1
          /\ RunBenchCLI.samples m
             = flat_map (@RunBenchCLI.samples Other) results
          /\ RunBenchCLI.time m
             = BasicRunnerStats.computeStats (RunBenchCLI.samples m)
          /\ RunBenchCLI.other m = None
          /\ forall pts q,
               RunBenchCLI.pausePoints m = Some pts -> In q pts ->
               exists r rpts p,
                 In r results
                 /\ RunBenchCLI.pausePoints r = Some rpts /\ In p rpts
                 /\ BasicRunner.durationMs q = BasicRunner.durationMs p
                 /\ ((BasicRunner.sampleIndex p
                      < List.length (RunBenchCLI.samples r))%nat ->
                     nth_error (RunBenchCLI.samples m)
                       (BasicRunner.sampleIndex q)
                     = nth_error (RunBenchCLI.samples r)
                         (BasicRunner.sampleIndex p))).
Proof.
  split; [intros ->; reflexivity|]. split; [intros r ->; reflexivity|].
  intros r1 r2 rest ->. eexists. split; [reflexivity|].
  cbn [RunBenchCLI.name RunBenchCLI.samples RunBenchCLI.time
       RunBenchCLI.other RunBenchCLI.pausePoints].
  split; [reflexivity|]. split; [reflexivity|]. split; [reflexivity|].
  split; [reflexivity|].
  intros pts q Hpts Hq.
  set (results := r1 :: r2 :: rest) in *.
  assert (Hin : In q (RunBenchCLI.shift_pause_points results
                        (List.length (@nil num)))).
  { change (List.length (@nil num)) with 0%nat.
    destruct (RunBenchCLI.shift_pause_points results 0); [discriminate Hpts|].
    injection Hpts as <-. exact Hq. }
  apply (shift_pause_points_spec results []) in Hin.
  exact Hin.
Qed.
